(** * Pragati order backend: progress aggregation and real-time routing

    A shallow embedding of the order-progress controller
    ([controllers/orderController.js], [config/db.js]) and of the two
    socket servers ([server.js], in its connection-keyed and its
    user-keyed variant), with the properties the specification states
    about them.

    Conventions.
    - JavaScript numbers that hold quantities are integers ([Z]).
    - Strings are sequences of ASCII characters; [toLowerCase] and [trim]
      act on the ASCII letters and the ASCII white space.
    - A value that may be [undefined] is an [option]; the empty string is
      falsy, as in JavaScript.
    - Mutation of a shared object is explicit state passing: a handler
      takes the state before and returns the state after.
    - [new Date()] is a reading [now] handed to the handler. *)

From Stdlib Require Import ZArith List String Ascii Bool Lia.
From stdpp Require Import base option list gmap sets strings pretty.
Import ListNotations.

(** ** JavaScript helpers *)

Module Js.

(** Truthiness of a possibly undefined string: [undefined] and [""] are
    falsy. *)
Definition truthy (s : option string) : bool :=
  match s with
  | None => false
  | Some EmptyString => false
  | Some _ => true
  end.

(** A thrown [Error] object: its [message]. *)
Record Error := { message : string }.

(** [x || y] on possibly undefined strings. *)
Definition or_else (x : option string) (y : string) : string :=
  match x with
  | Some s => if truthy x then s else y
  | None => y
  end.

(** [String.prototype.toLowerCase] on ASCII: the letters A-Z move to a-z,
    every other character stays. *)
Definition lower_char (c : ascii) : ascii :=
  let n := nat_of_ascii c in
  if (65 <=? n)%nat && (n <=? 90)%nat then ascii_of_nat (n + 32) else c.

Fixpoint toLowerCase (s : string) : string :=
  match s with
  | EmptyString => EmptyString
  | String c rest => String (lower_char c) (toLowerCase rest)
  end.

(** The ASCII white space that [trim] removes: TAB, LF, VT, FF, CR and
    the space. *)
Definition is_space (c : ascii) : bool :=
  let n := nat_of_ascii c in
  ((9 <=? n)%nat && (n <=? 13)%nat) || (n =? 32)%nat.

Fixpoint trimStart (s : string) : string :=
  match s with
  | EmptyString => EmptyString
  | String c rest => if is_space c then trimStart rest else s
  end.

Fixpoint trimEnd (s : string) : string :=
  match s with
  | EmptyString => EmptyString
  | String c rest =>
      match trimEnd rest with
      | EmptyString => if is_space c then EmptyString else String c EmptyString
      | kept => String c kept
      end
  end.

(** [String.prototype.trim]. *)
Definition trim (s : string) : string := trimEnd (trimStart s).

(** A string that is empty or starts with a character [trim] keeps. *)
Definition no_leading_space (s : string) : Prop :=
  match s with
  | EmptyString => True
  | String c _ => is_space c = false
  end.

(** [s.toLowerCase().trim()], the normalization of team names. *)
Definition normalize (s : string) : string := trim (toLowerCase s).

(** The names every object literal inherits from [Object.prototype]:
    [obj[name]] is defined, and truthy, for them. *)
Definition inherited_names : list string :=
  ["constructor"; "__defineGetter__"; "__defineSetter__"; "hasOwnProperty";
   "__lookupGetter__"; "__lookupSetter__"; "isPrototypeOf";
   "propertyIsEnumerable"; "toString"; "valueOf"; "__proto__";
   "toLocaleString"]%string.

Definition is_inherited (name : string) : bool :=
  existsb (String.eqb name) inherited_names.

End Js.

(** ** The order controller *)

Module Controller.

Local Open Scope Z_scope.

(** *** Documents ([config/db.js]) *)

(** [enum: ['Pending', 'Completed']]. *)
Inductive Status := Pending | Completed.

#[global] Instance Status_eq_dec : EqDecision Status.
Proof. solve_decision. Defined.

Definition Status_eqb (a b : Status) : bool := bool_decide (a = b).

Module Entry.
Record t := { qty_completed : Z; timestamp : Z }.
End Entry.

(** [teamTrackingSchema]; [status] has a default, so a tracking record
    always has one. *)
Record TeamTracking := {
  total_completed_qty : Z;
  completed_entries : list Entry.t;
  status : Status
}.

(** One element of a section of [order_details]. The descriptive fields
    (names, sizes, the item's own [status]) play no part in the handlers
    and are left out. The controller tests [team_tracking] for presence,
    so it is optional here. *)
Record Item := {
  _id : string;
  quantity : Z;
  team_tracking : option TeamTracking
}.

Record OrderDetails := {
  glass : list Item;
  caps : list Item;
  boxes : list Item;
  pumps : list Item
}.

Record Order := {
  order_number : string;
  order_status : Status;
  order_details : OrderDetails
}.

(** The four keys of [order_details]. *)
Inductive Section := Glass | Caps | Boxes | Pumps.

(** [validTeamTypes.includes(team_type)], giving the key when it holds. *)
Definition validTeamTypes : list string := ["glass"; "caps"; "boxes"; "pumps"]%string.

Definition section_of_team_type (team_type : string) : option Section :=
  if String.eqb team_type "glass" then Some Glass
  else if String.eqb team_type "caps" then Some Caps
  else if String.eqb team_type "boxes" then Some Boxes
  else if String.eqb team_type "pumps" then Some Pumps
  else None.

(** [order.order_details[team_type]]. *)
Definition get_section (s : Section) (d : OrderDetails) : list Item :=
  match s with
  | Glass => glass d
  | Caps => caps d
  | Boxes => boxes d
  | Pumps => pumps d
  end.

(** The items of a section are mutated in place; the order object then
    holds the new items under the same key. *)
Definition set_section (s : Section) (items : list Item) (d : OrderDetails) : OrderDetails :=
  match s with
  | Glass => {| glass := items; caps := caps d; boxes := boxes d; pumps := pumps d |}
  | Caps => {| glass := glass d; caps := items; boxes := boxes d; pumps := pumps d |}
  | Boxes => {| glass := glass d; caps := caps d; boxes := items; pumps := pumps d |}
  | Pumps => {| glass := glass d; caps := caps d; boxes := boxes d; pumps := items |}
  end.

(** [Object.values(order.order_details)]. *)
Definition Object_values (d : OrderDetails) : list (list Item) :=
  [glass d; caps d; boxes d; pumps d].

(** *** The request and the response of [PATCH /orders/update-progress] *)

Module Update.
Record t := { item_id : string; qty_completed : Z }.
End Update.

(** [req.body]; [updates] is [None] when it is missing or not an array. *)
Module Body.
Record t := {
  order_number : option string;
  team_type : option string;
  updates : option (list Update.t)
}.
End Body.

Inductive Json :=
  | JError (error : string)
  | JProgress (success : bool) (message : string) (order : Order).

(** [res.status(code).json(body)]; [res.json(body)] answers 200. *)
Record Response := { code : Z; json : Json }.

(** *** [updateOrderProgress] *)

(** [teamItems.find(item => item._id.toString() === update.item_id)]. *)
Definition find_item (item_id : string) (teamItems : list Item) : option Item :=
  List.find (fun item => String.eqb (_id item) item_id) teamItems.

(** The item that [find] returned is an element of [teamItems]: writing to
    it changes the first element with that identifier. *)
Fixpoint mutate_found (item_id : string) (f : Item -> Item) (teamItems : list Item) : list Item :=
  match teamItems with
  | [] => []
  | item :: rest =>
      if String.eqb (_id item) item_id then f item :: rest
      else item :: mutate_found item_id f rest
  end.

(** [itemToUpdate.team_tracking?.total_completed_qty || 0]. *)
Definition completed_so_far (item : Item) : Z :=
  match team_tracking item with
  | None => 0
  | Some t => total_completed_qty t
  end.

Definition maxAllowedQty (item : Item) : Z :=
  quantity item - completed_so_far item.

Definition status_for (total qty : Z) : Status :=
  if total >=? qty then Completed else Pending.

(** The two branches that record an entry (the [if]/[else] on
    [!itemToUpdate.team_tracking]). *)
Definition record_entry (now : Z) (update : Update.t) (item : Item) : Item :=
  let q := Update.qty_completed update in
  let entry := {| Entry.qty_completed := q; Entry.timestamp := now |} in
  match team_tracking item with
  | None =>
      {| _id := _id item; quantity := quantity item;
         team_tracking := Some
           {| total_completed_qty := q;
              completed_entries := [entry];
              status := status_for q (quantity item) |} |}
  | Some t =>
      let total := total_completed_qty t + q in
      {| _id := _id item; quantity := quantity item;
         team_tracking := Some
           {| total_completed_qty := total;
              completed_entries := completed_entries t ++ [entry];
              status := status_for total (quantity item) |} |}
  end.

Definition quantity_exceeded (item_id : string) (maxAllowed : Z) : Js.Error :=
  {| Js.message :=
       ("Quantity exceeded for item " ++ item_id ++ ". Max allowed: " ++ pretty maxAllowed)%string |}.

(** The body of the callback given to [updates.forEach]: the items after
    the call and the error it threw, if any. *)
Definition apply_update (now : Z) (teamItems : list Item) (update : Update.t)
  : list Item * option Js.Error :=
  match find_item (Update.item_id update) teamItems with
  | None => (teamItems, None) (* [console.warn(...); return] *)
  | Some itemToUpdate =>
      if Update.qty_completed update >? maxAllowedQty itemToUpdate then
        (teamItems, Some (quantity_exceeded (Update.item_id update) (maxAllowedQty itemToUpdate)))
      else
        (mutate_found (Update.item_id update) (record_entry now update) teamItems, None)
  end.

(** [updates.forEach(...)]: a throw ends the loop and leaves the items as
    they are at that point. *)
Fixpoint forEach_updates (now : Z) (updates : list Update.t) (teamItems : list Item)
  : list Item * option Js.Error :=
  match updates with
  | [] => (teamItems, None)
  | update :: rest =>
      match apply_update now teamItems update with
      | (items', Some e) => (items', Some e)
      | (items', None) => forEach_updates now rest items'
      end
  end.

(** [item.team_tracking?.status === 'Completed' ||
     item.team_tracking?.status === undefined]. *)
Definition item_counts_as_completed (item : Item) : bool :=
  match team_tracking item with
  | None => true
  | Some t => Status_eqb (status t) Completed
  end.

Definition isOrderCompleted (d : OrderDetails) : bool :=
  forallb (fun items => forallb item_counts_as_completed items) (Object_values d).

(** The order object once the items of one of its sections have been
    written to. *)
Definition with_items (order : Order) (s : Section) (items : list Item) : Order :=
  {| order_number := order_number order;
     order_status := order_status order;
     order_details := set_section s items (order_details order) |}.

(** The fetched document after the loop over the updates: the in-memory
    order object, and the error the loop threw, if any. *)
Definition fold_updates (now : Z) (order : Order) (s : Section) (updates : list Update.t)
  : Order * option Js.Error :=
  let '(items', thrown) := forEach_updates now updates (get_section s (order_details order)) in
  (with_items order s items', thrown).

(** [if (isOrderCompleted) order.order_status = 'Completed']. *)
Definition recompute_order_status (order : Order) : Order :=
  if isOrderCompleted (order_details order) then
    {| order_number := order_number order;
       order_status := Completed;
       order_details := order_details order |}
  else order.

(** The handler. The store holds the documents by their unique
    [order_number]; [Order.findOne] reads it, [order.save()] writes the
    document back. *)
Definition updateOrderProgress (now : Z) (db : gmap string Order) (body : Body.t)
  : gmap string Order * Response :=
  match Body.order_number body, Body.team_type body, Body.updates body with
  | Some order_number, Some team_type, Some updates =>
      if Js.truthy (Some order_number) && Js.truthy (Some team_type) then
        match db !! order_number with
        | None => (db, {| code := 404; json := JError "Order not found" |})
        | Some order =>
            match section_of_team_type team_type with
            | None => (db, {| code := 400; json := JError "Invalid team type" |})
            | Some s =>
                match fold_updates now order s updates with
                | (_, Some e) => (db, {| code := 500; json := JError (Js.message e) |})
                | (order', None) =>
                    let saved := recompute_order_status order' in
                    (<[order_number := saved]> db,
                     {| code := 200;
                        json := JProgress true "Order progress updated successfully" saved |})
                end
            end
        end
      else
        (db, {| code := 400;
                json := JError "Invalid request. Required: order_number, team_type, and updates array" |})
  | _, _, _ =>
      (db, {| code := 400;
              json := JError "Invalid request. Required: order_number, team_type, and updates array" |})
  end.

(** *** Observations used to state the properties *)

(** The tracking record of the item that [find] reaches for an
    identifier. *)
Definition tracking_in (item_id : string) (teamItems : list Item) : option TeamTracking :=
  match find_item item_id teamItems with
  | Some item => team_tracking item
  | None => None
  end.

(** The same, for a stored order. *)
Definition stored_tracking (db : gmap string Order) (number : string) (s : Section)
    (item_id : string) : option TeamTracking :=
  match db !! number with
  | Some order => tracking_in item_id (get_section s (order_details order))
  | None => None
  end.

(** The quantity a batch reports for one identifier. *)
Fixpoint reported_for (item_id : string) (updates : list Update.t) : Z :=
  match updates with
  | [] => 0
  | u :: rest =>
      (if String.eqb (Update.item_id u) item_id then Update.qty_completed u else 0)
      + reported_for item_id rest
  end.

(** Whether a batch has an update for an identifier. *)
Definition mentions (item_id : string) (updates : list Update.t) : bool :=
  existsb (fun u => String.eqb (Update.item_id u) item_id) updates.


Definition request (number team_type : string) (updates : list Update.t) : Body.t :=
  {| Body.order_number := Some number;
     Body.team_type := Some team_type;
     Body.updates := Some updates |}.

End Controller.

(** Sample documents and requests for the controller. *)

Module ControllerSamples.

Import Controller.
Local Open Scope Z_scope.

Definition bottle : Item := {| _id := "g1"; quantity := 10; team_tracking := None |}.
Definition lid : Item := {| _id := "c1"; quantity := 5; team_tracking := None |}.

(** [bottle] after 4 of its 10 pieces were reported at time 0. *)
Definition bottle4 : Item :=
  {| _id := "g1"; quantity := 10;
     team_tracking := Some
       {| total_completed_qty := 4;
          completed_entries := [ {| Entry.qty_completed := 4; Entry.timestamp := 0 |} ];
          status := Pending |} |}.

Definition order1 : Order :=
  {| order_number := "N1";
     order_status := Pending;
     order_details := {| glass := [bottle]; caps := [lid]; boxes := []; pumps := [] |} |}.

Definition db1 : gmap string Order := {[ "N1"%string := order1 ]}.

(** [order1] after all 10 bottles were reported at time 1 and then 2 of
    the 5 lids at time 2. *)
Definition order1_later : Order :=
  {| order_number := "N1";
     order_status := Completed;
     order_details :=
       {| glass :=
            [ {| _id := "g1"; quantity := 10;
                 team_tracking := Some
                   {| total_completed_qty := 10;
                      completed_entries := [ {| Entry.qty_completed := 10; Entry.timestamp := 1 |} ];
                      status := Completed |} |} ];
          caps :=
            [ {| _id := "c1"; quantity := 5;
                 team_tracking := Some
                   {| total_completed_qty := 2;
                      completed_entries := [ {| Entry.qty_completed := 2; Entry.timestamp := 2 |} ];
                      status := Pending |} |} ];
          boxes := [];
          pumps := [] |} |}.

Definition upd (id : string) (q : Z) : Update.t :=
  {| Update.item_id := id; Update.qty_completed := q |}.

End ControllerSamples.

(** ** The socket server, registry keyed by connection *)

Module SocketServer.

(** *** Registry state *)

Record UserInfo := {
  socketId : string;
  userId : string;
  role : option string;
  team : option string;
  teamType : option string;
  connected : bool;
  connectedAt : string
}.

(** The object [teamMembers]: five sets of socket ids. *)
Record TeamMembers := {
  dispatchers : gset string;
  glass : gset string;
  cap : gset string;
  box : gset string;
  pump : gset string
}.

Inductive TeamKey := Dispatchers | Glass | Cap | Box | Pump.

#[global] Instance TeamKey_eq_dec : EqDecision TeamKey.
Proof. solve_decision. Defined.

(** The key of a set in [teamMembers], which is also the name of its
    room. *)
Definition key_name (k : TeamKey) : string :=
  match k with
  | Dispatchers => "dispatchers"
  | Glass => "glass"
  | Cap => "cap"
  | Box => "box"
  | Pump => "pump"
  end.

(** [teamMembers[k]] for one of the five keys, read and written. *)
Definition members (k : TeamKey) (tm : TeamMembers) : gset string :=
  match k with
  | Dispatchers => dispatchers tm
  | Glass => glass tm
  | Cap => cap tm
  | Box => box tm
  | Pump => pump tm
  end.

Definition set_members (k : TeamKey) (s : gset string) (tm : TeamMembers) : TeamMembers :=
  match k with
  | Dispatchers => {| dispatchers := s; glass := glass tm; cap := cap tm; box := box tm; pump := pump tm |}
  | Glass => {| dispatchers := dispatchers tm; glass := s; cap := cap tm; box := box tm; pump := pump tm |}
  | Cap => {| dispatchers := dispatchers tm; glass := glass tm; cap := s; box := box tm; pump := pump tm |}
  | Box => {| dispatchers := dispatchers tm; glass := glass tm; cap := cap tm; box := s; pump := pump tm |}
  | Pump => {| dispatchers := dispatchers tm; glass := glass tm; cap := cap tm; box := box tm; pump := s |}
  end.

(** What [teamMembers[name]] evaluates to: one of the five sets, a value
    inherited from [Object.prototype] (truthy, and without [add]), or
    [undefined]. *)
Inductive Property := Own (k : TeamKey) | Inherited | Undefined.

Definition teamMembers_get (name : string) : Property :=
  if String.eqb name "dispatchers" then Own Dispatchers
  else if String.eqb name "glass" then Own Glass
  else if String.eqb name "cap" then Own Cap
  else if String.eqb name "box" then Own Box
  else if String.eqb name "pump" then Own Pump
  else if Js.is_inherited name then Inherited
  else Undefined.

(** The process state: the three tables of the module and the rooms of
    the socket.io adapter (room name to the sockets that joined it). *)
Record State := {
  connectedUsers : gmap string UserInfo;
  teamMembers : TeamMembers;
  userIdentities : gmap string string;
  rooms : gmap string (gset string)
}.

Definition initial : State :=
  {| connectedUsers := ∅;
     teamMembers := {| dispatchers := ∅; glass := ∅; cap := ∅; box := ∅; pump := ∅ |};
     userIdentities := ∅;
     rooms := ∅ |}.

Definition room_members (room : string) (st : State) : gset string :=
  default ∅ (rooms st !! room).

(** [teamMembers[k].add(socketId)]. *)
Definition add_member (k : TeamKey) (socketId : string) (st : State) : State :=
  {| connectedUsers := connectedUsers st;
     teamMembers := set_members k ({[socketId]} ∪ members k (teamMembers st)) (teamMembers st);
     userIdentities := userIdentities st;
     rooms := rooms st |}.

(** [teamMembers[k].delete(socketId)]. *)
Definition delete_member (k : TeamKey) (socketId : string) (st : State) : State :=
  {| connectedUsers := connectedUsers st;
     teamMembers := set_members k (members k (teamMembers st) ∖ {[socketId]}) (teamMembers st);
     userIdentities := userIdentities st;
     rooms := rooms st |}.

(** [socket.join(room)]. *)
Definition join (room socketId : string) (st : State) : State :=
  {| connectedUsers := connectedUsers st;
     teamMembers := teamMembers st;
     userIdentities := userIdentities st;
     rooms := <[room := {[socketId]} ∪ room_members room st]> (rooms st) |}.

(** The [TypeError] of calling [add] on an inherited value. *)
Definition not_a_function : Js.Error :=
  {| Js.message := "teamMembers[normalizedTeam].add is not a function" |}.

(** The guarded block [if (teamMembers[n]) { teamMembers[n].add(id);
    socket.join(n) }] for a raw name. *)
Definition join_team (name socketId : string) (st : State) : State * option Js.Error :=
  let normalized := Js.normalize name in
  match teamMembers_get normalized with
  | Own k => (join normalized socketId (add_member k socketId st), None)
  | Inherited => (st, Some not_a_function)
  | Undefined => (st, None)
  end.

(** [role === 'admin' || role === 'dispatcher']. *)
Definition is_privileged (role : option string) : bool :=
  match role with
  | Some r => String.eqb r "admin" || String.eqb r "dispatcher"
  | None => false
  end.

(** [teamType === team], on values that may be [undefined]. *)
Definition same_string (a b : option string) : bool :=
  bool_decide (a = b).

(** [addUserToTeams(socket, userInfo)]: the state after, and the error
    thrown, if any. *)
Definition addUserToTeams (socketId : string) (userInfo : UserInfo) (st : State)
  : State * option Js.Error :=
  let st1 :=
    if is_privileged (role userInfo)
    then join "dispatchers" socketId (add_member Dispatchers socketId st)
    else st in
  let '(st2, thrown) :=
    match team userInfo with
    | Some t => if Js.truthy (Some t) then join_team t socketId st1 else (st1, None)
    | None => (st1, None)
    end in
  match thrown with
  | Some e => (st2, Some e)
  | None =>
      match teamType userInfo with
      | Some ty =>
          if Js.truthy (Some ty) && negb (same_string (Some ty) (team userInfo))
          then join_team ty socketId st2
          else (st2, None)
      | None => (st2, None)
      end
  end.

(** [if (teamMembers[k].has(socketId)) teamMembers[k].delete(socketId)]. *)
Definition remove_if_member (socketId : string) (st : State) (k : TeamKey) : State :=
  if bool_decide (socketId ∈ members k (teamMembers st))
  then delete_member k socketId st else st.

(** [removeUserFromTeams(socketId)]: the dispatchers first, then the loop
    over the four team names. *)
Definition removeUserFromTeams (socketId : string) (st : State) : State :=
  fold_left (remove_if_member socketId) [Glass; Cap; Box; Pump]
    (remove_if_member socketId st Dispatchers).

(** The identity a client declares, in the [register] event or in the
    handshake query. *)
Module UserData.
Record t := {
  userId : option string;
  role : option string;
  team : option string;
  teamType : option string
}.
End UserData.

(** [connectedUsers.set(socket.id, userInfo);
     userIdentities.set(userInfo.userId, socket.id)]. *)
Definition set_user (socketId : string) (userInfo : UserInfo) (st : State) : State :=
  {| connectedUsers := <[socketId := userInfo]> (connectedUsers st);
     teamMembers := teamMembers st;
     userIdentities := <[userId userInfo := socketId]> (userIdentities st);
     rooms := rooms st |}.

(** The [userInfo] object both registrations build: team and team type
    are stored normalized ([team?.toLowerCase().trim()]). *)
Definition make_userInfo (socketId uniqueId : string) (now : string) (userData : UserData.t) : UserInfo :=
  {| socketId := socketId;
     userId := uniqueId;
     role := UserData.role userData;
     team := Js.normalize <$> UserData.team userData;
     teamType := Js.normalize <$> UserData.teamType userData;
     connected := true;
     connectedAt := now |}.

(** The handler of [register]. After [addUserToTeams] it emits
    [registered] and the presence snapshot, which read the state and do
    not change it. *)
Definition register (socketId : string) (now : string) (userData : UserData.t) (st : State)
  : State * option Js.Error :=
  let uniqueId := Js.or_else (UserData.userId userData) socketId in
  let userInfo := make_userInfo socketId uniqueId now userData in
  addUserToTeams socketId userInfo (set_user socketId userInfo (removeUserFromTeams socketId st)).

(** The registration at connection time, from [socket.handshake.query]. *)
Definition connection (socketId : string) (now : string) (query : UserData.t) (st : State)
  : State * option Js.Error :=
  match UserData.userId query with
  | Some uid =>
      if Js.truthy (Some uid) && Js.truthy (UserData.role query) then
        let userInfo := make_userInfo socketId uid now query in
        addUserToTeams socketId userInfo (set_user socketId userInfo st)
      else (st, None)
  | None => (st, None)
  end.

(** *** Observations used to state the properties *)

(** What a stored identity asks for, per set of [teamMembers]. *)
Definition derived (info : UserInfo) (k : TeamKey) : Prop :=
  (k = Dispatchers /\ is_privileged (role info) = true)
  \/ (exists t, team info = Some t /\ Js.normalize t = key_name k)
  \/ (exists t, teamType info = Some t /\ Js.normalize t = key_name k).

(** What a declared identity asks for: the dispatchers by a privileged
    role, and any of the five sets by a team or team type that normalizes
    to its name. *)
Definition declared (userData : UserData.t) (k : TeamKey) : Prop :=
  (k = Dispatchers /\ is_privileged (UserData.role userData) = true)
  \/ Js.normalize <$> UserData.team userData = Some (key_name k)
  \/ Js.normalize <$> UserData.teamType userData = Some (key_name k).

(** The declared team does not name a property that object literals
    inherit (after normalization: [constructor] or [__proto__]). *)
Definition plain_team (team : option string) : Prop :=
  forall t, team = Some t -> Js.is_inherited (Js.normalize t) = false.

(** *** Order events *)

(** The order object a client sends: only its identifiers and the
    lengths of its sections are read. Any of them may be missing. *)
Module Payload.
Record Details := {
  glass : option (list Controller.Item);
  caps : option (list Controller.Item);
  boxes : option (list Controller.Item);
  pumps : option (list Controller.Item)
}.
Record Order := {
  _id : option string;
  order_number : option string;
  order_details : option Details
}.
(** [data] of [create-order] and [delete-order]. *)
Record t := {
  order : option Order;
  teamTypes : option (list string);
  timestamp : option string
}.
End Payload.

Inductive Target := Room (name : string) | Socket (id : string).

Record Meta := {
  meta_by : option UserInfo;
  meta_timestamp : string;
  meta_targetTeams : list string
}.

Inductive Message :=
  | OrderMessage (order : Payload.Order) (_meta : Meta)
  | ErrorMessage (error : string)
  | CreateConfirmed (orderId orderNumber : option string) (status : string)
      (targetTeams : list string) (timestamp : string)
  | DeleteConfirmed (orderId orderNumber : option string) (status : string)
      (timestamp : string).

(** One call of [io.to(room).emit(event, data)] or
    [socket.emit(event, data)]. *)
Record Emit := { to : Target; event : string; data : Message }.

(** The connections an emission is delivered to. *)
Definition recipients (st : State) (e : Emit) : gset string :=
  match to e with
  | Room name => room_members name st
  | Socket id => {[id]}
  end.

(** [section?.length > 0]. *)
Definition non_empty (items : option (list Controller.Item)) : bool :=
  match items with
  | Some (_ :: _) => true
  | _ => false
  end.

(** The four pushes [if (details.glass?.length > 0) targetTeams.push('glass')]
    and so on, onto an empty array. *)
Definition teams_of_details (details : option Payload.Details) : list string :=
  match details with
  | None => []
  | Some d =>
      ((if non_empty (Payload.glass d) then ["glass"%string] else []) ++
       (if non_empty (Payload.caps d) then ["cap"%string] else []) ++
       (if non_empty (Payload.boxes d) then ["box"%string] else []) ++
       (if non_empty (Payload.pumps d) then ["pump"%string] else []))%list
  end.

(** [let targetTeams = teamTypes || []; if (!targetTeams.length) {...}]. *)
Definition explicit_or_derived (teamTypes : option (list string)) (o : Payload.Order) : list string :=
  match teamTypes with
  | Some (t :: ts) => t :: ts
  | _ => teams_of_details (Payload.order_details o)
  end.

(** The target teams of [create-order], before normalization. *)
Definition create_targetTeams (teamTypes : option (list string)) (o : Payload.Order) : list string :=
  match explicit_or_derived teamTypes o with
  | [] => ["unassigned"%string]
  | teams => teams
  end.

(** The handler of [create-order]: the emissions, in order. *)
Definition create_order (socketId : string) (now : string) (d : Payload.t) (st : State)
  : list Emit :=
  match Payload.order d with
  | None =>
      [ {| to := Socket socketId; event := "order-create-error";
           data := ErrorMessage "Invalid order data" |} ]
  | Some o =>
      let user := connectedUsers st !! socketId in
      let normalizedTeams := map Js.normalize (create_targetTeams (Payload.teamTypes d) o) in
      let metaInfo :=
        {| meta_by := user;
           meta_timestamp := Js.or_else (Payload.timestamp d) now;
           meta_targetTeams := normalizedTeams |} in
      map (fun team => {| to := Room team; event := "new-order";
                          data := OrderMessage o metaInfo |}) normalizedTeams
      ++ [ {| to := Room "dispatchers"; event := "new-order";
              data := OrderMessage o metaInfo |};
           {| to := Socket socketId; event := "order-create-confirmed";
              data := CreateConfirmed (Payload._id o) (Payload.order_number o)
                        "delivered" normalizedTeams now |} ]
  end.

(** The handler of [delete-order]: the emissions, in order. *)
Definition delete_order (socketId : string) (now : string) (d : Payload.t) (st : State)
  : list Emit :=
  match Payload.order d with
  | Some o =>
      if Js.truthy (Payload._id o) then
        let user := connectedUsers st !! socketId in
        let normalizedTeams := explicit_or_derived (Payload.teamTypes d) o in
        let metaInfo :=
          {| meta_by := user;
             meta_timestamp := Js.or_else (Payload.timestamp d) now;
             meta_targetTeams := normalizedTeams |} in
        map (fun team => {| to := Room (Js.normalize team); event := "order-deleted";
                            data := OrderMessage o metaInfo |}) normalizedTeams
        ++ [ {| to := Room "dispatchers"; event := "order-deleted";
                data := OrderMessage o metaInfo |};
             {| to := Socket socketId; event := "order-delete-confirmed";
                data := DeleteConfirmed (Payload._id o) (Payload.order_number o)
                          "deleted" now |} ]
      else
        [ {| to := Socket socketId; event := "order-delete-error";
             data := ErrorMessage "Invalid order data" |} ]
  | None =>
      [ {| to := Socket socketId; event := "order-delete-error";
           data := ErrorMessage "Invalid order data" |} ]
  end.

(** *** Observations on the emissions *)

#[global] Instance Target_eq_dec : EqDecision Target.
Proof. solve_decision. Defined.

(** The emissions addressed to one connection by [socket.emit]. *)
Definition sent_to_socket (socketId : string) (emits : list Emit) : list Emit :=
  filter (fun e => to e = Socket socketId) emits.

(** The event carries no explicit groups: [teamTypes] is missing or
    empty. *)
Definition no_explicit_groups (d : Payload.t) : Prop :=
  Payload.teamTypes d = None \/ Payload.teamTypes d = Some [].

(** The [new-order] and [order-deleted] emissions to a room. *)
Definition order_emit (event : string) (o : Payload.Order) (m : Meta) (room : string) : Emit :=
  {| to := Room room; event := event; data := OrderMessage o m |}.

End SocketServer.

(** ** The socket server, registry keyed by user *)

Module UserKeyedServer.

Record UserInfo := {
  socketId : string;
  userId : option string;
  role : option string;
  team : option string;
  connected : bool
}.

(** [connectedUsers]: the map of dispatchers and the object of team maps,
    both keyed by the declared user id; and the rooms of the adapter. *)
Record State := {
  dispatchers : gmap (option string) UserInfo;
  teams : gmap string (gmap (option string) UserInfo);
  rooms : gmap string (gset string)
}.

Definition initial : State :=
  {| dispatchers := ∅;
     teams := {[ "glass"%string := ∅; "caps"%string := ∅; "boxes"%string := ∅; "pumps"%string := ∅ ]};
     rooms := ∅ |}.

Definition room_members (room : string) (st : State) : gset string :=
  default ∅ (rooms st !! room).

(** [socket.join(room)]. *)
Definition join (room socketId : string) (st : State) : State :=
  {| dispatchers := dispatchers st;
     teams := teams st;
     rooms := <[room := {[socketId]} ∪ room_members room st]> (rooms st) |}.

(** [const teamRooms = ['glass', 'caps', 'boxes', 'pumps']]. *)
Definition teamRooms : list string := ["glass"; "caps"; "boxes"; "pumps"]%string.

Module UserData.
Record t := {
  userId : option string;
  role : option string;
  team : option string;
  teamType : option string
}.
End UserData.

(** The [TypeError] of calling [set] on an inherited value. *)
Definition not_a_function : Js.Error :=
  {| Js.message := "connectedUsers.teams[normalizedTeam].set is not a function" |}.

(** The block under [if (role === 'admin')]. *)
Definition register_admin (socketId : string) (userInfo : UserInfo) (st : State) : State :=
  let st1 :=
    {| dispatchers := <[userId userInfo := userInfo]> (dispatchers st);
       teams := teams st;
       rooms := rooms st |} in
  fold_left (fun acc teamRoom => join teamRoom socketId acc) teamRooms
    (join "dispatchers" socketId st1).

(** The block under [if (team)]: the room is joined first; the table of
    that name is then written to, created when the name is new. A name
    that [connectedUsers.teams] inherits is truthy and has no [set]. *)
Definition register_team (socketId : string) (userInfo : UserInfo) (t : string) (st : State)
  : State * option Js.Error :=
  let normalizedTeam := Js.normalize t in
  let st1 := join normalizedTeam socketId st in
  match teams st1 !! normalizedTeam with
  | Some users =>
      ({| dispatchers := dispatchers st1;
          teams := <[normalizedTeam := <[userId userInfo := userInfo]> users]> (teams st1);
          rooms := rooms st1 |}, None)
  | None =>
      if Js.is_inherited normalizedTeam then (st1, Some not_a_function)
      else
        ({| dispatchers := dispatchers st1;
            teams := <[normalizedTeam := <[userId userInfo := userInfo]> ∅]> (teams st1);
            rooms := rooms st1 |}, None)
  end.

(** The handler of [register]; [teamType] is read from the event and not
    used. *)
Definition register (socketId : string) (userData : UserData.t) (st : State)
  : State * option Js.Error :=
  let userInfo :=
    {| socketId := socketId;
       userId := UserData.userId userData;
       role := UserData.role userData;
       team := UserData.team userData;
       connected := true |} in
  let st1 := join "all-teams" socketId st in
  let st2 :=
    if bool_decide (UserData.role userData = Some "admin"%string)
    then register_admin socketId userInfo st1 else st1 in
  match UserData.team userData with
  | Some t => if Js.truthy (Some t) then register_team socketId userInfo t st2 else (st2, None)
  | None => (st2, None)
  end.

(** The table [connectedUsers.teams[name]], empty when there is none. *)
Definition team_users (name : string) (st : State) : gmap (option string) UserInfo :=
  default ∅ (teams st !! name).

End UserKeyedServer.

(** Sample identities and orders for the socket servers. *)

Module SocketSamples.

Import SocketServer.

Definition worker (team : string) : UserData.t :=
  {| UserData.userId := Some "u1"%string;
     UserData.role := Some "worker"%string;
     UserData.team := Some team;
     UserData.teamType := None |}.

Definition admin : UserData.t :=
  {| UserData.userId := Some "u0"%string;
     UserData.role := Some "admin"%string;
     UserData.team := None;
     UserData.teamType := None |}.

Definition one_item : list Controller.Item :=
  [ {| Controller._id := "i1"; Controller.quantity := 3%Z; Controller.team_tracking := None |} ].

Definition no_details : Payload.Details :=
  {| Payload.glass := Some []; Payload.caps := Some [];
     Payload.boxes := Some []; Payload.pumps := Some [] |}.

Definition glass_only : Payload.Order :=
  {| Payload._id := Some "o1"%string;
     Payload.order_number := Some "N1"%string;
     Payload.order_details := Some
       {| Payload.glass := Some one_item; Payload.caps := Some [];
          Payload.boxes := Some []; Payload.pumps := Some [] |} |}.

Definition caps_only : Payload.Order :=
  {| Payload._id := Some "o2"%string;
     Payload.order_number := Some "N2"%string;
     Payload.order_details := Some
       {| Payload.glass := Some []; Payload.caps := Some one_item;
          Payload.boxes := Some []; Payload.pumps := Some [] |} |}.

Definition empty_order : Payload.Order :=
  {| Payload._id := Some "o3"%string;
     Payload.order_number := Some "N3"%string;
     Payload.order_details := Some no_details |}.

(** An identity sent to the user-keyed server. *)
Definition keyed_user (role team : string) : UserKeyedServer.UserData.t :=
  {| UserKeyedServer.UserData.userId := Some "u1"%string;
     UserKeyedServer.UserData.role := Some role;
     UserKeyedServer.UserData.team := Some team;
     UserKeyedServer.UserData.teamType := None |}.

Definition event_for (o : Payload.Order) : Payload.t :=
  {| Payload.order := Some o; Payload.teamTypes := None; Payload.timestamp := None |}.

End SocketSamples.

(** ** The other routes of the order controller *)

Module OrderRoutes.

Import Controller.
Local Open Scope Z_scope.

#[global] Instance Section_eq_dec : EqDecision Section.
Proof. solve_decision. Defined.

(** [s.includes(key)]: [key] occurs in [s]. *)
Fixpoint includes (s key : string) : bool :=
  String.prefix key s ||
  match s with
  | EmptyString => false
  | String _ rest => includes rest key
  end.

(** [req.body] of [POST /orders]. The items carry the identifiers the
    store gives them. *)
Module NewOrder.
Record Details := {
  glass : option (list Item);
  caps : option (list Item);
  boxes : option (list Item);
  pumps : option (list Item)
}.
Record t := {
  order_number : option string;
  dispatcher_name : option string;
  customer_name : option string;
  order_status : option Status;
  order_details : option Details
}.
End NewOrder.

(** An order as [filterOrders] projects it: its number, its status and
    the one section asked for. *)
Record Listed := {
  listed_number : string;
  listed_status : Status;
  listed_section : Section;
  listed_items : list Item
}.

Inductive Reply :=
  | RError (error : string)
  | RCreated (success : bool) (message : string) (order : Order)
  | ROrders (orders : list Order)
  | RFiltered (orders : list Listed)
  | RFailure (success : bool) (message : string)
  | RDeleted (success : bool) (message : string) (order_number : string).

Record Response := { code : Z; json : Reply }.

(** [section && section.length > 0]. *)
Definition has_length (items : option (list Item)) : bool :=
  match items with
  | Some (_ :: _) => true
  | _ => false
  end.

(** [const orderDetails = req.body.order_details || {}] and the test
    [hasItems] on it. *)
Definition hasItems (details : option NewOrder.Details) : bool :=
  match details with
  | None => false
  | Some d =>
      has_length (NewOrder.glass d) || has_length (NewOrder.caps d)
      || has_length (NewOrder.boxes d) || has_length (NewOrder.pumps d)
  end.

(** [new Order(req.body)]: a missing section is the empty array and a
    missing status is the default [Pending]. *)
Definition new_Order (number : string) (body : NewOrder.t) : Order :=
  let section (get : NewOrder.Details -> option (list Item)) :=
    default [] (NewOrder.order_details body ≫= get) in
  {| order_number := number;
     order_status := default Pending (NewOrder.order_status body);
     order_details :=
       {| glass := section NewOrder.glass;
          caps := section NewOrder.caps;
          boxes := section NewOrder.boxes;
          pumps := section NewOrder.pumps |} |}.

(** [createOrder]. [newOrder.save()] fails with code 11000 when the
    unique [order_number] is taken. *)
Definition createOrder (db : gmap string Order) (body : NewOrder.t)
  : gmap string Order * Response :=
  if negb (Js.truthy (NewOrder.order_number body)
           && Js.truthy (NewOrder.dispatcher_name body)
           && Js.truthy (NewOrder.customer_name body)) then
    (db, {| code := 400;
            json := RError "Missing required fields: order number, dispatcher name, and customer name are required" |})
  else if negb (hasItems (NewOrder.order_details body)) then
    (db, {| code := 400;
            json := RError "Order must contain at least one item (glass, caps, boxes, or pumps)" |})
  else
    let number := default EmptyString (NewOrder.order_number body) in
    match db !! number with
    | Some _ => (db, {| code := 409; json := RError "Order number already exists" |})
    | None =>
        let savedOrder := new_Order number body in
        (<[number := savedOrder]> db,
         {| code := 201;
            json := RCreated true "✅ Order Created Successfully" savedOrder |})
    end.

(** [getOrders]: every stored order, in the order the store yields
    them. *)
Definition getOrders (db : gmap string Order) : Response :=
  {| code := 200; json := ROrders (map_to_list db).*2 |}.

(** [deleteOrder], on the route parameter. *)
Definition deleteOrder (db : gmap string Order) (orderNumber : string)
  : gmap string Order * Response :=
  if negb (Js.truthy (Some orderNumber)) then
    (db, {| code := 400; json := RFailure false "Invalid order number" |})
  else
    match db !! orderNumber with
    | None => (db, {| code := 404; json := RFailure false "Order not found" |})
    | Some deletedOrder =>
        (delete orderNumber db,
         {| code := 200;
            json := RDeleted true "Order deleted successfully" (order_number deletedOrder) |})
    end.

(** The keys of [teamMapping], in order, with the section each maps to. *)
Definition teamMapping : list (string * Section) :=
  [("glass", Glass); ("cap", Caps); ("box", Boxes); ("pump", Pumps)]%string.

(** [Object.keys(teamMapping).find(key => team.toLowerCase().includes(key))],
    with the section of the key found. *)
Definition teamField (team : string) : option Section :=
  snd <$> List.find (fun entry => includes (Js.toLowerCase team) (fst entry)) teamMapping.

(** [orderType === 'liveOrders' ? 'Pending' : 'Completed']. *)
Definition orderStatus (orderType : string) : Status :=
  if String.eqb orderType "liveOrders" then Pending else Completed.

(** The query of [filterOrders]: the status, and a first element in the
    section ([`${teamField}.0`: { $exists: true }]). *)
Definition matches (status : Status) (s : Section) (order : Order) : bool :=
  Status_eqb (order_status order) status
  && match get_section s (order_details order) with
     | [] => false
     | _ :: _ => true
     end.

Definition project (s : Section) (order : Order) : Listed :=
  {| listed_number := order_number order;
     listed_status := order_status order;
     listed_section := s;
     listed_items := get_section s (order_details order) |}.

(** [filterOrders], on the route parameter [orderType] and the query
    parameter [team]. *)
Definition filterOrders (db : gmap string Order) (orderType : string) (team : option string)
  : Response :=
  match team with
  | Some t =>
      if Js.truthy (Some t) then
        match teamField t with
        | None => {| code := 400; json := RError "Invalid team type" |}
        | Some s =>
            {| code := 200;
               json := RFiltered
                         (map (project s)
                            (List.filter (matches (orderStatus orderType) s)
                               (map_to_list db).*2)) |}
        end
      else {| code := 400; json := RError "Team parameter is required" |}
  | None => {| code := 400; json := RError "Team parameter is required" |}
  end.

(** *** Observations used to state the properties *)

(** The orders a [filterOrders] answer lists. *)
Definition listed (r : Response) : list Listed :=
  match json r with
  | RFiltered orders => orders
  | _ => []
  end.

(** The tracking record of an item is consistent: its total is the sum
    of its entries, does not exceed the quantity, and its status is the
    one the total gives. *)
Definition sum_entries (entries : list Entry.t) : Z :=
  fold_right (fun e acc => Entry.qty_completed e + acc) 0 entries.

Definition well_tracked (item : Item) : Prop :=
  match team_tracking item with
  | None => True
  | Some t =>
      total_completed_qty t = sum_entries (completed_entries t)
      /\ total_completed_qty t <= quantity item
      /\ status t = status_for (total_completed_qty t) (quantity item)
  end.

Definition well_tracked_order (order : Order) : Prop :=
  forall s item, In item (get_section s (order_details order)) -> well_tracked item.

(** The entries a batch records for one identifier, in order. *)
Definition entries_for (now : Z) (item_id : string) (updates : list Update.t) : list Entry.t :=
  map (fun u => {| Entry.qty_completed := Update.qty_completed u; Entry.timestamp := now |})
    (List.filter (fun u => String.eqb (Update.item_id u) item_id) updates).

(** The entries an item holds. *)
Definition entries_of (item : Item) : list Entry.t :=
  match team_tracking item with
  | None => []
  | Some t => completed_entries t
  end.



(** The items a [POST /orders] body gives for a section. *)
Definition body_section (s : Section) (body : NewOrder.t) : list Item :=
  get_section s (order_details (new_Order EmptyString body)).

End OrderRoutes.

(** Sample requests for the other routes. *)

Module RouteSamples.

Import Controller OrderRoutes.

Definition two_team_order : NewOrder.t :=
  {| NewOrder.order_number := Some "N5"%string;
     NewOrder.dispatcher_name := Some "Asha"%string;
     NewOrder.customer_name := Some "Lotus"%string;
     NewOrder.order_status := None;
     NewOrder.order_details := Some
       {| NewOrder.glass := Some [ControllerSamples.bottle];
          NewOrder.caps := Some [ControllerSamples.lid];
          NewOrder.boxes := None;
          NewOrder.pumps := Some [] |} |}.

End RouteSamples.

(** ** The other events of the connection-keyed server *)

Module SocketEvents.

Import SocketServer.

(** The handler of [disconnect]. When the event is delivered socket.io
    has taken the socket out of every room it had joined; the handler
    then clears the sets and the entry of [connectedUsers]. It does not
    touch [userIdentities]. *)
Definition disconnect (socketId : string) (st : State) : State :=
  let st1 := removeUserFromTeams socketId st in
  {| connectedUsers := delete socketId (connectedUsers st1);
     teamMembers := teamMembers st1;
     userIdentities := userIdentities st1;
     rooms := (fun sockets => sockets ∖ {[socketId]}) <$> rooms st1 |}.

(** The body of the loop of the periodic sweep for one entry of
    [connectedUsers]: [live] tells whether [io.sockets.sockets] still
    holds the socket and it is not disconnected. *)
Definition sweep_entry (live : string -> bool) (st : State) (socketId : string) : State :=
  if live socketId then st
  else
    let st1 :=
      {| connectedUsers := delete socketId (connectedUsers st);
         teamMembers := teamMembers st;
         userIdentities := userIdentities st;
         rooms := rooms st |} in
    removeUserFromTeams socketId st1.

(** The periodic sweep: the loop over the entries of [connectedUsers].
    The entries are visited in the order the model's map yields them; the
    steps for different sockets do not interfere. *)
Definition sweep (live : string -> bool) (st : State) : State :=
  fold_left (sweep_entry live) (map_to_list (connectedUsers st)).*1 st.

(** What happens to the registry, one event at a time. *)
Inductive Event :=
  | Connect (socketId now : string) (query : UserData.t)
  | Register (socketId now : string) (userData : UserData.t)
  | Disconnect (socketId : string)
  | Sweep (live : string -> bool).

(** The state after an event; a handler that throws leaves the state it
    had reached. *)
Definition step (st : State) (e : Event) : State :=
  match e with
  | Connect socketId now query => (connection socketId now query st).1
  | Register socketId now userData => (register socketId now userData st).1
  | Disconnect socketId => disconnect socketId st
  | Sweep live => sweep live st
  end.

Definition run (events : list Event) : State := fold_left step events initial.

(** What the registry keeps true: every member of a set of [teamMembers]
    is a connected user and is in the room of that set, and no room other
    than the five of [teamMembers] has been joined. *)
Record consistent (st : State) : Prop := {
  members_connected :
    forall k id, id ∈ members k (teamMembers st) -> is_Some (connectedUsers st !! id);
  members_in_room :
    forall k id, id ∈ members k (teamMembers st) -> id ∈ room_members (key_name k) st;
  rooms_named :
    forall r id, id ∈ room_members r st -> exists k, r = key_name k
}.

(** *** [order-update] and [edit-order] *)

(** [data] of [order-update]. *)
Module Updated.
Record t := {
  order : option Payload.Order;
  teamType : option string;
  timestamp : option string
}.
End Updated.

(** [{ order, teamTypes }] of [edit-order]. *)
Module Edited.
Record t := {
  order : option Payload.Order;
  teamTypes : option (list string)
}.
End Edited.

Inductive Data :=
  | OrderUpdated (order : Payload.Order) (updatedBy : option UserInfo)
      (teamType : option string) (timestamp : string) (targetTeams : list string)
  | UpdateConfirmed (orderId : option string) (status : string) (timestamp : string)
  | OrderEdited (order : Payload.Order).

Record Sent := { sent_to : Target; sent_event : string; sent_data : Data }.

(** Reading [order.order_number] of a missing order. *)
Definition reading_undefined : Js.Error :=
  {| Js.message := "Cannot read properties of undefined (reading 'order_number')" |}.

(** The handler of [order-update]: the emissions, in order, and the error
    thrown, if any. *)
Definition order_update (socketId : string) (now : string) (d : Updated.t) (st : State)
  : list Sent * option Js.Error :=
  match Updated.order d with
  | None => ([], Some reading_undefined)
  | Some o =>
      let user := connectedUsers st !! socketId in
      let targetTeams := teams_of_details (Payload.order_details o) in
      let payload :=
        OrderUpdated o user (Updated.teamType d)
          (Js.or_else (Updated.timestamp d) now) targetTeams in
      (map (fun team => {| sent_to := Room team; sent_event := "order-updated";
                           sent_data := payload |}) targetTeams
       ++ [ {| sent_to := Room "dispatchers"; sent_event := "order-updated";
               sent_data := payload |};
            {| sent_to := Socket socketId; sent_event := "order-update-confirmed";
               sent_data := UpdateConfirmed (Payload._id o) "delivered" now |} ],
       None)
  end.

(** The handler of [edit-order]. *)
Definition edit_order (d : Edited.t) : list Sent * option Js.Error :=
  match Edited.order d with
  | None => ([], Some reading_undefined)
  | Some o =>
      let targetTeams := explicit_or_derived (Edited.teamTypes d) o in
      (map (fun team => {| sent_to := Room team; sent_event := "order-edited";
                           sent_data := OrderEdited o |}) targetTeams
       ++ [ {| sent_to := Room "dispatchers"; sent_event := "order-edited";
               sent_data := OrderEdited o |} ],
       None)
  end.

End SocketEvents.

(** ** The merge step of [updateOrder] *)

Module OrderMerge.

Section Merge.

(** An item as the merge sees it: an object whose fields of type string
    can be read ([item.cap_name], [item[nameField]]). *)
Variable Item : Type.
Variable field : Item -> string -> option string.

(** [existingOrder.order_details] and [updateData.order_details]; a key
    may be missing. *)
Record Details := {
  caps : option (list Item);
  glass : option (list Item);
  boxes : option (list Item);
  pumps : option (list Item)
}.

(** The keys of [sectionMap], in its order. *)
Inductive Key := KCaps | KGlass | KBoxes | KPumps.

(** [sectionMap[key]]. *)
Definition nameField (key : Key) : string :=
  match key with
  | KCaps => "cap_name"
  | KGlass => "glass_name"
  | KBoxes => "box_name"
  | KPumps => "pump_name"
  end.

Definition get (key : Key) (d : Details) : option (list Item) :=
  match key with
  | KCaps => caps d
  | KGlass => glass d
  | KBoxes => boxes d
  | KPumps => pumps d
  end.

(** [value && value !== placeholder]. *)
Definition filled (value : option string) (placeholder : string) : bool :=
  Js.truthy value && negb (bool_decide (value = Some placeholder)).

(** The callback of [newDetails[key].filter(...)]. *)
Definition is_valid (key : Key) (item : Item) : bool :=
  match key with
  | KCaps => filled (field item "cap_name") "N/A" && filled (field item "neck_size") "-"
  | _ => filled (field item (nameField key)) "N/A"
  end.

(** [processSection(key, nameField)], as the value of
    [mergedOrderDetails[key]] after it. *)
Definition processSection (key : Key) (newItems merged : option (list Item))
  : option (list Item) :=
  match newItems with
  | Some (first :: others) =>
      match List.filter (is_valid key) (first :: others) with
      | [] => merged
      | validItems => Some validItems
      end
  | _ => merged
  end.

(** [mergedOrderDetails] after the loop over [sectionMap], starting from
    a copy of the existing details. *)
Definition mergedOrderDetails (existingDetails newDetails : Details) : Details :=
  {| caps := processSection KCaps (caps newDetails) (caps existingDetails);
     glass := processSection KGlass (glass newDetails) (glass existingDetails);
     boxes := processSection KBoxes (boxes newDetails) (boxes existingDetails);
     pumps := processSection KPumps (pumps newDetails) (pumps existingDetails) |}.

(** The valid items a request gives for a key. *)
Definition valid_items (key : Key) (newDetails : Details) : list Item :=
  List.filter (is_valid key) (default [] (get key newDetails)).

End Merge.

Arguments caps {Item} _.
Arguments glass {Item} _.
Arguments boxes {Item} _.
Arguments pumps {Item} _.
Arguments get {Item} _ _.
Arguments Build_Details {Item} _ _ _ _.

(** Sample items: objects with string fields. *)
Definition sample_field (item : gmap string string) (name : string) : option string :=
  item !! name.

Definition named (field_name value : string) : gmap string string :=
  {[ field_name := value ]}.

End OrderMerge.

(** ** The events of the user-keyed server *)

Module UserKeyedEvents.

Import SocketServer.
Import UserKeyedServer.

(** What the handlers emit. The copy of a deleted order sent to a team
    room carries no [targetTeams]; the copy sent to the dispatchers carries
    [teamTypes] as it was received. *)
Inductive Data :=
  | NewOrder (order : Payload.Order) (createdBy : option UserInfo)
      (timestamp : string) (targetTeams : list string)
  | ErrorData (error : string)
  | CreateConfirmed (orderId orderNumber : option string) (status : string)
      (targetTeams : list string) (timestamp : string)
  | OrderUpdated (order : Payload.Order) (updatedBy : option UserInfo)
      (teamType timestamp : option string)
  | UpdateConfirmed (orderId : option string) (status : string) (timestamp : string)
  | OrderEdited (order : Payload.Order)
  | OrderDeleted (order : Payload.Order) (deletedBy : option UserInfo) (timestamp : string)
  | OrderDeletedFor (order : Payload.Order) (deletedBy : option UserInfo)
      (targetTeams : option (list string)) (timestamp : string)
  | DeleteConfirmed (orderId orderNumber : option string) (status : string)
      (timestamp : string).

(** One call of [io.to(room).emit(event, data)] or
    [socket.emit(event, data)]. *)
Record Sent := { to : Target; event : string; data : Data }.

(** The connections an emission is delivered to. *)
Definition recipients (st : State) (e : Sent) : gset string :=
  match to e with
  | Room name => room_members name st
  | Socket id => {[id]}
  end.

(** How many emissions of one event reach a connection. *)
Definition deliveries (name socketId : string) (st : State) (emits : list Sent) : nat :=
  length (filter (fun e => event e = name /\ socketId ∈ recipients st e) emits).

(** [const room = io.sockets.adapter.rooms.get(team);
    const roomSize = room ? room.size : 0]. *)
Definition roomSize (team : string) (st : State) : nat :=
  match rooms st !! team with
  | Some room => size room
  | None => 0
  end.

(** The four pushes of [create-order], onto an empty array. *)
Definition teams_of_details (details : option Payload.Details) : list string :=
  match details with
  | None => []
  | Some d =>
      ((if non_empty (Payload.glass d) then ["glass"%string] else []) ++
       (if non_empty (Payload.caps d) then ["caps"%string] else []) ++
       (if non_empty (Payload.boxes d) then ["boxes"%string] else []) ++
       (if non_empty (Payload.pumps d) then ["pumps"%string] else []))%list
  end.

(** [let targetTeams = teamTypes || []], the derivation when it is empty,
    passed through a [Set] (the four names differ, so nothing is dropped),
    and the fallback [['unassigned']]. *)
Definition create_targetTeams (teamTypes : option (list string)) (o : Payload.Order)
  : list string :=
  let targetTeams :=
    match teamTypes with
    | Some (t :: ts) => t :: ts
    | _ => remove_dups (teams_of_details (Payload.order_details o))
    end in
  match targetTeams with
  | [] => ["unassigned"%string]
  | _ => targetTeams
  end.

Definition invalid_order (socketId event_name : string) : Sent :=
  {| to := Socket socketId; event := event_name; data := ErrorData "Invalid order data" |}.

(** The handler of [create-order]: the emissions, in order. [user] is
    what [findUserBySocketId(socket.id)] returned; the search walks the
    tables in the order of their insertions, which the registry does not
    keep, so its result is taken as given. [clock k] is the time read at
    the [k]-th place of the handler that reads it. *)
Definition create_order (socketId : string) (user : option UserInfo) (clock : nat -> string)
    (d : Payload.t) (st : State) : list Sent :=
  match Payload.order d with
  | None => [ invalid_order socketId "order-create-error" ]
  | Some o =>
      let normalizedTeams := map Js.normalize (create_targetTeams (Payload.teamTypes d) o) in
      let payload :=
        NewOrder o user (Js.or_else (Payload.timestamp d) (clock 0)) normalizedTeams in
      flat_map (fun team =>
                  if bool_decide (0 < roomSize team st)
                  then [ {| to := Room team; event := "new-order"; data := payload |} ]
                  else []) normalizedTeams
      ++ [ {| to := Room "dispatchers"; event := "new-order"; data := payload |};
           {| to := Socket socketId; event := "order-create-confirmed";
              data := CreateConfirmed (Payload._id o) (Payload.order_number o)
                        "delivered" normalizedTeams (clock 1) |} ]
  end.

(** The handler of [order-update]: the emissions and the error thrown by
    reading [order.order_number] of a missing order. *)
Definition order_update (socketId : string) (user : option UserInfo) (clock : nat -> string)
    (d : SocketEvents.Updated.t) : list Sent * option Js.Error :=
  match SocketEvents.Updated.order d with
  | None => ([], Some SocketEvents.reading_undefined)
  | Some o =>
      ([ {| to := Room "dispatchers"; event := "order-updated";
            data := OrderUpdated o user (SocketEvents.Updated.teamType d)
                      (SocketEvents.Updated.timestamp d) |};
         {| to := Socket socketId; event := "order-update-confirmed";
            data := UpdateConfirmed (Payload._id o) "delivered" (clock 0) |} ],
       None)
  end.

(** Calling [teamTypes.forEach] when no [teamTypes] came. *)
Definition reading_forEach : Js.Error :=
  {| Js.message := "Cannot read properties of undefined (reading 'forEach')" |}.

(** The handler of [edit-order]. *)
Definition edit_order (d : SocketEvents.Edited.t) : list Sent * option Js.Error :=
  match SocketEvents.Edited.order d with
  | None => ([], Some SocketEvents.reading_undefined)
  | Some o =>
      match SocketEvents.Edited.teamTypes d with
      | None => ([], Some reading_forEach)
      | Some teamTypes =>
          (map (fun team => {| to := Room team; event := "order-edited";
                               data := OrderEdited o |}) teamTypes,
           None)
      end
  end.

(** The handler of [delete-order]. The time is read anew for each room
    when the event carries none. *)
Definition delete_order (socketId : string) (user : option UserInfo) (clock : nat -> string)
    (d : Payload.t) : list Sent :=
  match Payload.order d with
  | Some o =>
      if Js.truthy (Payload._id o) then
        let teamTypes := default [] (Payload.teamTypes d) in
        imap (fun i team =>
                {| to := Room (Js.normalize team); event := "order-deleted";
                   data := OrderDeleted o user (Js.or_else (Payload.timestamp d) (clock i)) |})
             teamTypes
        ++ [ {| to := Room "dispatchers"; event := "order-deleted";
                data := OrderDeletedFor o user (Payload.teamTypes d)
                          (Js.or_else (Payload.timestamp d) (clock (length teamTypes))) |};
             {| to := Socket socketId; event := "order-delete-confirmed";
                data := DeleteConfirmed (Payload._id o) (Payload.order_number o)
                          "deleted" (clock (S (length teamTypes))) |} ]
      else [ invalid_order socketId "order-delete-error" ]
  | None => [ invalid_order socketId "order-delete-error" ]
  end.

(** *** [disconnect] *)

(** Before the handler runs the library takes the connection out of every
    room. *)
Definition leave_all (socketId : string) (rooms : gmap string (gset string))
  : gmap string (gset string) :=
  (fun sockets => sockets ∖ {[socketId]}) <$> rooms.

(** No entry of a table belongs to the connection. *)
Definition unlisted (socketId : string) (users : gmap (option string) UserInfo) : Prop :=
  forall uid info, users !! uid = Some info -> UserKeyedServer.socketId info <> socketId.

(** The handler of [disconnect], as a relation between the state before
    and after. It deletes one entry of the dispatchers that belongs to the
    connection; only when there is none, one such entry of one team table;
    then it stops. Which entry comes first depends on the order of the
    insertions, which the registry does not keep: the relation allows any
    of them. *)
Inductive disconnect (socketId : string) (st : State) : State -> Prop :=
  | disconnect_dispatcher uid info :
      dispatchers st !! uid = Some info ->
      UserKeyedServer.socketId info = socketId ->
      disconnect socketId st
        {| dispatchers := delete uid (dispatchers st);
           teams := teams st;
           rooms := leave_all socketId (rooms st) |}
  | disconnect_member team users uid info :
      unlisted socketId (dispatchers st) ->
      teams st !! team = Some users ->
      users !! uid = Some info ->
      UserKeyedServer.socketId info = socketId ->
      disconnect socketId st
        {| dispatchers := dispatchers st;
           teams := <[team := delete uid users]> (teams st);
           rooms := leave_all socketId (rooms st) |}
  | disconnect_unknown :
      unlisted socketId (dispatchers st) ->
      (forall team users, teams st !! team = Some users -> unlisted socketId users) ->
      disconnect socketId st
        {| dispatchers := dispatchers st;
           teams := teams st;
           rooms := leave_all socketId (rooms st) |}.

End UserKeyedEvents.

(** * Properties of the order controller *)

Module ControllerFacts.

Import Controller.
Local Open Scope Z_scope.

(** ** The loop over the updates *)

Lemma get_set_section s items d : get_section s (set_section s items d) = items.
Proof. by destruct s. Qed.


Lemma record_entry_id now u item : _id (record_entry now u item) = _id item.
Proof. unfold record_entry. by destruct (team_tracking item). Qed.

Lemma record_entry_quantity now u item : quantity (record_entry now u item) = quantity item.
Proof. unfold record_entry. by destruct (team_tracking item). Qed.

Lemma find_item_mutate_same id f items :
  (forall item, _id (f item) = _id item) ->
  find_item id (mutate_found id f items) = f <$> find_item id items.
Proof.
  intros Hid. unfold find_item.
  induction items as [|item rest IH]; [done|]. simpl.
  destruct (String.eqb (_id item) id) eqn:E; simpl.
  - by rewrite Hid, E.
  - by rewrite E.
Qed.

Lemma find_item_mutate_other id id' f items :
  (forall item, _id (f item) = _id item) ->
  id' <> id ->
  find_item id' (mutate_found id f items) = find_item id' items.
Proof.
  intros Hid Hne. unfold find_item.
  induction items as [|item rest IH]; [done|]. simpl.
  destruct (String.eqb (_id item) id) eqn:E; simpl.
  - rewrite Hid. apply String.eqb_eq in E. rewrite E.
    by destruct (String.eqb_spec id id') as [->|_].
  - by rewrite IH.
Qed.

Lemma find_item_is_None id items :
  find_item id items = None <-> ~ In id (map _id items).
Proof.
  unfold find_item. induction items as [|item rest IH]; simpl; [tauto|].
  destruct (String.eqb_spec (_id item) id) as [->|Hne]; [|rewrite IH]; intuition congruence.
Qed.

Lemma mutate_found_ids id f items :
  (forall item, _id (f item) = _id item) ->
  map _id (mutate_found id f items) = map _id items.
Proof.
  intros Hid. induction items as [|item rest IH]; [done|]. simpl.
  destruct (String.eqb (_id item) id); simpl; [by rewrite Hid | by rewrite IH].
Qed.

Lemma apply_update_ids now items u items' r :
  apply_update now items u = (items', r) -> map _id items' = map _id items.
Proof.
  unfold apply_update. destruct (find_item _ items); [|by intros [= <- _]].
  destruct (_ >? _); intros [= <- _]; [done|].
  apply mutate_found_ids, record_entry_id.
Qed.

Lemma forEach_ids now updates : forall items items' r,
  forEach_updates now updates items = (items', r) -> map _id items' = map _id items.
Proof.
  induction updates as [|u rest IH]; intros items items' r; simpl.
  - by intros [= <- _].
  - destruct (apply_update now items u) as [mid [e|]] eqn:E.
    + intros [= <- _]. eapply apply_update_ids, E.
    + intros H. rewrite (IH _ _ _ H). eapply apply_update_ids, E.
Qed.

(** A loop over [pre ++ post] is the loop over [pre] followed, unless it
    threw, by the loop over [post]. *)
Lemma forEach_app now pre post items :
  forEach_updates now (pre ++ post) items =
  match forEach_updates now pre items with
  | (mid, Some e) => (mid, Some e)
  | (mid, None) => forEach_updates now post mid
  end.
Proof.
  revert items. induction pre as [|u pre IH]; intros items; simpl; [done|].
  destruct (apply_update now items u) as [mid [e|]]; [done | apply IH].
Qed.

(** The step that throws. *)
Lemma apply_update_exceeds now items u item :
  find_item (Update.item_id u) items = Some item ->
  Update.qty_completed u > maxAllowedQty item ->
  apply_update now items u =
    (items, Some (quantity_exceeded (Update.item_id u) (maxAllowedQty item))).
Proof.
  intros Hf Hgt. unfold apply_update. rewrite Hf.
  destruct (Z.gtb_spec (Update.qty_completed u) (maxAllowedQty item)); [done | lia].
Qed.

(** Whatever the loop throws is a quantity error, raised by the first
    update that asks for more than its item allows, with the items as the
    updates before it left them. *)
Lemma forEach_throws_inv now updates : forall items items' e,
  forEach_updates now updates items = (items', Some e) ->
  exists pre u post item,
    updates = pre ++ u :: post
    /\ forEach_updates now pre items = (items', None)
    /\ find_item (Update.item_id u) items' = Some item
    /\ Update.qty_completed u > maxAllowedQty item
    /\ e = quantity_exceeded (Update.item_id u) (maxAllowedQty item).
Proof.
  induction updates as [|u rest IH]; intros items items' e; simpl; [done|].
  destruct (apply_update now items u) as [mid [e'|]] eqn:E.
  - intros [= <- <-]. exists [], u, rest. revert E. unfold apply_update.
    destruct (find_item _ items) as [item|] eqn:Hf; [|done].
    destruct (Z.gtb_spec (Update.qty_completed u) (maxAllowedQty item)); [|done].
    intros [= <- <-]. exists item. repeat split; [done | lia].
  - intros H. destruct (IH _ _ _ H) as (pre & u' & post & item & -> & Hpre & Hf & Hgt & ->).
    exists (u :: pre), u', post, item. simpl. rewrite E. repeat split; done.
Qed.

(** ** What a recorded entry does to an item *)


Lemma status_for_Pending total qty : status_for total qty = Pending <-> total < qty.
Proof. unfold status_for. destruct (Z.geb_spec total qty); split; (done || lia). Qed.

Lemma record_entry_tracking now u item :
  exists t,
    team_tracking (record_entry now u item) = Some t
    /\ total_completed_qty t = completed_so_far item + Update.qty_completed u
    /\ status t = status_for (total_completed_qty t) (quantity item).
Proof.
  unfold record_entry, completed_so_far.
  destruct (team_tracking item) as [t|]; eexists; (split; [reflexivity|]); simpl; split; (done || lia).
Qed.

Lemma apply_update_find now items u items' id :
  apply_update now items u = (items', None) ->
  find_item id items' =
    if String.eqb (Update.item_id u) id
    then record_entry now u <$> find_item id items
    else find_item id items.
Proof.
  unfold apply_update.
  destruct (find_item (Update.item_id u) items) as [found|] eqn:Hf.
  - destruct (_ >? _); [done|]. intros [= <-].
    destruct (String.eqb_spec (Update.item_id u) id) as [<-|Hne].
    + apply find_item_mutate_same. intros; apply record_entry_id.
    + apply find_item_mutate_other; [intros; apply record_entry_id | done].
  - intros [= <-]. destruct (String.eqb_spec (Update.item_id u) id) as [<-|Hne]; [|done].
    by rewrite Hf.
Qed.

(** The effect of a batch that did not throw on the item found for an
    identifier: the quantities reported for it are added up, and if the
    batch mentions it, its status is the one recomputed from the total. *)
Lemma forEach_find now updates : forall items items' id item,
  forEach_updates now updates items = (items', None) ->
  find_item id items = Some item ->
  exists item',
    find_item id items' = Some item'
    /\ quantity item' = quantity item
    /\ completed_so_far item' = completed_so_far item + reported_for id updates
    /\ (mentions id updates = true ->
        exists t, team_tracking item' = Some t
                  /\ status t = status_for (total_completed_qty t) (quantity item))
    /\ (mentions id updates = false -> item' = item).
Proof.
  induction updates as [|u rest IH]; intros items items' id item; simpl.
  - intros [= <-] Hf. exists item. repeat split; (done || lia).
  - destruct (apply_update now items u) as [mid [e|]] eqn:E; [done|].
    intros Hrest Hf. pose proof (apply_update_find _ _ _ _ id E) as Hmid.
    rewrite Hf in Hmid. destruct (String.eqb (Update.item_id u) id) eqn:Eid; simpl in *.
    + destruct (IH _ _ _ _ Hrest Hmid) as (item' & Hf' & Hq & Hc & Hm & Hn).
      destruct (record_entry_tracking now u item) as (t & Ht & Htot & Hst).
      exists item'. rewrite record_entry_quantity in *.
      assert (completed_so_far (record_entry now u item)
              = completed_so_far item + Update.qty_completed u) as Hcs.
      { unfold completed_so_far at 1. by rewrite Ht. }
      repeat split; [done | done | lia | | done].
      intros _. destruct (mentions id rest) eqn:Em; [by apply Hm|].
      rewrite (Hn eq_refl). eauto.
    + destruct (IH _ _ _ _ Hrest Hmid) as (item' & Hf' & Hq & Hc & Hm & Hn).
      exists item'. repeat split; (done || lia).
Qed.

(** ** The handler, case by case *)

Lemma section_of_team_type_truthy team_type s :
  section_of_team_type team_type = Some s -> Js.truthy (Some team_type) = true.
Proof. by destruct team_type. Qed.

Lemma section_of_team_type_None team_type :
  section_of_team_type team_type = None <-> ~ In team_type validTeamTypes.
Proof.
  unfold section_of_team_type, validTeamTypes. simpl.
  destruct (String.eqb_spec team_type "glass") as [->|?]; [split; [done | tauto]|].
  destruct (String.eqb_spec team_type "caps") as [->|?]; [split; [done | tauto]|].
  destruct (String.eqb_spec team_type "boxes") as [->|?]; [split; [done | tauto]|].
  destruct (String.eqb_spec team_type "pumps") as [->|?]; [split; [done | tauto]|].
  split; [|done]. intros _. intuition congruence.
Qed.

Lemma fold_updates_eq now order s updates :
  fold_updates now order s updates =
  (with_items order s (forEach_updates now updates (get_section s (order_details order))).1,
   (forEach_updates now updates (get_section s (order_details order))).2).
Proof. unfold fold_updates. by destruct (forEach_updates _ _ _). Qed.

Lemma handler_throws now db number team_type order s updates items' e :
  Js.truthy (Some number) = true ->
  db !! number = Some order ->
  section_of_team_type team_type = Some s ->
  forEach_updates now updates (get_section s (order_details order)) = (items', Some e) ->
  updateOrderProgress now db (request number team_type updates)
  = (db, {| code := 500; json := JError (Js.message e) |}).
Proof.
  intros Hn Hdb Hs Hloop. unfold updateOrderProgress, request.
  cbn [Body.order_number Body.team_type Body.updates].
  rewrite Hn, (section_of_team_type_truthy _ _ Hs), Hdb, Hs, fold_updates_eq, Hloop. done.
Qed.

Lemma handler_saves now db number team_type order s updates items' :
  Js.truthy (Some number) = true ->
  db !! number = Some order ->
  section_of_team_type team_type = Some s ->
  forEach_updates now updates (get_section s (order_details order)) = (items', None) ->
  updateOrderProgress now db (request number team_type updates)
  = (<[number := recompute_order_status (with_items order s items')]> db,
     {| code := 200;
        json := JProgress true "Order progress updated successfully"
                  (recompute_order_status (with_items order s items')) |}).
Proof.
  intros Hn Hdb Hs Hloop. unfold updateOrderProgress, request.
  cbn [Body.order_number Body.team_type Body.updates].
  rewrite Hn, (section_of_team_type_truthy _ _ Hs), Hdb, Hs, fold_updates_eq, Hloop. done.
Qed.

(** A 200 answer means the loop did not throw. *)
Lemma handler_200_inv now db number team_type order s updates :
  Js.truthy (Some number) = true ->
  db !! number = Some order ->
  section_of_team_type team_type = Some s ->
  code (updateOrderProgress now db (request number team_type updates)).2 = 200 ->
  exists items',
    forEach_updates now updates (get_section s (order_details order)) = (items', None).
Proof.
  intros Hn Hdb Hs. 
  destruct (forEach_updates now updates (get_section s (order_details order)))
    as [items' [e|]] eqn:Hloop.
  - by rewrite (handler_throws _ _ _ _ _ _ _ _ _ Hn Hdb Hs Hloop).
  - eauto.
Qed.

Lemma recompute_order_status_details order :
  order_details (recompute_order_status order) = order_details order.
Proof. unfold recompute_order_status. by destruct (isOrderCompleted _). Qed.

Lemma handler_200_effect now db number team_type order s updates id item :
  Js.truthy (Some number) = true ->
  db !! number = Some order ->
  section_of_team_type team_type = Some s ->
  code (updateOrderProgress now db (request number team_type updates)).2 = 200 ->
  find_item id (get_section s (order_details order)) = Some item ->
  exists saved item',
    (updateOrderProgress now db (request number team_type updates)).1 !! number = Some saved
    /\ find_item id (get_section s (order_details saved)) = Some item'
    /\ quantity item' = quantity item
    /\ completed_so_far item' = completed_so_far item + reported_for id updates
    /\ (mentions id updates = true ->
        exists t, team_tracking item' = Some t
                  /\ status t = status_for (total_completed_qty t) (quantity item))
    /\ (mentions id updates = false -> item' = item).
Proof.
  intros Hn Hdb Hs Hcode Hf.
  destruct (handler_200_inv _ _ _ _ _ _ _ Hn Hdb Hs Hcode) as [items' Hloop].
  rewrite (handler_saves _ _ _ _ _ _ _ _ Hn Hdb Hs Hloop). simpl.
  destruct (forEach_find _ _ _ _ _ _ Hloop Hf) as (item' & Hf' & Hrest).
  exists (recompute_order_status (with_items order s items')), item'.
  rewrite lookup_insert_eq, recompute_order_status_details. simpl.
  by rewrite get_set_section.
Qed.

Lemma stored_tracking_eq db number s id saved item :
  db !! number = Some saved ->
  find_item id (get_section s (order_details saved)) = Some item ->
  stored_tracking db number s id = team_tracking item.
Proof. intros Hdb Hf. unfold stored_tracking, tracking_in. by rewrite Hdb, Hf. Qed.

(** ** C1 *)

(** C1. When an update of a batch asks for more than
    [maxAllowed = quantity - total_completed_qty] of its item (the total
    counting as 0 for an item without tracking), the operation fails with
    the quantity error: the answer carries that error, the entry is not
    recorded, and the in-memory order is the one the earlier updates of
    the batch produced, not the one that was fetched. *)
Theorem C1_quantity_exceeded_keeps_earlier_updates
    now db number team_type order s pre u post items1 item :
  Js.truthy (Some number) = true ->
  db !! number = Some order ->
  section_of_team_type team_type = Some s ->
  forEach_updates now pre (get_section s (order_details order)) = (items1, None) ->
  find_item (Update.item_id u) items1 = Some item ->
  Update.qty_completed u > quantity item - completed_so_far item ->
  let e := quantity_exceeded (Update.item_id u) (quantity item - completed_so_far item) in
  fold_updates now order s (pre ++ u :: post) = (with_items order s items1, Some e)
  /\ tracking_in (Update.item_id u)
       (get_section s (order_details (fold_updates now order s (pre ++ u :: post)).1))
     = team_tracking item
  /\ (updateOrderProgress now db (request number team_type (pre ++ u :: post))).2
     = {| code := 500; json := JError (Js.message e) |}
  /\ (team_tracking item = None -> completed_so_far item = 0).
Proof.
  intros Hn Hdb Hs Hpre Hf Hgt e.
  assert (forEach_updates now (pre ++ u :: post) (get_section s (order_details order))
          = (items1, Some e)) as Hloop.
  { rewrite forEach_app, Hpre. simpl.
    by rewrite (apply_update_exceeds now items1 u item Hf Hgt). }
  assert (fold_updates now order s (pre ++ u :: post) = (with_items order s items1, Some e))
    as Hfold by (by rewrite fold_updates_eq, Hloop).
  split; [done|]. split.
  - rewrite Hfold. simpl. rewrite get_set_section. unfold tracking_in. by rewrite Hf.
  - split.
    + by rewrite (handler_throws _ _ _ _ _ _ _ _ _ Hn Hdb Hs Hloop).
    + intros Hnone. unfold completed_so_far. by rewrite Hnone.
Qed.

Lemma C1_witness :
  (updateOrderProgress 0 ControllerSamples.db1
     (request "N1" "glass"
        ([ControllerSamples.upd "g1" 4]
         ++ ControllerSamples.upd "g1" 7 :: [ControllerSamples.upd "g1" 1]))).2
  = {| code := 500; json := JError "Quantity exceeded for item g1. Max allowed: 6" |}.
Proof.
  apply (C1_quantity_exceeded_keeps_earlier_updates 0 ControllerSamples.db1
    "N1" "glass" ControllerSamples.order1 Glass
    [ControllerSamples.upd "g1" 4] (ControllerSamples.upd "g1" 7) [ControllerSamples.upd "g1" 1]
    [ControllerSamples.bottle4] ControllerSamples.bottle4);
    [reflexivity | reflexivity | reflexivity | reflexivity | reflexivity
    | vm_compute; reflexivity].
Defined.

(** ** C10 *)

(** C10. When the loop over a batch throws, the handler answers 500 with
    the error's message and has not reached [order.save()]: the store is
    the one it was called with. The error is the quantity error of the
    first update that asked for too much, and the in-memory order at that
    point holds the updates before it. *)
Theorem C10_failed_batch_leaves_store_unchanged
    now db number team_type order s updates memory e :
  Js.truthy (Some number) = true ->
  db !! number = Some order ->
  section_of_team_type team_type = Some s ->
  fold_updates now order s updates = (memory, Some e) ->
  updateOrderProgress now db (request number team_type updates)
  = (db, {| code := 500; json := JError (Js.message e) |})
  /\ exists pre u post items1 item,
       updates = pre ++ u :: post
       /\ forEach_updates now pre (get_section s (order_details order)) = (items1, None)
       /\ memory = with_items order s items1
       /\ find_item (Update.item_id u) items1 = Some item
       /\ Update.qty_completed u > maxAllowedQty item
       /\ e = quantity_exceeded (Update.item_id u) (maxAllowedQty item).
Proof.
  intros Hn Hdb Hs Hfold. rewrite fold_updates_eq in Hfold.
  destruct (forEach_updates now updates (get_section s (order_details order)))
    as [items1 thrown] eqn:Hloop.
  simpl in Hfold. injection Hfold as <- ->. split.
  - by apply (handler_throws _ _ _ _ _ _ _ _ _ Hn Hdb Hs Hloop).
  - destruct (forEach_throws_inv _ _ _ _ _ Hloop)
      as (pre & u & post & item & -> & Hpre & Hf & Hgt & ->).
    exists pre, u, post, items1, item. repeat split; done.
Qed.

Lemma C10_witness :
  updateOrderProgress 0 ControllerSamples.db1
    (request "N1" "glass" [ControllerSamples.upd "g1" 4; ControllerSamples.upd "g1" 7])
  = (ControllerSamples.db1,
     {| code := 500; json := JError "Quantity exceeded for item g1. Max allowed: 6" |}).
Proof.
  apply (C10_failed_batch_leaves_store_unchanged 0 ControllerSamples.db1
    "N1" "glass" ControllerSamples.order1 Glass
    [ControllerSamples.upd "g1" 4; ControllerSamples.upd "g1" 7]
    (with_items ControllerSamples.order1 Glass [ControllerSamples.bottle4])
    (quantity_exceeded "g1" 6));
    reflexivity.
Defined.

(** ** C9 *)

(** C9. A well-formed request for an order number the store does not hold
    is answered 404; one for a stored order and a team type outside the
    four sections is answered 400; and an update whose identifier matches
    no item of the section is skipped: the items stay as they are, no
    error is raised, and the batch gives what it gives without that
    update. *)
Theorem C9_not_found_invalid_team_and_skipped_items :
  (forall now db number team_type updates,
      Js.truthy (Some number) = true ->
      Js.truthy (Some team_type) = true ->
      db !! number = None ->
      updateOrderProgress now db (request number team_type updates)
      = (db, {| code := 404; json := JError "Order not found" |}))
  /\ (forall now db number team_type updates order,
        Js.truthy (Some number) = true ->
        Js.truthy (Some team_type) = true ->
        db !! number = Some order ->
        ~ In team_type validTeamTypes ->
        updateOrderProgress now db (request number team_type updates)
        = (db, {| code := 400; json := JError "Invalid team type" |}))
  /\ (forall now teamItems u,
        find_item (Update.item_id u) teamItems = None ->
        apply_update now teamItems u = (teamItems, None))
  /\ (forall now teamItems pre u post,
        find_item (Update.item_id u) teamItems = None ->
        forEach_updates now (pre ++ u :: post) teamItems
        = forEach_updates now (pre ++ post) teamItems).
Proof.
  split; [|split; [|split]].
  - intros now db number team_type updates Hn Ht Hdb.
    unfold updateOrderProgress, request.
    cbn [Body.order_number Body.team_type Body.updates].
    by rewrite Hn, Ht, Hdb.
  - intros now db number team_type updates order Hn Ht Hdb Hbad.
    apply section_of_team_type_None in Hbad.
    unfold updateOrderProgress, request.
    cbn [Body.order_number Body.team_type Body.updates].
    by rewrite Hn, Ht, Hdb, Hbad.
  - intros now teamItems u Hf. unfold apply_update. by rewrite Hf.
  - intros now teamItems pre u post Hf. rewrite !forEach_app.
    destruct (forEach_updates now pre teamItems) as [mid [e|]] eqn:Hpre; [done|].
    simpl. assert (find_item (Update.item_id u) mid = None) as Hmid.
    { apply find_item_is_None. rewrite (forEach_ids _ _ _ _ _ Hpre).
      by apply find_item_is_None. }
    unfold apply_update at 1. by rewrite Hmid.
Qed.

Lemma C9_witness :
  updateOrderProgress 0 ControllerSamples.db1
    (request "N2" "glass" [ControllerSamples.upd "g1" 4])
  = (ControllerSamples.db1, {| code := 404; json := JError "Order not found" |})
  /\ updateOrderProgress 0 ControllerSamples.db1
       (request "N1" "lids" [ControllerSamples.upd "g1" 4])
     = (ControllerSamples.db1, {| code := 400; json := JError "Invalid team type" |})
  /\ apply_update 0 [ControllerSamples.bottle] (ControllerSamples.upd "zz" 99)
     = ([ControllerSamples.bottle], None)
  /\ forEach_updates 0
       ([ControllerSamples.upd "g1" 4] ++ ControllerSamples.upd "zz" 99 :: [ControllerSamples.upd "g1" 6])
       [ControllerSamples.bottle]
     = forEach_updates 0 ([ControllerSamples.upd "g1" 4] ++ [ControllerSamples.upd "g1" 6])
         [ControllerSamples.bottle].
Proof.
  destruct C9_not_found_invalid_team_and_skipped_items as (H404 & H400 & Hstep & Hskip).
  split; [|split; [|split]].
  - apply H404; reflexivity.
  - apply (H400 _ _ _ _ _ ControllerSamples.order1); try reflexivity.
    simpl. intros [H|[H|[H|[H|[]]]]]; discriminate H.
  - apply Hstep. reflexivity.
  - apply Hskip. reflexivity.
Defined.

(** ** C2 *)

Lemma handler_single_200 now db number team_type order s id q item :
  Js.truthy (Some number) = true ->
  db !! number = Some order ->
  section_of_team_type team_type = Some s ->
  find_item id (get_section s (order_details order)) = Some item ->
  q <= quantity item - completed_so_far item ->
  code (updateOrderProgress now db
          (request number team_type [ {| Update.item_id := id; Update.qty_completed := q |} ])).2
  = 200.
Proof.
  intros Hn Hdb Hs Hf Hle.
  erewrite handler_saves; [done | done | done | done |].
  simpl. unfold apply_update. simpl. rewrite Hf. unfold maxAllowedQty.
  destruct (Z.gtb_spec q (quantity item - completed_so_far item)); [lia | done].
Qed.



(** ** C3 *)



(** Every 200 answer comes from the last branch of the handler. *)
Lemma handler_200_shape now db body db' j :
  updateOrderProgress now db body = (db', {| code := 200; json := j |}) ->
  exists number team_type updates order s items',
    body = request number team_type updates
    /\ db !! number = Some order
    /\ section_of_team_type team_type = Some s
    /\ forEach_updates now updates (get_section s (order_details order)) = (items', None)
    /\ db' = <[number := recompute_order_status (with_items order s items')]> db
    /\ j = JProgress true "Order progress updated successfully"
             (recompute_order_status (with_items order s items')).
Proof.
  unfold updateOrderProgress.
  destruct body as [[number|] [team_type|] [updates|]];
    cbn [Body.order_number Body.team_type Body.updates]; try done.
  destruct (Js.truthy (Some number) && Js.truthy (Some team_type)); [|done].
  destruct (db !! number) as [order|] eqn:Hdb; [|done].
  destruct (section_of_team_type team_type) as [s|] eqn:Hs; [|done].
  rewrite fold_updates_eq.
  destruct (forEach_updates now updates (get_section s (order_details order)))
    as [items' [e|]] eqn:Hloop; simpl; [done|].
  intros [= <- <-]. exists number, team_type, updates, order, s, items'. done.
Qed.




End ControllerFacts.

(** * Properties of the string helpers *)

Module JsFacts.

Import Js.

Lemma lower_char_idem c : lower_char (lower_char c) = lower_char c.
Proof. by destruct c as [[] [] [] [] [] [] [] []]. Qed.

Lemma is_space_lower_char c : is_space (lower_char c) = is_space c.
Proof. by destruct c as [[] [] [] [] [] [] [] []]. Qed.

Lemma toLowerCase_idem s : toLowerCase (toLowerCase s) = toLowerCase s.
Proof. induction s as [|c s IH]; simpl; [done|]. by rewrite lower_char_idem, IH. Qed.

Lemma trimStart_toLowerCase s : trimStart (toLowerCase s) = toLowerCase (trimStart s).
Proof.
  induction s as [|c s IH]; simpl; [done|].
  rewrite is_space_lower_char. by destruct (is_space c).
Qed.

Lemma trimEnd_toLowerCase s : trimEnd (toLowerCase s) = toLowerCase (trimEnd s).
Proof.
  induction s as [|c s IH]; simpl; [done|].
  rewrite IH, is_space_lower_char.
  destruct (trimEnd s); simpl; [by destruct (is_space c) | done].
Qed.

Lemma trimStart_no_leading_space s : no_leading_space (trimStart s).
Proof.
  induction s as [|c s IH]; simpl; [done|].
  destruct (is_space c) eqn:E; [done | by simpl].
Qed.

Lemma trimStart_fixed s : no_leading_space s -> trimStart s = s.
Proof. destruct s as [|c s]; simpl; [done|]. by intros ->. Qed.

Lemma trimEnd_no_leading_space s : no_leading_space s -> no_leading_space (trimEnd s).
Proof.
  destruct s as [|c s]; simpl; [done|]. intros Hc.
  destruct (trimEnd s); [by rewrite Hc | done].
Qed.

Lemma trimEnd_idem s : trimEnd (trimEnd s) = trimEnd s.
Proof.
  induction s as [|c s IH]; simpl; [done|].
  destruct (trimEnd s) as [|c' kept] eqn:E.
  - destruct (is_space c) eqn:Ec; simpl; [done | by rewrite Ec].
  - change (trimEnd (String c (String c' kept))) with
      (match trimEnd (String c' kept) with
       | EmptyString => if is_space c then EmptyString else String c EmptyString
       | String a b => String c (String a b)
       end).
    by rewrite IH.
Qed.

Lemma trim_idem s : trim (trim s) = trim s.
Proof.
  unfold trim.
  rewrite (trimStart_fixed (trimEnd (trimStart s))).
  - apply trimEnd_idem.
  - apply trimEnd_no_leading_space, trimStart_no_leading_space.
Qed.

Lemma trim_toLowerCase s : trim (toLowerCase s) = toLowerCase (trim s).
Proof. unfold trim. by rewrite trimStart_toLowerCase, trimEnd_toLowerCase. Qed.

(** Normalizing twice is normalizing once: [addUserToTeams] normalizes
    names that [register] has normalized already. *)
Lemma normalize_idem s : normalize (normalize s) = normalize s.
Proof.
  unfold normalize.
  by rewrite (trim_toLowerCase (trim (toLowerCase s))), trim_idem,
    <- trim_toLowerCase, toLowerCase_idem.
Qed.

End JsFacts.

(** * Properties of the connection-keyed socket server *)

Module SocketFacts.

Import SocketServer.

(** ** Sets and rooms *)

Lemma key_name_inj k k' : key_name k = key_name k' -> k = k'.
Proof. by destruct k, k'. Qed.

Lemma members_set_members_eq k s tm : members k (set_members k s tm) = s.
Proof. by destruct k. Qed.

Lemma members_set_members_ne k k' s tm :
  k <> k' -> members k' (set_members k s tm) = members k' tm.
Proof. by destruct k, k'. Qed.

Lemma teamMembers_get_Own name k : teamMembers_get name = Own k <-> name = key_name k.
Proof.
  split.
  - unfold teamMembers_get.
    destruct (String.eqb_spec name "dispatchers") as [->|_]; [by intros [= <-]|].
    destruct (String.eqb_spec name "glass") as [->|_]; [by intros [= <-]|].
    destruct (String.eqb_spec name "cap") as [->|_]; [by intros [= <-]|].
    destruct (String.eqb_spec name "box") as [->|_]; [by intros [= <-]|].
    destruct (String.eqb_spec name "pump") as [->|_]; [by intros [= <-]|].
    by destruct (Js.is_inherited name).
  - intros ->. by destruct k.
Qed.

Lemma room_members_join r r' id st :
  room_members r' (join r id st)
  = if decide (r = r') then {[id]} ∪ room_members r' st else room_members r' st.
Proof.
  unfold room_members at 1, join. simpl.
  destruct (decide (r = r')) as [->|Hne].
  - by rewrite lookup_insert_eq.
  - by rewrite lookup_insert_ne.
Qed.

Lemma elem_of_members_add_member k k' id id' st :
  id' ∈ members k' (teamMembers (add_member k id st))
  <-> id' ∈ members k' (teamMembers st) \/ (id' = id /\ k = k').
Proof.
  unfold add_member. simpl. destruct (decide (k = k')) as [->|Hne].
  - rewrite members_set_members_eq, elem_of_union, elem_of_singleton. tauto.
  - rewrite members_set_members_ne by done. tauto.
Qed.

Lemma elem_of_members_delete_member k k' id id' st :
  id' ∈ members k' (teamMembers (delete_member k id st))
  <-> id' ∈ members k' (teamMembers st) /\ ~ (id' = id /\ k = k').
Proof.
  unfold delete_member. simpl. destruct (decide (k = k')) as [->|Hne].
  - rewrite members_set_members_eq, elem_of_difference, elem_of_singleton. tauto.
  - rewrite members_set_members_ne by done. tauto.
Qed.

(** ** [removeUserFromTeams] *)

Lemma remove_if_member_spec id st k k' id' :
  id' ∈ members k' (teamMembers (remove_if_member id st k))
  <-> id' ∈ members k' (teamMembers st) /\ ~ (id' = id /\ k = k').
Proof.
  unfold remove_if_member. case_bool_decide as Hin.
  - apply elem_of_members_delete_member.
  - split; [|tauto]. intros H. split; [done|]. intros [-> ->]. done.
Qed.

Lemma remove_if_member_rooms id st k : rooms (remove_if_member id st k) = rooms st.
Proof. unfold remove_if_member. by case_bool_decide. Qed.

(** The table after the removal: the connection is in no set, and the
    other connections are where they were. *)
Lemma removeUserFromTeams_members id st k id' :
  id' ∈ members k (teamMembers (removeUserFromTeams id st))
  <-> id' ∈ members k (teamMembers st) /\ id' <> id.
Proof.
  unfold removeUserFromTeams. cbn [fold_left]. rewrite !remove_if_member_spec.
  destruct k; intuition congruence.
Qed.

(** The rooms the connection joined are not left. *)
Lemma removeUserFromTeams_rooms id st : rooms (removeUserFromTeams id st) = rooms st.
Proof. unfold removeUserFromTeams. cbn [fold_left]. by rewrite !remove_if_member_rooms. Qed.

(** ** [addUserToTeams] *)

Lemma key_name_truthy k t : Js.normalize t = key_name k -> Js.truthy (Some t) = true.
Proof. destruct t; [by destruct k | done]. Qed.

Lemma key_name_not_inherited k : Js.is_inherited (key_name k) = false.
Proof. by destruct k. Qed.

Lemma join_team_members name id st st' thrown :
  join_team name id st = (st', thrown) ->
  forall k id',
    id' ∈ members k (teamMembers st')
    <-> id' ∈ members k (teamMembers st) \/ (id' = id /\ Js.normalize name = key_name k).
Proof.
  unfold join_team. intros H k id'.
  destruct (teamMembers_get (Js.normalize name)) as [k0| |] eqn:E; injection H as <- <-.
  - apply teamMembers_get_Own in E.
    change (teamMembers (join (Js.normalize name) id (add_member k0 id st)))
      with (teamMembers (add_member k0 id st)).
    rewrite elem_of_members_add_member, E. split.
    + intros [?|[-> ->]]; auto.
    + intros [?|[-> Hk]]; auto. apply key_name_inj in Hk. auto.
  - split; [auto|]. intros [?|[_ Hk]]; [done|].
    apply teamMembers_get_Own in Hk. congruence.
  - split; [auto|]. intros [?|[_ Hk]]; [done|].
    apply teamMembers_get_Own in Hk. congruence.
Qed.

Lemma join_team_rooms name id st st' thrown :
  join_team name id st = (st', thrown) ->
  forall r id',
    id' ∈ room_members r st'
    <-> id' ∈ room_members r st
        \/ (id' = id /\ exists k, r = key_name k /\ Js.normalize name = key_name k).
Proof.
  unfold join_team. intros H r id'.
  destruct (teamMembers_get (Js.normalize name)) as [k0| |] eqn:E; injection H as <- <-.
  - apply teamMembers_get_Own in E. rewrite room_members_join.
    change (room_members r (add_member k0 id st)) with (room_members r st).
    destruct (decide (Js.normalize name = r)) as [<-|Hne].
    + rewrite elem_of_union, elem_of_singleton. split.
      * intros [->|?]; eauto.
      * intros [?|[-> _]]; auto.
    + split; [auto|]. intros [?|[_ (k & -> & Hk)]]; [done|]. by destruct Hne.
  - split; [auto|]. intros [?|[_ (k & _ & Hk)]]; [done|].
    apply teamMembers_get_Own in Hk. congruence.
  - split; [auto|]. intros [?|[_ (k & _ & Hk)]]; [done|].
    apply teamMembers_get_Own in Hk. congruence.
Qed.

Lemma join_team_thrown name id st st' e :
  join_team name id st = (st', Some e) -> Js.is_inherited (Js.normalize name) = true.
Proof.
  unfold join_team, teamMembers_get.
  repeat (destruct (String.eqb _ _); [done|]).
  by destruct (Js.is_inherited _).
Qed.

Lemma addUserToTeams_spec id info st st' thrown :
  addUserToTeams id info st = (st', thrown) ->
  (forall t, team info = Some t -> Js.is_inherited (Js.normalize t) = false) ->
  (forall k id',
      id' ∈ members k (teamMembers st')
      <-> id' ∈ members k (teamMembers st) \/ (id' = id /\ derived info k))
  /\ (forall r id',
        id' ∈ room_members r st'
        <-> id' ∈ room_members r st
            \/ (id' = id /\ exists k, r = key_name k /\ derived info k)).
Proof.
  unfold addUserToTeams, derived. intros H Hteam.
  set (st1 := if is_privileged (role info)
              then join "dispatchers" id (add_member Dispatchers id st) else st) in H.
  assert (forall k id', id' ∈ members k (teamMembers st1)
            <-> id' ∈ members k (teamMembers st)
                \/ (id' = id /\ k = Dispatchers /\ is_privileged (role info) = true)) as M1.
  { intros k id'. subst st1. destruct (is_privileged (role info)).
    - change (teamMembers (join "dispatchers" id (add_member Dispatchers id st)))
        with (teamMembers (add_member Dispatchers id st)).
      rewrite elem_of_members_add_member. intuition congruence.
    - intuition congruence. }
  assert (forall r id', id' ∈ room_members r st1
            <-> id' ∈ room_members r st
                \/ (id' = id /\ r = "dispatchers"%string /\ is_privileged (role info) = true)) as R1.
  { intros r id'. subst st1. destruct (is_privileged (role info)).
    - rewrite room_members_join.
      change (room_members r (add_member Dispatchers id st)) with (room_members r st).
      destruct (decide ("dispatchers"%string = r)) as [<-|Hne].
      + rewrite elem_of_union, elem_of_singleton. intuition congruence.
      + intuition congruence.
    - intuition congruence. }
  clearbody st1.
  destruct (match team info with
            | Some t => if Js.truthy (Some t) then join_team t id st1 else (st1, None)
            | None => (st1, None)
            end) as [st2 thrown2] eqn:E2.
  assert (thrown2 = None
          /\ (forall k id', id' ∈ members k (teamMembers st2)
                <-> id' ∈ members k (teamMembers st1)
                    \/ (id' = id /\ exists t, team info = Some t /\ Js.normalize t = key_name k))
          /\ (forall r id', id' ∈ room_members r st2
                <-> id' ∈ room_members r st1
                    \/ (id' = id /\ exists k t, r = key_name k /\ team info = Some t
                                                /\ Js.normalize t = key_name k)))
    as (-> & M2 & R2).
  { destruct (team info) as [t|] eqn:Et.
    - destruct (Js.truthy (Some t)) eqn:Etr.
      + split; [|split].
        * destruct thrown2 as [e|]; [|done].
          apply join_team_thrown in E2. rewrite (Hteam t eq_refl) in E2. done.
        * intros k id'. rewrite (join_team_members _ _ _ _ _ E2). split.
          -- intros [?|[-> ?]]; eauto.
          -- intros [?|[-> (t' & [= <-] & ?)]]; eauto.
        * intros r id'. rewrite (join_team_rooms _ _ _ _ _ E2). split.
          -- intros [?|[-> (k & -> & ?)]]; eauto 8.
          -- intros [?|[-> (k & t' & -> & [= <-] & ?)]]; eauto 8.
      + injection E2 as <- <-. split; [done|]. split.
        * intros k id'. split; [auto|]. intros [?|[_ (t' & [= <-] & Hk)]]; [done|].
          apply key_name_truthy in Hk. congruence.
        * intros r id'. split; [auto|]. intros [?|[_ (k & t' & _ & [= <-] & Hk)]]; [done|].
          apply key_name_truthy in Hk. congruence.
    - injection E2 as <- <-. split; [done|]. split.
      + intros k id'. split; [auto|]. by intros [?|[_ (t' & [=] & _)]].
      + intros r id'. split; [auto|]. by intros [?|[_ (k & t' & _ & [=] & _)]]. }
  assert ((forall k id', id' ∈ members k (teamMembers st')
                <-> id' ∈ members k (teamMembers st2)
                    \/ (id' = id /\ exists t, teamType info = Some t /\ team info <> Some t
                                              /\ Js.normalize t = key_name k))
          /\ (forall r id', id' ∈ room_members r st'
                <-> id' ∈ room_members r st2
                    \/ (id' = id /\ exists k t, r = key_name k /\ teamType info = Some t
                                                /\ team info <> Some t
                                                /\ Js.normalize t = key_name k)))
    as (M3 & R3).
  { destruct (teamType info) as [ty|] eqn:Ety.
    - destruct (Js.truthy (Some ty)) eqn:Etr; simpl in H.
      + unfold same_string in H. case_bool_decide as Hsame; simpl in H.
        * injection H as <- <-. split.
          -- intros k id'. split; [auto|]. intros [?|[_ (t' & [= <-] & Hne & _)]]; [done|].
             by destruct Hne.
          -- intros r id'. split; [auto|].
             intros [?|[_ (k & t' & _ & [= <-] & Hne & _)]]; [done|]. by destruct Hne.
        * split.
          -- intros k id'. rewrite (join_team_members _ _ _ _ _ H). split.
             ++ intros [?|[-> ?]]; eauto 8.
             ++ intros [?|[-> (t' & [= <-] & _ & ?)]]; eauto.
          -- intros r id'. rewrite (join_team_rooms _ _ _ _ _ H). split.
             ++ intros [?|[-> (k & -> & ?)]]; eauto 10.
             ++ intros [?|[-> (k & t' & -> & [= <-] & _ & ?)]]; eauto 8.
      + injection H as <- <-. split.
        * intros k id'. split; [auto|]. intros [?|[_ (t' & [= <-] & _ & Hk)]]; [done|].
          apply key_name_truthy in Hk. congruence.
        * intros r id'. split; [auto|].
          intros [?|[_ (k & t' & _ & [= <-] & _ & Hk)]]; [done|].
          apply key_name_truthy in Hk. congruence.
    - injection H as <- <-. split.
      + intros k id'. split; [auto|]. by intros [?|[_ (t' & [=] & _)]].
      + intros r id'. split; [auto|]. by intros [?|[_ (k & t' & _ & [=] & _)]]. }
  split.
  - intros k id'. rewrite M3, M2, M1. split.
    + intros [[[?|(-> & ? & ?)]|[-> (t & ? & ?)]]|[-> (t & ? & _ & ?)]]; eauto 10.
    + intros [?|[-> [[? ?]|[(t & ? & ?)|(t & Hty & Hk)]]]]; eauto 10.
      destruct (decide (team info = Some t)); eauto 10.
  - intros r id'. rewrite R3, R2, R1. split.
    + intros [[[?|(-> & -> & ?)]|[-> (k & t & -> & ? & ?)]]|[-> (k & t & -> & ? & _ & ?)]];
        eauto 10.
      right. split; [done|]. exists Dispatchers. eauto.
    + intros [?|[-> (k & -> & [[-> ?]|[(t & ? & ?)|(t & Hty & Hk)]])]]; eauto 12.
      destruct (decide (team info = Some t)); eauto 12.
Qed.

(** ** [register] and the registration at connection time *)

Lemma derived_make_userInfo id uid now ud k :
  derived (make_userInfo id uid now ud) k <-> declared ud k.
Proof.
  unfold derived, declared, make_userInfo. simpl.
  assert (forall o : option string,
            (exists t, Js.normalize <$> o = Some t /\ Js.normalize t = key_name k)
            <-> Js.normalize <$> o = Some (key_name k)) as Hn.
  { intros [t0|]; simpl.
    - split.
      + intros (t & [= <-] & Hk). by rewrite JsFacts.normalize_idem in Hk; rewrite Hk.
      + intros [= Hk]. exists (Js.normalize t0). by rewrite JsFacts.normalize_idem.
    - split; [by intros (t & [=] & _) | done]. }
  by rewrite !Hn.
Qed.

Lemma plain_team_make_userInfo id uid now ud :
  plain_team (UserData.team ud) ->
  forall t, team (make_userInfo id uid now ud) = Some t -> Js.is_inherited (Js.normalize t) = false.
Proof.
  unfold plain_team, make_userInfo. simpl. intros H t.
  destruct (UserData.team ud) as [t0|]; simpl; [|done].
  intros [= <-]. rewrite JsFacts.normalize_idem. by apply H.
Qed.

Lemma register_spec id now ud st :
  plain_team (UserData.team ud) ->
  (forall k id',
      id' ∈ members k (teamMembers (register id now ud st).1)
      <-> (id' <> id /\ id' ∈ members k (teamMembers st)) \/ (id' = id /\ declared ud k))
  /\ (forall r id',
        id' ∈ room_members r (register id now ud st).1
        <-> id' ∈ room_members r st
            \/ (id' = id /\ exists k, r = key_name k /\ declared ud k)).
Proof.
  intros Hplain. unfold register.
  set (info := make_userInfo id (Js.or_else (UserData.userId ud) id) now ud).
  destruct (addUserToTeams id info (set_user id info (removeUserFromTeams id st)))
    as [st' thrown] eqn:E.
  destruct (addUserToTeams_spec _ _ _ _ _ E (plain_team_make_userInfo _ _ _ _ Hplain))
    as [M R].
  simpl. split.
  - intros k id'. rewrite M.
    change (teamMembers (set_user id info (removeUserFromTeams id st)))
      with (teamMembers (removeUserFromTeams id st)).
    rewrite removeUserFromTeams_members.
    unfold info. rewrite derived_make_userInfo. tauto.
  - intros r id'. rewrite R.
    change (room_members r (set_user id info (removeUserFromTeams id st)))
      with (default ∅ (rooms (removeUserFromTeams id st) !! r)).
    rewrite removeUserFromTeams_rooms. fold (room_members r st).
    unfold info. by setoid_rewrite derived_make_userInfo.
Qed.

Lemma connection_spec id now query st uid :
  UserData.userId query = Some uid ->
  Js.truthy (Some uid) = true ->
  Js.truthy (UserData.role query) = true ->
  plain_team (UserData.team query) ->
  (forall k id',
      id' ∈ members k (teamMembers (connection id now query st).1)
      <-> id' ∈ members k (teamMembers st) \/ (id' = id /\ declared query k))
  /\ (forall r id',
        id' ∈ room_members r (connection id now query st).1
        <-> id' ∈ room_members r st
            \/ (id' = id /\ exists k, r = key_name k /\ declared query k)).
Proof.
  intros Huid Htu Htr Hplain. unfold connection. rewrite Huid, Htu, Htr.
  cbn [andb].
  set (info := make_userInfo id uid now query).
  destruct (addUserToTeams id info (set_user id info st)) as [st' thrown] eqn:E.
  destruct (addUserToTeams_spec _ _ _ _ _ E (plain_team_make_userInfo _ _ _ _ Hplain))
    as [M R].
  simpl. split.
  - intros k id'. rewrite M. unfold info. by rewrite derived_make_userInfo.
  - intros r id'. rewrite R. unfold info. by setoid_rewrite derived_make_userInfo.
Qed.

(** A privileged role puts the connection among the dispatchers whatever
    else the identity says. *)
Lemma addUserToTeams_privileged id info st :
  is_privileged (role info) = true ->
  id ∈ dispatchers (teamMembers (addUserToTeams id info st).1).
Proof.
  intros Hp. unfold addUserToTeams. rewrite Hp.
  set (st1 := join "dispatchers" id (add_member Dispatchers id st)).
  assert (id ∈ members Dispatchers (teamMembers st1)) as H1.
  { subst st1. change (teamMembers (join "dispatchers" id (add_member Dispatchers id st)))
      with (teamMembers (add_member Dispatchers id st)).
    apply elem_of_members_add_member. auto. }
  clearbody st1.
  destruct (match team info with
            | Some t => if Js.truthy (Some t) then join_team t id st1 else (st1, None)
            | None => (st1, None)
            end) as [st2 thrown2] eqn:E2.
  assert (id ∈ members Dispatchers (teamMembers st2)) as H2.
  { destruct (team info) as [t|]; [destruct (Js.truthy (Some t))|].
    - apply (join_team_members _ _ _ _ _ E2). auto.
    - by injection E2 as <- <-.
    - by injection E2 as <- <-. }
  destruct thrown2 as [e|]; [done|].
  destruct (teamType info) as [ty|]; [|done].
  destruct (Js.truthy (Some ty) && negb (same_string (Some ty) (team info))); [|done].
  destruct (join_team ty id st2) as [st3 thrown3] eqn:E3.
  apply (join_team_members _ _ _ _ _ E3 Dispatchers). auto.
Qed.

(** No step of a registration takes a connection out of a room. *)
Lemma addUserToTeams_keeps_rooms id info st r id' :
  id' ∈ room_members r st -> id' ∈ room_members r (addUserToTeams id info st).1.
Proof.
  intros Hin. unfold addUserToTeams.
  set (st1 := if is_privileged (role info)
              then join "dispatchers" id (add_member Dispatchers id st) else st).
  assert (id' ∈ room_members r st1) as H1.
  { subst st1. destruct (is_privileged (role info)); [|done].
    rewrite room_members_join.
    change (room_members r (add_member Dispatchers id st)) with (room_members r st).
    destruct (decide ("dispatchers"%string = r)); [|done].
    apply elem_of_union. by right. }
  clearbody st1.
  destruct (match team info with
            | Some t => if Js.truthy (Some t) then join_team t id st1 else (st1, None)
            | None => (st1, None)
            end) as [st2 thrown2] eqn:E2.
  assert (id' ∈ room_members r st2) as H2.
  { destruct (team info) as [t|]; [destruct (Js.truthy (Some t))|].
    - apply (join_team_rooms _ _ _ _ _ E2). auto.
    - by injection E2 as <- <-.
    - by injection E2 as <- <-. }
  destruct thrown2 as [e|]; [done|].
  destruct (teamType info) as [ty|]; [|done].
  destruct (Js.truthy (Some ty) && negb (same_string (Some ty) (team info))); [|done].
  destruct (join_team ty id st2) as [st3 thrown3] eqn:E3.
  apply (join_team_rooms _ _ _ _ _ E3). auto.
Qed.

Lemma register_keeps_rooms id now ud st r id' :
  id' ∈ room_members r st -> id' ∈ room_members r (register id now ud st).1.
Proof.
  intros Hin. unfold register. apply addUserToTeams_keeps_rooms.
  unfold room_members, set_user. cbn [rooms]. by rewrite removeUserFromTeams_rooms.
Qed.

End SocketFacts.

(** * Properties of the user-keyed socket server *)

Module UserKeyedFacts.

Import UserKeyedServer.

Lemma user_room_members_join r r' id st :
  room_members r' (join r id st)
  = if decide (r = r') then {[id]} ∪ room_members r' st else room_members r' st.
Proof.
  unfold room_members at 1, join. simpl.
  destruct (decide (r = r')) as [->|Hne].
  - by rewrite lookup_insert_eq.
  - by rewrite lookup_insert_ne.
Qed.

Lemma elem_of_user_room_join r r' id id' st :
  id' ∈ room_members r' (join r id st)
  <-> id' ∈ room_members r' st \/ (id' = id /\ r' = r).
Proof.
  rewrite user_room_members_join. destruct (decide (r = r')) as [->|Hne].
  - rewrite elem_of_union, elem_of_singleton. tauto.
  - intuition congruence.
Qed.

Lemma register_admin_dispatchers id info st uid :
  uid ∈ dom (dispatchers (register_admin id info st))
  <-> uid ∈ dom (dispatchers st) \/ uid = userId info.
Proof.
  unfold register_admin. cbn [fold_left teamRooms].
  change (dispatchers _) with (<[userId info := info]> (dispatchers st)) at 1.
  rewrite dom_insert_L, elem_of_union, elem_of_singleton. tauto.
Qed.

Lemma register_admin_teams id info st : teams (register_admin id info st) = teams st.
Proof. done. Qed.

Lemma register_admin_rooms id info st r id' :
  id' ∈ room_members r (register_admin id info st)
  <-> id' ∈ room_members r st \/ (id' = id /\ In r ("dispatchers"%string :: teamRooms)).
Proof.
  unfold register_admin. cbn [fold_left teamRooms].
  rewrite !elem_of_user_room_join.
  change (room_members r {| dispatchers := <[userId info := info]> (dispatchers st);
                            teams := teams st; rooms := rooms st |})
    with (room_members r st).
  simpl. intuition congruence.
Qed.

Lemma register_team_spec id info t st st' thrown :
  register_team id info t st = (st', thrown) ->
  Js.is_inherited (Js.normalize t) = false ->
  dispatchers st' = dispatchers st
  /\ (forall G uid,
        uid ∈ dom (team_users G st')
        <-> uid ∈ dom (team_users G st) \/ (uid = userId info /\ Js.normalize t = G))
  /\ (forall r id',
        id' ∈ room_members r st'
        <-> id' ∈ room_members r st \/ (id' = id /\ Js.normalize t = r)).
Proof.
  unfold register_team. intros H Hplain.
  change (teams (join (Js.normalize t) id st)) with (teams st) in H.
  change (dispatchers (join (Js.normalize t) id st)) with (dispatchers st) in H.
  assert (forall st2, rooms st2 = rooms (join (Js.normalize t) id st) ->
            forall r id', id' ∈ room_members r st2
              <-> id' ∈ room_members r st \/ (id' = id /\ Js.normalize t = r)) as HR.
  { intros st2 Hr r id'. unfold room_members at 1. rewrite Hr.
    fold (room_members r (join (Js.normalize t) id st)).
    rewrite elem_of_user_room_join. intuition congruence. }
  assert (forall (users : gmap (option string) UserInfo) st2,
            teams st2 = <[Js.normalize t := <[userId info := info]> users]> (teams st) ->
            team_users (Js.normalize t) st = users ->
            forall G uid, uid ∈ dom (team_users G st2)
              <-> uid ∈ dom (team_users G st) \/ (uid = userId info /\ Js.normalize t = G)) as HT.
  { intros users st2 Ht Hu G uid. unfold team_users at 1. rewrite Ht.
    destruct (decide (Js.normalize t = G)) as [<-|Hne].
    - rewrite lookup_insert_eq. simpl.
      rewrite dom_insert_L, elem_of_union, elem_of_singleton, Hu. tauto.
    - rewrite lookup_insert_ne by done. fold (team_users G st). intuition congruence. }
  destruct (teams st !! Js.normalize t) as [users|] eqn:E.
  - injection H as <- <-. split; [done|]. split.
    + apply (HT users); [done|]. unfold team_users. by rewrite E.
    + by apply HR.
  - rewrite Hplain in H. injection H as <- <-. split; [done|]. split.
    + apply (HT ∅); [done|]. unfold team_users. by rewrite E.
    + by apply HR.
Qed.

(** What the handler of [register] adds: the tables and the rooms only
    grow, the dispatchers by the role [admin] alone, a team table by the
    normalized team whatever its name; the team type is not looked at. *)
Lemma user_register_spec id ud st :
  SocketServer.plain_team (UserData.team ud) ->
  (forall uid,
      uid ∈ dom (dispatchers (register id ud st).1)
      <-> uid ∈ dom (dispatchers st)
          \/ (uid = UserData.userId ud /\ UserData.role ud = Some "admin"%string))
  /\ (forall G uid,
        uid ∈ dom (team_users G (register id ud st).1)
        <-> uid ∈ dom (team_users G st)
            \/ (uid = UserData.userId ud
                /\ exists t, UserData.team ud = Some t /\ Js.truthy (Some t) = true
                             /\ Js.normalize t = G))
  /\ (forall r id',
        id' ∈ room_members r (register id ud st).1
        <-> id' ∈ room_members r st
            \/ (id' = id
                /\ (r = "all-teams"%string
                    \/ (UserData.role ud = Some "admin"%string
                        /\ In r ("dispatchers"%string :: teamRooms))
                    \/ exists t, UserData.team ud = Some t /\ Js.truthy (Some t) = true
                                 /\ Js.normalize t = r))).
Proof.
  intros Hplain. unfold register.
  set (info := {| socketId := id; userId := UserData.userId ud; role := UserData.role ud;
                  team := UserData.team ud; connected := true |}).
  set (st1 := join "all-teams" id st).
  set (st2 := if bool_decide (UserData.role ud = Some "admin"%string)
              then register_admin id info st1 else st1).
  assert (forall uid, uid ∈ dom (dispatchers st2)
            <-> uid ∈ dom (dispatchers st)
                \/ (uid = UserData.userId ud /\ UserData.role ud = Some "admin"%string)) as D2.
  { intros uid. subst st2. case_bool_decide as Hr.
    - rewrite register_admin_dispatchers. simpl. tauto.
    - simpl. tauto. }
  assert (teams st2 = teams st) as T2.
  { subst st2. by case_bool_decide. }
  assert (forall r id', id' ∈ room_members r st2
            <-> id' ∈ room_members r st
                \/ (id' = id
                    /\ (r = "all-teams"%string
                        \/ (UserData.role ud = Some "admin"%string
                            /\ In r ("dispatchers"%string :: teamRooms))))) as R2.
  { intros r id'. subst st2 st1. case_bool_decide as Hr.
    - rewrite register_admin_rooms, elem_of_user_room_join. tauto.
    - rewrite elem_of_user_room_join. tauto. }
  assert (forall G, team_users G st2 = team_users G st) as TU2.
  { intros G. unfold team_users. by rewrite T2. }
  clearbody st2.
  destruct (UserData.team ud) as [t|] eqn:Et.
  - destruct (Js.truthy (Some t)) eqn:Etr.
    + destruct (register_team id info t st2) as [st' thrown] eqn:E.
      destruct (register_team_spec _ _ _ _ _ _ E (Hplain t eq_refl)) as (D3 & T3 & R3).
      cbn [fst]. split; [|split].
      * intros uid. rewrite D3. apply D2.
      * intros G uid. rewrite T3, TU2. cbn [userId info]. split.
        -- intros [?|[-> <-]]; eauto 8.
        -- intros [?|[-> (t' & [= <-] & _ & <-)]]; eauto.
      * intros r id'. rewrite R3, R2. split.
        -- intros [[?|[-> [?|?]]]|[-> <-]]; eauto 10.
        -- intros [?|[-> [?|[?|(t' & [= <-] & _ & <-)]]]]; eauto 10.
    + cbn [fst]. split; [|split].
      * apply D2.
      * intros G uid. rewrite TU2. split; [auto|].
        intros [?|[_ (t' & [= <-] & Htr & _)]]; [done | congruence].
      * intros r id'. rewrite R2. split.
        -- intros [?|[-> [?|?]]]; eauto 10.
        -- intros [?|[-> [?|[?|(t' & [= <-] & Htr & _)]]]]; eauto 10. congruence.
  - cbn [fst]. split; [|split].
    + apply D2.
    + intros G uid. rewrite TU2. split; [auto|]. by intros [?|[_ (t' & [=] & _)]].
    + intros r id'. rewrite R2. split.
      * intros [?|[-> [?|?]]]; eauto 10.
      * intros [?|[-> [?|[?|(t' & [=] & _)]]]]; eauto 10.
Qed.

End UserKeyedFacts.

(** * Group membership after a registration *)

Module RegistryClaims.

Lemma plain_team_of_key k t :
  Js.normalize t = SocketServer.key_name k -> SocketServer.plain_team (Some t).
Proof.
  intros Hk t' [= <-]. rewrite Hk. apply SocketFacts.key_name_not_inherited.
Qed.

(** C4, as the code has it. In the connection-keyed server, after
    [register] with a team that names no inherited property, the
    connection is in a set of [teamMembers] exactly when the identity
    declares it: the dispatchers by the role admin or dispatcher, and any
    of the five sets (dispatchers, glass, cap, box, pump) by a team or a
    team type that normalizes to its name. The same holds after a
    registration at connection time of a connection that was in no set,
    and the rooms of a connection that had joined none are those sets.
    The role admin always gives the dispatchers, and the team ["Glass "]
    gives glass. In the user-keyed server the tables only grow: the user
    enters the dispatchers by the role admin alone, and the team table of
    whatever name the team normalizes to; the team type is not used. *)
Theorem C4_membership_follows_the_declared_identity :
  (forall id now ud st,
      SocketServer.plain_team (SocketServer.UserData.team ud) ->
      forall k,
        id ∈ SocketServer.members k
               (SocketServer.teamMembers (SocketServer.register id now ud st).1)
        <-> SocketServer.declared ud k)
  /\ (forall id now query st uid,
        SocketServer.UserData.userId query = Some uid ->
        Js.truthy (Some uid) = true ->
        Js.truthy (SocketServer.UserData.role query) = true ->
        SocketServer.plain_team (SocketServer.UserData.team query) ->
        (forall k, id ∉ SocketServer.members k (SocketServer.teamMembers st)) ->
        forall k,
          id ∈ SocketServer.members k
                 (SocketServer.teamMembers (SocketServer.connection id now query st).1)
          <-> SocketServer.declared query k)
  /\ (forall id now ud st,
        SocketServer.plain_team (SocketServer.UserData.team ud) ->
        (forall r, id ∉ SocketServer.room_members r st) ->
        forall r,
          id ∈ SocketServer.room_members r (SocketServer.register id now ud st).1
          <-> exists k, r = SocketServer.key_name k /\ SocketServer.declared ud k)
  /\ (forall id now ud st,
        SocketServer.UserData.role ud = Some "admin"%string ->
        id ∈ SocketServer.dispatchers
               (SocketServer.teamMembers (SocketServer.register id now ud st).1))
  /\ (forall id now ud st,
        SocketServer.UserData.team ud = Some "Glass "%string ->
        id ∈ SocketServer.glass
               (SocketServer.teamMembers (SocketServer.register id now ud st).1))
  /\ (forall id ud st,
        SocketServer.plain_team (UserKeyedServer.UserData.team ud) ->
        (forall uid,
            uid ∈ dom (UserKeyedServer.dispatchers (UserKeyedServer.register id ud st).1)
            <-> uid ∈ dom (UserKeyedServer.dispatchers st)
                \/ (uid = UserKeyedServer.UserData.userId ud
                    /\ UserKeyedServer.UserData.role ud = Some "admin"%string))
        /\ (forall G uid,
              uid ∈ dom (UserKeyedServer.team_users G (UserKeyedServer.register id ud st).1)
              <-> uid ∈ dom (UserKeyedServer.team_users G st)
                  \/ (uid = UserKeyedServer.UserData.userId ud
                      /\ exists t, UserKeyedServer.UserData.team ud = Some t
                                   /\ Js.truthy (Some t) = true
                                   /\ Js.normalize t = G))).
Proof.
  split; [|split; [|split; [|split; [|split]]]].
  - intros id now ud st Hplain k.
    destruct (SocketFacts.register_spec id now ud st Hplain) as [M _].
    rewrite M. intuition congruence.
  - intros id now query st uid Huid Htu Htr Hplain Hfresh k.
    destruct (SocketFacts.connection_spec id now query st uid Huid Htu Htr Hplain) as [M _].
    rewrite M. specialize (Hfresh k). intuition congruence.
  - intros id now ud st Hplain Hfresh r.
    destruct (SocketFacts.register_spec id now ud st Hplain) as [_ R].
    rewrite R. specialize (Hfresh r). intuition congruence.
  - intros id now ud st Hrole. unfold SocketServer.register.
    apply SocketFacts.addUserToTeams_privileged.
    unfold SocketServer.make_userInfo. simpl. by rewrite Hrole.
  - intros id now ud st Hteam.
    assert (SocketServer.plain_team (SocketServer.UserData.team ud)) as Hplain.
    { rewrite Hteam. by apply (plain_team_of_key SocketServer.Glass). }
    destruct (SocketFacts.register_spec id now ud st Hplain) as [M _].
    apply (M SocketServer.Glass). right. split; [done|].
    right. left. by rewrite Hteam.
  - intros id ud st Hplain.
    destruct (UserKeyedFacts.user_register_spec id ud st Hplain) as (D & T & _).
    split; [exact D | exact T].
Qed.

Lemma C4_witness :
  ("s1"%string ∈ SocketServer.members SocketServer.Glass
      (SocketServer.teamMembers
         (SocketServer.register "s1" "t0" (SocketSamples.worker "Glass ")
            SocketServer.initial).1)
   <-> SocketServer.declared (SocketSamples.worker "Glass ") SocketServer.Glass)
  /\ ("s0"%string ∈ SocketServer.members SocketServer.Dispatchers
        (SocketServer.teamMembers
           (SocketServer.connection "s0" "t0" SocketSamples.admin SocketServer.initial).1)
     <-> SocketServer.declared SocketSamples.admin SocketServer.Dispatchers)
  /\ ("s1"%string ∈ SocketServer.room_members "glass"
        (SocketServer.register "s1" "t0" (SocketSamples.worker "Glass ")
           SocketServer.initial).1
     <-> exists k, "glass"%string = SocketServer.key_name k
                   /\ SocketServer.declared (SocketSamples.worker "Glass ") k)
  /\ (Some "u1"%string
        ∈ dom (UserKeyedServer.team_users "packing"
                 (UserKeyedServer.register "s1" (SocketSamples.keyed_user "dispatcher" " Packing")
                    UserKeyedServer.initial).1)
     <-> Some "u1"%string ∈ dom (UserKeyedServer.team_users "packing" UserKeyedServer.initial)
         \/ (Some "u1"%string
              = UserKeyedServer.UserData.userId (SocketSamples.keyed_user "dispatcher" " Packing")
              /\ exists t,
                   UserKeyedServer.UserData.team (SocketSamples.keyed_user "dispatcher" " Packing")
                   = Some t
                   /\ Js.truthy (Some t) = true /\ Js.normalize t = "packing"%string)).
Proof.
  destruct C4_membership_follows_the_declared_identity
    as (Hregister & Hconnect & Hrooms & _ & _ & Hkeyed).
  assert (SocketServer.plain_team (Some "Glass "%string)) as Hglass
    by (by apply (plain_team_of_key SocketServer.Glass)).
  split; [|split; [|split]].
  - apply Hregister. exact Hglass.
  - apply (Hconnect "s0"%string "t0"%string SocketSamples.admin SocketServer.initial
             "u0"%string); try reflexivity.
    + intros t [=].
    + intros k. destruct k; apply not_elem_of_empty.
  - apply Hrooms; [exact Hglass|]. intros r. apply not_elem_of_empty.
  - apply (Hkeyed "s1"%string (SocketSamples.keyed_user "dispatcher" " Packing")
             UserKeyedServer.initial).
    intros t [= <-]. reflexivity.
Defined.

(** A connection that declares the role worker and the team dispatchers
    is put among the dispatchers: membership there is not equivalent to
    the role being admin or dispatcher. *)
Lemma C4_counterexample :
  ~ ("s1"%string ∈ SocketServer.dispatchers
        (SocketServer.teamMembers
           (SocketServer.register "s1" "t0" (SocketSamples.worker "dispatchers")
              SocketServer.initial).1)
     <-> (SocketServer.UserData.role (SocketSamples.worker "dispatchers") = Some "admin"%string
          \/ SocketServer.UserData.role (SocketSamples.worker "dispatchers")
             = Some "dispatcher"%string)).
Proof.
  intros [H _].
  assert ("s1"%string ∈ SocketServer.dispatchers
            (SocketServer.teamMembers
               (SocketServer.register "s1" "t0" (SocketSamples.worker "dispatchers")
                  SocketServer.initial).1)) as Hin.
  { apply (bool_decide_unpack _). vm_compute. exact I. }
  destruct (H Hin) as [Hr|Hr]; discriminate Hr.
Qed.

(** ** C5 *)

(** The table of a connection that registers again is rebuilt from the
    new identity alone. *)
Lemma register_rebuilds_the_table id now ud st k :
  SocketServer.plain_team (SocketServer.UserData.team ud) ->
  id ∈ SocketServer.members k (SocketServer.teamMembers (SocketServer.register id now ud st).1)
  <-> SocketServer.declared ud k.
Proof.
  intros Hplain.
  destruct (SocketFacts.register_spec id now ud st Hplain) as [M _].
  rewrite M. intuition congruence.
Qed.

(** C5, where the code departs from it. [register] rebuilds the sets of
    [teamMembers] from the new identity, but whatever that identity is,
    it leaves the connection in every room it had joined. At the failing
    input, a connection registers for the team glass and then for the
    team cap: afterwards it is out of the glass set and in the cap set,
    but it is still in the room glass, and the [new-order] event of a
    glass-only order, which is emitted to that room, is delivered to
    it. *)
Theorem C5_reregistration_leaves_the_old_room :
  (forall id now ud st k,
      SocketServer.plain_team (SocketServer.UserData.team ud) ->
      id ∈ SocketServer.members k
             (SocketServer.teamMembers (SocketServer.register id now ud st).1)
      <-> SocketServer.declared ud k)
  /\ (forall id now ud st r,
        id ∈ SocketServer.room_members r st ->
        id ∈ SocketServer.room_members r (SocketServer.register id now ud st).1)
  /\ (let st1 := (SocketServer.register "s1" "t0" (SocketSamples.worker "glass")
                    SocketServer.initial).1 in
      let st2 := (SocketServer.register "s1" "t1" (SocketSamples.worker "cap") st1).1 in
      ("s1"%string ∉ SocketServer.glass (SocketServer.teamMembers st2))
      /\ ("s1"%string ∈ SocketServer.cap (SocketServer.teamMembers st2))
      /\ ("s1"%string ∈ SocketServer.room_members "glass" st2)
      /\ exists e,
           In e (SocketServer.create_order "s0" "t2"
                   (SocketSamples.event_for SocketSamples.glass_only) st2)
           /\ SocketServer.to e = SocketServer.Room "glass"
           /\ SocketServer.event e = "new-order"%string
           /\ "s1"%string ∈ SocketServer.recipients st2 e).
Proof.
  split; [|split].
  - intros id now ud st k Hplain. by apply register_rebuilds_the_table.
  - intros id now ud st r. apply SocketFacts.register_keeps_rooms.
  - intros st1 st2.
    assert ("s1"%string ∈ SocketServer.room_members "glass" st2) as Hroom.
    { apply SocketFacts.register_keeps_rooms.
      apply (bool_decide_unpack _). vm_compute. exact I. }
    split; [|split; [|split]].
    + apply (bool_decide_unpack _). vm_compute. exact I.
    + apply (bool_decide_unpack _). vm_compute. exact I.
    + exact Hroom.
    + eexists. split; [left; reflexivity|]. split; [reflexivity|]. split; [reflexivity|].
      exact Hroom.
Qed.

End RegistryClaims.

(** * The broadcast router *)

Module RouterClaims.

Import SocketServer.

Lemma teams_of_details_spec details g :
  In g (teams_of_details details)
  <-> exists d, details = Some d
      /\ ((g = "glass"%string /\ non_empty (Payload.glass d) = true)
          \/ (g = "cap"%string /\ non_empty (Payload.caps d) = true)
          \/ (g = "box"%string /\ non_empty (Payload.boxes d) = true)
          \/ (g = "pump"%string /\ non_empty (Payload.pumps d) = true)).
Proof.
  unfold teams_of_details. destruct details as [d|].
  - rewrite !in_app_iff. split.
    + intros H. exists d. split; [done|].
      destruct (non_empty (Payload.glass d)), (non_empty (Payload.caps d)),
        (non_empty (Payload.boxes d)), (non_empty (Payload.pumps d));
        simpl in H; intuition.
    + intros (d' & [= <-] & H).
      destruct H as [[-> ->]|[[-> ->]|[[-> ->]|[-> ->]]]]; simpl; tauto.
  - split; [done | by intros (d & [=] & _)].
Qed.

Lemma teams_of_details_NoDup details : NoDup (teams_of_details details).
Proof.
  unfold teams_of_details. destruct details as [d|]; [|constructor].
  destruct (non_empty (Payload.glass d)), (non_empty (Payload.caps d)),
    (non_empty (Payload.boxes d)), (non_empty (Payload.pumps d));
    apply (bool_decide_unpack _); vm_compute; exact I.
Qed.

Lemma teams_of_details_normalized details :
  map Js.normalize (teams_of_details details) = teams_of_details details.
Proof.
  unfold teams_of_details. destruct details as [d|]; [|done].
  by destruct (non_empty (Payload.glass d)), (non_empty (Payload.caps d)),
    (non_empty (Payload.boxes d)), (non_empty (Payload.pumps d)).
Qed.

Lemma explicit_or_derived_none d o :
  no_explicit_groups d ->
  explicit_or_derived (Payload.teamTypes d) o = teams_of_details (Payload.order_details o).
Proof. by intros [-> | ->]. Qed.

Lemma map_to_order_emit ev o m teams : map to (map (order_emit ev o m) teams) = map Room teams.
Proof. by rewrite map_map. Qed.

(** The shape of what [create-order] emits for an order that is there. *)
Lemma create_order_emits id now d st o :
  Payload.order d = Some o ->
  let teams := map Js.normalize (create_targetTeams (Payload.teamTypes d) o) in
  let m := {| meta_by := connectedUsers st !! id;
              meta_timestamp := Js.or_else (Payload.timestamp d) now;
              meta_targetTeams := teams |} in
  create_order id now d st
  = map (order_emit "new-order" o m) teams
    ++ [ order_emit "new-order" o m "dispatchers";
         {| to := Socket id; event := "order-create-confirmed";
            data := CreateConfirmed (Payload._id o) (Payload.order_number o)
                      "delivered" teams now |} ].
Proof. intros Ho. unfold create_order. by rewrite Ho. Qed.

(** The shape of what [delete-order] emits for an identified order. *)
Lemma delete_order_emits id now d st o :
  Payload.order d = Some o ->
  Js.truthy (Payload._id o) = true ->
  let teams := explicit_or_derived (Payload.teamTypes d) o in
  let m := {| meta_by := connectedUsers st !! id;
              meta_timestamp := Js.or_else (Payload.timestamp d) now;
              meta_targetTeams := teams |} in
  delete_order id now d st
  = map (order_emit "order-deleted" o m) (map Js.normalize teams)
    ++ [ order_emit "order-deleted" o m "dispatchers";
         {| to := Socket id; event := "order-delete-confirmed";
            data := DeleteConfirmed (Payload._id o) (Payload.order_number o)
                      "deleted" now |} ].
Proof. intros Ho Hid. unfold delete_order. by rewrite Ho, Hid, map_map. Qed.

Lemma sent_to_socket_rooms id ev o m teams :
  sent_to_socket id (map (order_emit ev o m) teams) = [].
Proof.
  unfold sent_to_socket. induction teams as [|t teams IH]; [done|].
  simpl. by rewrite filter_cons_False.
Qed.

Lemma sent_to_socket_app id l1 l2 :
  sent_to_socket id (l1 ++ l2) = sent_to_socket id l1 ++ sent_to_socket id l2.
Proof. apply filter_app. Qed.

Lemma sent_to_socket_tail id e1 e2 :
  to e1 <> Socket id -> to e2 = Socket id -> sent_to_socket id [e1; e2] = [e2].
Proof.
  intros H1 H2. unfold sent_to_socket.
  rewrite filter_cons_False by done. by rewrite filter_cons_True.
Qed.

(** ** C6 *)

(** C6, as the code has it. Without explicit groups, the groups derived
    from an order are those of its non-empty sections, named glass, cap,
    box and pump, each once; an order with only a non-empty caps section
    gives the single group cap. [create-order] addresses exactly these
    rooms, or the room unassigned when there are none, and then the
    dispatchers and the sender. [delete-order] addresses exactly these
    rooms and then the dispatchers and the sender; it has no fallback,
    so an order with no items is announced to the dispatchers only. *)
Theorem C6_target_groups_without_explicit_groups :
  (forall details g,
      In g (teams_of_details details)
      <-> exists d, details = Some d
          /\ ((g = "glass"%string /\ non_empty (Payload.glass d) = true)
              \/ (g = "cap"%string /\ non_empty (Payload.caps d) = true)
              \/ (g = "box"%string /\ non_empty (Payload.boxes d) = true)
              \/ (g = "pump"%string /\ non_empty (Payload.pumps d) = true)))
  /\ (forall details, NoDup (teams_of_details details))
  /\ (forall d items,
        non_empty (Payload.glass d) = false ->
        Payload.caps d = Some items -> items <> [] ->
        non_empty (Payload.boxes d) = false ->
        non_empty (Payload.pumps d) = false ->
        teams_of_details (Some d) = ["cap"%string])
  /\ (forall id now d st o,
        Payload.order d = Some o ->
        no_explicit_groups d ->
        let derived_teams := teams_of_details (Payload.order_details o) in
        let resolved := match derived_teams with
                        | [] => ["unassigned"%string]
                        | _ => derived_teams
                        end in
        map to (create_order id now d st)
        = map Room resolved ++ [Room "dispatchers"; Socket id]
        /\ In {| to := Socket id; event := "order-create-confirmed";
                 data := CreateConfirmed (Payload._id o) (Payload.order_number o)
                           "delivered" resolved now |}
             (create_order id now d st))
  /\ (forall id now d st o,
        Payload.order d = Some o ->
        Js.truthy (Payload._id o) = true ->
        no_explicit_groups d ->
        map to (delete_order id now d st)
        = map Room (teams_of_details (Payload.order_details o))
          ++ [Room "dispatchers"; Socket id]).
Proof.
  split; [exact teams_of_details_spec|]. split; [exact teams_of_details_NoDup|].
  split; [|split].
  - intros d items Hg Hc Hne Hb Hp. unfold teams_of_details.
    rewrite Hg, Hb, Hp, Hc. by destruct items.
  - intros id now d st o Ho Hnone derived_teams resolved.
    rewrite (create_order_emits _ _ _ _ _ Ho). cbn zeta.
    assert (map Js.normalize (create_targetTeams (Payload.teamTypes d) o) = resolved) as ->.
    { unfold create_targetTeams. rewrite (explicit_or_derived_none _ _ Hnone).
      subst resolved derived_teams.
      destruct (teams_of_details (Payload.order_details o)) eqn:E; [done|].
      rewrite <- E. apply teams_of_details_normalized. }
    split.
    + by rewrite map_app, map_to_order_emit.
    + apply in_app_iff. right. simpl. tauto.
  - intros id now d st o Ho Hid Hnone.
    rewrite (delete_order_emits _ _ _ _ _ Ho Hid). cbn zeta.
    rewrite (explicit_or_derived_none _ _ Hnone), teams_of_details_normalized.
    by rewrite map_app, map_to_order_emit.
Qed.

Lemma C6_witness :
  teams_of_details (Payload.order_details SocketSamples.caps_only) = ["cap"%string]
  /\ map to (create_order "s0" "t2" (SocketSamples.event_for SocketSamples.caps_only) initial)
     = [Room "cap"; Room "dispatchers"; Socket "s0"]
  /\ map to (create_order "s0" "t2" (SocketSamples.event_for SocketSamples.empty_order) initial)
     = [Room "unassigned"; Room "dispatchers"; Socket "s0"]
  /\ map to (delete_order "s0" "t2" (SocketSamples.event_for SocketSamples.glass_only) initial)
     = [Room "glass"; Room "dispatchers"; Socket "s0"].
Proof.
  destruct C6_target_groups_without_explicit_groups as (_ & _ & Hcaps & Hcreate & Hdelete).
  split; [|split; [|split]].
  - apply (Hcaps _ SocketSamples.one_item); done.
  - apply (Hcreate "s0"%string "t2"%string (SocketSamples.event_for SocketSamples.caps_only)
             initial SocketSamples.caps_only); [reflexivity | by left].
  - apply (Hcreate "s0"%string "t2"%string (SocketSamples.event_for SocketSamples.empty_order)
             initial SocketSamples.empty_order); [reflexivity | by left].
  - apply (Hdelete "s0"%string "t2"%string (SocketSamples.event_for SocketSamples.glass_only)
             initial SocketSamples.glass_only); [reflexivity | reflexivity | by left].
Defined.

(** [delete-order] for an order without items and without explicit
    groups resolves to no group at all: nothing is addressed to the room
    unassigned, and the target teams it reports are empty. *)
Lemma C6_counterexample :
  delete_order "s0" "t2" (SocketSamples.event_for SocketSamples.empty_order) initial
  = [ order_emit "order-deleted" SocketSamples.empty_order
        {| meta_by := None; meta_timestamp := "t2"; meta_targetTeams := [] |} "dispatchers";
      {| to := Socket "s0"; event := "order-delete-confirmed";
         data := DeleteConfirmed (Some "o3"%string) (Some "N3"%string) "deleted" "t2" |} ]
  /\ ~ In (Room "unassigned")
         (map to (delete_order "s0" "t2" (SocketSamples.event_for SocketSamples.empty_order)
                    initial)).
Proof.
  split; [reflexivity|]. simpl. intros [H|[H|[]]]; discriminate H.
Qed.

(** ** C7 *)

(** C7. For an order that is there (and, on deletion, identified), the
    handlers of [create-order] and [delete-order] emit the event to the
    room of each target team and then, in an emission of its own, to the
    room dispatchers: every member of that room is among the recipients,
    whether or not the target teams name it. *)
Theorem C7_dispatchers_always_receive :
  (forall id now d st o,
      Payload.order d = Some o ->
      exists m,
        create_order id now d st
        = map (order_emit "new-order" o m)
            (map Js.normalize (create_targetTeams (Payload.teamTypes d) o))
          ++ [ order_emit "new-order" o m "dispatchers";
               {| to := Socket id; event := "order-create-confirmed";
                  data := CreateConfirmed (Payload._id o) (Payload.order_number o) "delivered"
                            (map Js.normalize (create_targetTeams (Payload.teamTypes d) o))
                            now |} ]
        /\ forall member, member ∈ room_members "dispatchers" st ->
             member ∈ recipients st (order_emit "new-order" o m "dispatchers"))
  /\ (forall id now d st o,
        Payload.order d = Some o ->
        Js.truthy (Payload._id o) = true ->
        exists m,
          delete_order id now d st
          = map (order_emit "order-deleted" o m)
              (map Js.normalize (explicit_or_derived (Payload.teamTypes d) o))
            ++ [ order_emit "order-deleted" o m "dispatchers";
                 {| to := Socket id; event := "order-delete-confirmed";
                    data := DeleteConfirmed (Payload._id o) (Payload.order_number o)
                              "deleted" now |} ]
          /\ forall member, member ∈ room_members "dispatchers" st ->
               member ∈ recipients st (order_emit "order-deleted" o m "dispatchers")).
Proof.
  split.
  - intros id now d st o Ho. eexists. split.
    + apply (create_order_emits _ _ _ _ _ Ho).
    + done.
  - intros id now d st o Ho Hid. eexists. split.
    + apply (delete_order_emits _ _ _ _ _ Ho Hid).
    + done.
Qed.

Lemma C7_witness :
  (exists m,
      create_order "s0" "t2" (SocketSamples.event_for SocketSamples.glass_only) initial
      = map (order_emit "new-order" SocketSamples.glass_only m)
          (map Js.normalize
             (create_targetTeams
                (Payload.teamTypes (SocketSamples.event_for SocketSamples.glass_only))
                SocketSamples.glass_only))
        ++ [ order_emit "new-order" SocketSamples.glass_only m "dispatchers";
             {| to := Socket "s0"; event := "order-create-confirmed";
                data := CreateConfirmed (Payload._id SocketSamples.glass_only)
                          (Payload.order_number SocketSamples.glass_only) "delivered"
                          (map Js.normalize
                             (create_targetTeams
                                (Payload.teamTypes
                                   (SocketSamples.event_for SocketSamples.glass_only))
                                SocketSamples.glass_only))
                          "t2" |} ]
      /\ forall member, member ∈ room_members "dispatchers" initial ->
           member ∈ recipients initial
                      (order_emit "new-order" SocketSamples.glass_only m "dispatchers"))
  /\ (exists m,
        delete_order "s0" "t2" (SocketSamples.event_for SocketSamples.glass_only) initial
        = map (order_emit "order-deleted" SocketSamples.glass_only m)
            (map Js.normalize
               (explicit_or_derived
                  (Payload.teamTypes (SocketSamples.event_for SocketSamples.glass_only))
                  SocketSamples.glass_only))
          ++ [ order_emit "order-deleted" SocketSamples.glass_only m "dispatchers";
               {| to := Socket "s0"; event := "order-delete-confirmed";
                  data := DeleteConfirmed (Payload._id SocketSamples.glass_only)
                            (Payload.order_number SocketSamples.glass_only) "deleted" "t2" |} ]
        /\ forall member, member ∈ room_members "dispatchers" initial ->
             member ∈ recipients initial
                        (order_emit "order-deleted" SocketSamples.glass_only m "dispatchers")).
Proof.
  destruct C7_dispatchers_always_receive as (Hcreate & Hdelete).
  split.
  - apply (Hcreate "s0"%string "t2"%string
             (SocketSamples.event_for SocketSamples.glass_only) initial SocketSamples.glass_only).
    reflexivity.
  - apply (Hdelete "s0"%string "t2"%string
             (SocketSamples.event_for SocketSamples.glass_only) initial SocketSamples.glass_only);
      reflexivity.
Defined.

(** ** C8 *)

(** C8. [create-order] without an order emits the error event to the
    sender and nothing else; with an order, the one emission addressed to
    the sender is the confirmation. [delete-order] without an order, or
    with an order that has no identifier, emits the error event to the
    sender and nothing else; otherwise the one emission addressed to the
    sender is the confirmation. *)
Theorem C8_sender_gets_one_confirmation_or_error :
  (forall id now d st,
      Payload.order d = None ->
      create_order id now d st
      = [ {| to := Socket id; event := "order-create-error";
             data := ErrorMessage "Invalid order data" |} ])
  /\ (forall id now d st o,
        Payload.order d = Some o ->
        sent_to_socket id (create_order id now d st)
        = [ {| to := Socket id; event := "order-create-confirmed";
               data := CreateConfirmed (Payload._id o) (Payload.order_number o) "delivered"
                         (map Js.normalize (create_targetTeams (Payload.teamTypes d) o))
                         now |} ])
  /\ (forall id now d st,
        (Payload.order d = None
         \/ exists o, Payload.order d = Some o /\ Js.truthy (Payload._id o) = false) ->
        delete_order id now d st
        = [ {| to := Socket id; event := "order-delete-error";
               data := ErrorMessage "Invalid order data" |} ])
  /\ (forall id now d st o,
        Payload.order d = Some o ->
        Js.truthy (Payload._id o) = true ->
        sent_to_socket id (delete_order id now d st)
        = [ {| to := Socket id; event := "order-delete-confirmed";
               data := DeleteConfirmed (Payload._id o) (Payload.order_number o)
                         "deleted" now |} ]).
Proof.
  split; [|split; [|split]].
  - intros id now d st Ho. unfold create_order. by rewrite Ho.
  - intros id now d st o Ho. rewrite (create_order_emits _ _ _ _ _ Ho). cbn zeta.
    rewrite sent_to_socket_app, sent_to_socket_rooms. simpl.
    by apply sent_to_socket_tail.
  - intros id now d st [Ho|(o & Ho & Hid)]; unfold delete_order.
    + by rewrite Ho.
    + by rewrite Ho, Hid.
  - intros id now d st o Ho Hid. rewrite (delete_order_emits _ _ _ _ _ Ho Hid). cbn zeta.
    rewrite sent_to_socket_app, sent_to_socket_rooms. simpl.
    by apply sent_to_socket_tail.
Qed.

Lemma C8_witness :
  create_order "s0" "t2"
    {| Payload.order := None; Payload.teamTypes := None; Payload.timestamp := None |} initial
  = [ {| to := Socket "s0"; event := "order-create-error";
         data := ErrorMessage "Invalid order data" |} ]
  /\ sent_to_socket "s0"
       (create_order "s0" "t2" (SocketSamples.event_for SocketSamples.glass_only) initial)
     = [ {| to := Socket "s0"; event := "order-create-confirmed";
            data := CreateConfirmed (Some "o1"%string) (Some "N1"%string) "delivered"
                      ["glass"%string] "t2" |} ]
  /\ delete_order "s0" "t2"
       (SocketSamples.event_for
          {| Payload._id := None; Payload.order_number := Some "N1"%string;
             Payload.order_details := None |}) initial
     = [ {| to := Socket "s0"; event := "order-delete-error";
            data := ErrorMessage "Invalid order data" |} ]
  /\ sent_to_socket "s0"
       (delete_order "s0" "t2" (SocketSamples.event_for SocketSamples.glass_only) initial)
     = [ {| to := Socket "s0"; event := "order-delete-confirmed";
            data := DeleteConfirmed (Some "o1"%string) (Some "N1"%string) "deleted" "t2" |} ].
Proof.
  destruct C8_sender_gets_one_confirmation_or_error as (Hce & Hcc & Hde & Hdc).
  split; [|split; [|split]].
  - apply Hce. reflexivity.
  - apply (Hcc "s0"%string "t2"%string (SocketSamples.event_for SocketSamples.glass_only)
             initial SocketSamples.glass_only). reflexivity.
  - apply Hde. right. eexists. split; reflexivity.
  - apply (Hdc "s0"%string "t2"%string (SocketSamples.event_for SocketSamples.glass_only)
             initial SocketSamples.glass_only); reflexivity.
Defined.

End RouterClaims.

(** * Further properties of the order controller *)

Module ControllerExtras.

Import Controller OrderRoutes.
Local Open Scope Z_scope.

(** ** Consistent tracking records *)

Lemma sum_entries_app l1 l2 : sum_entries (l1 ++ l2) = sum_entries l1 + sum_entries l2.
Proof. induction l1 as [|e l1 IH]; simpl; lia. Qed.

Lemma record_entry_well_tracked now u item :
  well_tracked item ->
  Update.qty_completed u <= maxAllowedQty item ->
  well_tracked (record_entry now u item).
Proof.
  unfold well_tracked, record_entry, maxAllowedQty, completed_so_far.
  destruct (team_tracking item) as [t|]; simpl.
  - intros (Hsum & Hle & Hst) Hq. rewrite sum_entries_app. simpl. repeat split; lia.
  - intros _ Hq. repeat split; lia.
Qed.

Lemma mutate_found_Forall (P : Item -> Prop) id f items found :
  find_item id items = Some found ->
  Forall P items ->
  P (f found) ->
  Forall P (mutate_found id f items).
Proof.
  unfold find_item. induction items as [|item rest IH]; simpl; [done|].
  intros Hf Hall Hp. inversion Hall as [|? ? Hitem Hrest]; subst.
  destruct (String.eqb (_id item) id).
  - injection Hf as ->. by constructor.
  - constructor; [done|]. by apply IH.
Qed.

Lemma find_item_In id items found : find_item id items = Some found -> In found items.
Proof. intros H. by apply find_some in H as [H _]. Qed.

Lemma apply_update_well_tracked now items u items' thrown :
  apply_update now items u = (items', thrown) ->
  Forall well_tracked items -> Forall well_tracked items'.
Proof.
  unfold apply_update. destruct (find_item (Update.item_id u) items) as [found|] eqn:Hf.
  - destruct (Z.gtb_spec (Update.qty_completed u) (maxAllowedQty found)).
    + by intros [= <- _].
    + intros [= <- _] Hall. apply (mutate_found_Forall _ _ _ _ found); [done | done |].
      apply record_entry_well_tracked; [|done].
      rewrite Forall_forall in Hall. apply Hall, list_elem_of_In. by apply find_item_In in Hf.
  - by intros [= <- _].
Qed.

Lemma forEach_well_tracked now updates : forall items items' thrown,
  forEach_updates now updates items = (items', thrown) ->
  Forall well_tracked items -> Forall well_tracked items'.
Proof.
  induction updates as [|u rest IH]; intros items items' thrown; simpl.
  - by intros [= <- _].
  - destruct (apply_update now items u) as [mid [e|]] eqn:E.
    + intros [= <- _]. by apply (apply_update_well_tracked _ _ _ _ _ E).
    + intros H Hall. apply (IH _ _ _ H). by apply (apply_update_well_tracked _ _ _ _ _ E).
Qed.

Lemma get_set_section_ne s s' items d :
  s <> s' -> get_section s' (set_section s items d) = get_section s' d.
Proof. by destruct s, s'. Qed.

Lemma well_tracked_order_with_items order s items :
  well_tracked_order order ->
  Forall well_tracked items ->
  well_tracked_order (recompute_order_status (with_items order s items)).
Proof.
  intros Ho Hitems s' item. rewrite ControllerFacts.recompute_order_status_details. simpl.
  destruct (decide (s = s')) as [<-|Hne].
  - rewrite ControllerFacts.get_set_section. rewrite Forall_forall in Hitems.
    intros Hin. by apply Hitems, list_elem_of_In.
  - rewrite get_set_section_ne by done. apply Ho.
Qed.

(** Every answer comes with the store it was called with, except the
    200 answer, which comes with the saved order written under its
    number. *)
Lemma handler_store now db body :
  (updateOrderProgress now db body).1 = db
  \/ exists number team_type updates order s items',
       body = request number team_type updates
       /\ db !! number = Some order
       /\ section_of_team_type team_type = Some s
       /\ forEach_updates now updates (get_section s (order_details order)) = (items', None)
       /\ updateOrderProgress now db body
          = (<[number := recompute_order_status (with_items order s items')]> db,
             {| Controller.code := 200;
                Controller.json := JProgress true "Order progress updated successfully"
                          (recompute_order_status (with_items order s items')) |}).
Proof.
  destruct (updateOrderProgress now db body) as [db' [c j]] eqn:E.
  destruct (decide (c = 200)) as [->|Hc].
  - right. destruct (ControllerFacts.handler_200_shape _ _ _ _ _ E)
      as (number & team_type & updates & order & s & items' & -> & Hdb & Hs & Hloop & -> & ->).
    exists number, team_type, updates, order, s, items'. done.
  - left. simpl. revert E. unfold updateOrderProgress.
    destruct (Body.order_number body) as [number|]; [|by intros [= <- _]].
    destruct (Body.team_type body) as [team_type|]; [|by intros [= <- _]].
    destruct (Body.updates body) as [updates|]; [|by intros [= <- _]].
    destruct (Js.truthy (Some number) && Js.truthy (Some team_type)); [|by intros [= <- _]].
    destruct (db !! number) as [order|]; [|by intros [= <- _]].
    destruct (section_of_team_type team_type) as [s|]; [|by intros [= <- _]].
    destruct (fold_updates now order s updates) as [mem [e|]]; [by intros [= <- _]|].
    intros [= _ <- _]. done.
Qed.

(** X1. [updateOrderProgress] keeps the tracking records of the store
    consistent, whatever the request: if in every stored order every
    tracked item has a total that is the sum of its entries, is at most
    the quantity, and has the status that total gives, the same is true
    of the store the handler returns. *)
Theorem X1_progress_keeps_tracking_consistent now db body :
  (forall number order, db !! number = Some order -> well_tracked_order order) ->
  forall number order,
    (updateOrderProgress now db body).1 !! number = Some order ->
    well_tracked_order order.
Proof.
  intros Hdb number order.
  destruct (handler_store now db body)
    as [->|(n & team_type & updates & o & s & items' & -> & Ho & Hs & Hloop & ->)];
    [apply Hdb|].
  simpl. destruct (decide (n = number)) as [->|Hne].
  - rewrite lookup_insert_eq. intros [= <-].
    apply well_tracked_order_with_items; [by apply (Hdb number)|].
    apply (forEach_well_tracked _ _ _ _ _ Hloop).
    apply Forall_forall. intros item Hin. apply (Hdb number o Ho s), list_elem_of_In, Hin.
  - rewrite lookup_insert_ne by done. apply Hdb.
Qed.

Lemma db1_well_tracked number order :
  ControllerSamples.db1 !! number = Some order -> well_tracked_order order.
Proof.
  unfold ControllerSamples.db1. intros [<- <-]%lookup_singleton_Some.
  intros s item Hin. destruct s; simpl in Hin; intuition (subst; exact I).
Qed.

Lemma X1_witness :
  well_tracked_order
    (recompute_order_status
       (with_items ControllerSamples.order1 Glass [ControllerSamples.bottle4])).
Proof.
  apply (X1_progress_keeps_tracking_consistent 0 ControllerSamples.db1
           (request "N1" "glass" [ControllerSamples.upd "g1" 4])
           db1_well_tracked "N1"%string).
  reflexivity.
Defined.

(** ** The history of an item *)

Lemma entries_of_record_entry now u item :
  entries_of (record_entry now u item)
  = entries_of item
    ++ [ {| Entry.qty_completed := Update.qty_completed u; Entry.timestamp := now |} ].
Proof. unfold entries_of, record_entry. by destruct (team_tracking item). Qed.

Lemma forEach_entries now updates : forall items items' id item,
  forEach_updates now updates items = (items', None) ->
  find_item id items = Some item ->
  exists item',
    find_item id items' = Some item'
    /\ entries_of item' = entries_of item ++ entries_for now id updates.
Proof.
  induction updates as [|u rest IH]; intros items items' id item; simpl.
  - intros [= <-] Hf. exists item. by rewrite app_nil_r.
  - destruct (apply_update now items u) as [mid [e|]] eqn:E; [done|].
    intros Hrest Hf. pose proof (ControllerFacts.apply_update_find _ _ _ _ id E) as Hmid.
    rewrite Hf in Hmid. unfold entries_for. simpl.
    destruct (String.eqb (Update.item_id u) id) eqn:Eid; simpl in *.
    + destruct (IH _ _ _ _ Hrest Hmid) as (item' & Hf' & He).
      exists item'. split; [done|].
      rewrite He, entries_of_record_entry, <- app_assoc. done.
    + destruct (IH _ _ _ _ Hrest Hmid) as (item' & Hf' & He). eauto.
Qed.

(** X2. The entries of an item are an append-only log: after a progress
    request answered 200, the item found for an identifier holds the
    entries it had, followed by one entry per update of the batch for
    that identifier, in the order of the batch and stamped with the time
    of the request. *)
Theorem X2_entries_are_appended_in_batch_order
    now db number team_type order s updates id item :
  Js.truthy (Some number) = true ->
  db !! number = Some order ->
  section_of_team_type team_type = Some s ->
  Controller.code (updateOrderProgress now db (request number team_type updates)).2 = 200 ->
  find_item id (get_section s (order_details order)) = Some item ->
  exists saved item',
    (updateOrderProgress now db (request number team_type updates)).1 !! number = Some saved
    /\ find_item id (get_section s (order_details saved)) = Some item'
    /\ entries_of item' = entries_of item ++ entries_for now id updates.
Proof.
  intros Hn Hdb Hs Hcode Hf.
  destruct (ControllerFacts.handler_200_inv _ _ _ _ _ _ _ Hn Hdb Hs Hcode) as [items' Hloop].
  rewrite (ControllerFacts.handler_saves _ _ _ _ _ _ _ _ Hn Hdb Hs Hloop). simpl.
  destruct (forEach_entries _ _ _ _ _ _ Hloop Hf) as (item' & Hf' & He).
  exists (recompute_order_status (with_items order s items')), item'.
  rewrite lookup_insert_eq, ControllerFacts.recompute_order_status_details. simpl.
  by rewrite ControllerFacts.get_set_section.
Qed.

Lemma X2_witness :
  exists saved item',
    (updateOrderProgress 7 ControllerSamples.db1
       (request "N1" "glass"
          [ControllerSamples.upd "g1" 4; ControllerSamples.upd "zz" 1;
           ControllerSamples.upd "g1" 5])).1 !! "N1"%string = Some saved
    /\ find_item "g1" (get_section Glass (order_details saved)) = Some item'
    /\ entries_of item'
       = entries_of ControllerSamples.bottle
         ++ entries_for 7 "g1"
              [ControllerSamples.upd "g1" 4; ControllerSamples.upd "zz" 1;
               ControllerSamples.upd "g1" 5].
Proof.
  apply (X2_entries_are_appended_in_batch_order 7 ControllerSamples.db1 "N1" "glass"
           ControllerSamples.order1 Glass _ "g1" ControllerSamples.bottle); reflexivity.
Defined.

(** ** What a progress request leaves alone *)

Lemma mutate_found_length id f items : length (mutate_found id f items) = length items.
Proof.
  induction items as [|item rest IH]; simpl; [done|].
  destruct (String.eqb (_id item) id); simpl; by rewrite ?IH.
Qed.

Lemma mutate_found_quantities id f items :
  (forall item, quantity (f item) = quantity item) ->
  map quantity (mutate_found id f items) = map quantity items.
Proof.
  intros Hq. induction items as [|item rest IH]; simpl; [done|].
  destruct (String.eqb (_id item) id); simpl; by rewrite ?Hq, ?IH.
Qed.

Lemma forEach_quantities now updates : forall items items' r,
  forEach_updates now updates items = (items', r) -> map quantity items' = map quantity items.
Proof.
  induction updates as [|u rest IH]; intros items items' r; simpl.
  - by intros [= <- _].
  - assert (forall mid r', apply_update now items u = (mid, r') ->
              map quantity mid = map quantity items) as Hstep.
    { intros mid r'. unfold apply_update. destruct (find_item _ items); [|by intros [= <- _]].
      destruct (_ >? _); intros [= <- _]; [done|].
      apply mutate_found_quantities. intros; apply ControllerFacts.record_entry_quantity. }
    destruct (apply_update now items u) as [mid [e|]] eqn:E.
    + intros [= <- _]. by apply (Hstep _ _ eq_refl).
    + intros H. rewrite (IH _ _ _ H). by apply (Hstep _ _ eq_refl).
Qed.

(** X3. A progress request touches one section of one order: every
    answer other than 200 leaves the store as it was, and a 200 answer
    changes only the order it names. In that order the other three
    sections are what they were, and the section addressed has the same
    items by identifier and quantity, in the same order; an item whose
    identifier the batch does not mention is unchanged. *)
Theorem X3_progress_touches_one_section_of_one_order now db body :
  (Controller.code (updateOrderProgress now db body).2 <> 200 ->
   (updateOrderProgress now db body).1 = db)
  /\ (forall number team_type updates order s,
        body = request number team_type updates ->
        db !! number = Some order ->
        section_of_team_type team_type = Some s ->
        Controller.code (updateOrderProgress now db body).2 = 200 ->
        exists saved,
          (updateOrderProgress now db body).1 = <[number := saved]> db
          /\ order_number saved = order_number order
          /\ (forall s', s' <> s ->
                get_section s' (order_details saved) = get_section s' (order_details order))
          /\ map _id (get_section s (order_details saved))
             = map _id (get_section s (order_details order))
          /\ map quantity (get_section s (order_details saved))
             = map quantity (get_section s (order_details order))
          /\ (forall id item,
                find_item id (get_section s (order_details order)) = Some item ->
                mentions id updates = false ->
                find_item id (get_section s (order_details saved)) = Some item)).
Proof.
  split.
  - intros Hcode.
    destruct (handler_store now db body)
      as [H|(n & team_type & updates & o & s & items' & -> & Ho & Hs & Hloop & E)]; [done|].
    rewrite E in Hcode. by destruct Hcode.
  - intros number team_type updates order s -> Hdb Hs Hcode.
    assert (Js.truthy (Some number) = true) as Hn.
    { destruct (handler_store now db (request number team_type updates))
        as [H|(n & tt' & u' & o & s' & items' & [= <- <- <-] & Ho & _ & _ & E)].
      - revert Hcode. unfold updateOrderProgress, request.
        cbn [Body.order_number Body.team_type Body.updates].
        by destruct number.
      - revert E. unfold updateOrderProgress, request.
        cbn [Body.order_number Body.team_type Body.updates].
        by destruct number. }
    destruct (ControllerFacts.handler_200_inv _ _ _ _ _ _ _ Hn Hdb Hs Hcode) as [items' Hloop].
    rewrite (ControllerFacts.handler_saves _ _ _ _ _ _ _ _ Hn Hdb Hs Hloop). simpl.
    exists (recompute_order_status (with_items order s items')).
    rewrite ControllerFacts.recompute_order_status_details. simpl.
    rewrite ControllerFacts.get_set_section.
    split; [done|]. split.
    { unfold recompute_order_status. by destruct (isOrderCompleted _). }
    split; [intros s' Hne; by apply get_set_section_ne|].
    split; [by apply (ControllerFacts.forEach_ids _ _ _ _ _ Hloop)|].
    split; [by apply (forEach_quantities _ _ _ _ _ Hloop)|].
    intros id item Hf Hm.
    destruct (ControllerFacts.forEach_find _ _ _ _ _ _ Hloop Hf) as (item' & Hf' & _ & _ & _ & Hsame).
    by rewrite Hf', (Hsame Hm).
Qed.

Lemma X3_witness :
  exists saved,
    (updateOrderProgress 7 ControllerSamples.db1
       (request "N1" "glass" [ControllerSamples.upd "g1" 4])).1
    = <["N1"%string := saved]> ControllerSamples.db1
    /\ order_number saved = order_number ControllerSamples.order1
    /\ (forall s', s' <> Glass ->
          get_section s' (order_details saved)
          = get_section s' (order_details ControllerSamples.order1))
    /\ map _id (get_section Glass (order_details saved))
       = map _id (get_section Glass (order_details ControllerSamples.order1))
    /\ map quantity (get_section Glass (order_details saved))
       = map quantity (get_section Glass (order_details ControllerSamples.order1))
    /\ (forall id item,
          find_item id (get_section Glass (order_details ControllerSamples.order1)) = Some item ->
          mentions id [ControllerSamples.upd "g1" 4] = false ->
          find_item id (get_section Glass (order_details saved)) = Some item).
Proof.
  apply (proj2 (X3_progress_touches_one_section_of_one_order 7 ControllerSamples.db1
                  (request "N1" "glass" [ControllerSamples.upd "g1" 4]))
           "N1"%string "glass"%string [ControllerSamples.upd "g1" 4]
           ControllerSamples.order1 Glass); reflexivity.
Defined.

(** ** Reports that are not progress *)

(** X4. A report of zero or of a negative quantity is never refused for
    a tracked item whose total is within its quantity: the request is
    answered 200, the quantity is added to the total, and a negative one
    leaves the item Pending, even if it was Completed. *)
Theorem X4_nonpositive_reports_are_recorded
    now db number team_type order s id item t q :
  Js.truthy (Some number) = true ->
  db !! number = Some order ->
  section_of_team_type team_type = Some s ->
  find_item id (get_section s (order_details order)) = Some item ->
  team_tracking item = Some t ->
  total_completed_qty t <= quantity item ->
  q <= 0 ->
  let r := updateOrderProgress now db
             (request number team_type [ {| Update.item_id := id; Update.qty_completed := q |} ]) in
  Controller.code r.2 = 200
  /\ exists t',
       stored_tracking r.1 number s id = Some t'
       /\ total_completed_qty t' = total_completed_qty t + q
       /\ (q < 0 -> status t' = Pending).
Proof.
  intros Hn Hdb Hs Hf Ht Hle Hq r.
  assert (completed_so_far item = total_completed_qty t) as Hc
    by (unfold completed_so_far; by rewrite Ht).
  assert (Controller.code r.2 = 200) as Hcode.
  { subst r. eapply ControllerFacts.handler_single_200; eauto. lia. }
  split; [done|].
  destruct (ControllerFacts.handler_200_effect _ _ _ _ _ _ _ _ _ Hn Hdb Hs Hcode Hf)
    as (saved & item' & Hdb' & Hf' & Hq' & Hc' & Hm & _).
  destruct Hm as (t' & Ht' & Hst); [simpl; by rewrite String.eqb_refl|].
  exists t'. subst r. rewrite (ControllerFacts.stored_tracking_eq _ _ _ _ _ _ Hdb' Hf').
  split; [done|].
  assert (total_completed_qty t' = total_completed_qty t + q) as Htot.
  { unfold completed_so_far in Hc'. rewrite Ht', Ht in Hc'. simpl in Hc'.
    rewrite String.eqb_refl in Hc'. lia. }
  split; [done|]. intros Hneg. rewrite Hst. apply ControllerFacts.status_for_Pending. lia.
Qed.

Lemma X4_witness :
  let r := updateOrderProgress 9 {[ "N9"%string := ControllerSamples.order1_later ]}
             (request "N9" "glass"
                [ {| Update.item_id := "g1"; Update.qty_completed := -3 |} ]) in
  Controller.code r.2 = 200
  /\ exists t',
       stored_tracking r.1 "N9" Glass "g1" = Some t'
       /\ total_completed_qty t' = 10 + -3
       /\ (-3 < 0 -> status t' = Pending).
Proof.
  apply (X4_nonpositive_reports_are_recorded 9 {[ "N9"%string := ControllerSamples.order1_later ]}
           "N9" "glass" ControllerSamples.order1_later Glass "g1"
           {| _id := "g1"; quantity := 10;
              team_tracking := Some
                {| total_completed_qty := 10;
                   completed_entries := [ {| Entry.qty_completed := 10; Entry.timestamp := 1 |} ];
                   status := Completed |} |}
           {| total_completed_qty := 10;
              completed_entries := [ {| Entry.qty_completed := 10; Entry.timestamp := 1 |} ];
              status := Completed |} (-3));
    (reflexivity || (simpl; lia)).
Defined.





(** ** Listing orders *)

Lemma In_stored (db : gmap string Order) order :
  In order (map_to_list db).*2 <-> exists key, db !! key = Some order.
Proof.
  rewrite <- list_elem_of_In, list_elem_of_fmap. split.
  - intros ([key o] & -> & Hin). exists key. by apply elem_of_map_to_list in Hin.
  - intros [key Hkey]. exists (key, order). split; [done|]. by apply elem_of_map_to_list.
Qed.

Lemma matches_spec status s order :
  matches status s order = true
  <-> order_status order = status /\ get_section s (order_details order) <> [].
Proof.
  unfold matches, Status_eqb. rewrite andb_true_iff, bool_decide_eq_true.
  destruct (get_section s (order_details order)); intuition congruence.
Qed.

(** X6. [filterOrders], for a team text that selects a section, lists
    exactly the stored orders that have the status asked for and at
    least one item in that section, each reduced to its number, its
    status and that section. The status asked for is Pending for the
    order type [liveOrders] and Completed for every other order type. *)
Theorem X6_filter_lists_exactly_the_matching_orders db orderType t s :
  Js.truthy (Some t) = true ->
  teamField t = Some s ->
  OrderRoutes.code (filterOrders db orderType (Some t)) = 200
  /\ (forall l,
        In l (listed (filterOrders db orderType (Some t)))
        <-> exists key order,
              db !! key = Some order
              /\ order_status order = orderStatus orderType
              /\ get_section s (order_details order) <> []
              /\ l = project s order)
  /\ (orderStatus orderType = Pending <-> orderType = "liveOrders"%string)
  /\ (orderStatus orderType = Completed <-> orderType <> "liveOrders"%string).
Proof.
  intros Ht Hs. unfold filterOrders. rewrite Ht, Hs. split; [done|]. split.
  - intros l. unfold listed. simpl. rewrite in_map_iff. split.
    + intros (order & <- & Hin). apply filter_In in Hin as [Hin Hm].
      apply In_stored in Hin as [key Hkey]. apply matches_spec in Hm as [? ?].
      exists key, order. done.
    + intros (key & order & Hkey & Hst & Hne & ->). exists order. split; [done|].
      apply filter_In. split; [apply In_stored; eauto | by apply matches_spec].
  - unfold orderStatus.
    destruct (String.eqb_spec orderType "liveOrders"); split; intuition congruence.
Qed.

Lemma X6_witness :
  OrderRoutes.code (filterOrders ControllerSamples.db1 "liveOrders" (Some "Caps Team"%string)) = 200
  /\ listed (filterOrders ControllerSamples.db1 "liveOrders" (Some "Caps Team"%string))
     = [ project Caps ControllerSamples.order1 ].
Proof.
  split.
  - apply (X6_filter_lists_exactly_the_matching_orders ControllerSamples.db1 "liveOrders"
             "Caps Team" Caps); reflexivity.
  - reflexivity.
Defined.

(** ** Team texts *)

Lemma append_cons c a b : (String c a ++ b)%string = String c (a ++ b)%string.
Proof. reflexivity. Qed.

Lemma append_nil b : (EmptyString ++ b)%string = b.
Proof. reflexivity. Qed.

Lemma prefix_spec key s : String.prefix key s = true <-> exists b, s = (key ++ b)%string.
Proof.
  revert s. induction key as [|c key IH]; intros s.
  - destruct s; simpl; split; eauto.
  - destruct s as [|c' s]; simpl.
    { split; [done|]. intros [b Hb]. rewrite append_cons in Hb. done. }
    destruct (Ascii.ascii_dec c c') as [<-|Hne].
    + rewrite IH. split; intros [b Hb]; exists b; rewrite append_cons in *; congruence.
    + split; [done|]. intros [b Hb]. rewrite append_cons in Hb. congruence.
Qed.

Lemma includes_spec s key :
  includes s key = true <-> exists a b, s = (a ++ key ++ b)%string.
Proof.
  induction s as [|c s IH].
  - change (includes EmptyString key) with (String.prefix key EmptyString || false).
    rewrite orb_false_r, prefix_spec. split.
    + intros [b Hb]. by exists EmptyString, b.
    + intros (a & b & H). destruct a; [by exists b|]. by rewrite append_cons in H.
  - change (includes (String c s) key)
      with (String.prefix key (String c s) || includes s key).
    rewrite orb_true_iff, prefix_spec, IH. split.
    + intros [[b Hb]|(a & b & ->)].
      * by exists EmptyString, b.
      * by exists (String c a), b.
    + intros (a & b & H). destruct a as [|c' a].
      * left. by exists b.
      * right. rewrite append_cons in H. injection H as -> ->. by exists a, b.
Qed.

(** X7. [filterOrders] recognizes the team by substring, in any letter
    case, trying glass, cap, box and pump in that order: a team text
    selects the section of the first of these that occurs in its
    lower-case form, wherever it occurs, and is refused with 400 when
    none occurs. So [caps], [Cap Team] and [capsule] all select the caps
    section, and a text that contains both [box] and [glass] selects
    glass. *)
Theorem X7_team_is_matched_by_substring t :
  let occurs key := exists a b, Js.toLowerCase t = (a ++ key ++ b)%string in
  (occurs "glass"%string -> teamField t = Some Glass)
  /\ (~ occurs "glass"%string -> occurs "cap"%string -> teamField t = Some Caps)
  /\ (~ occurs "glass"%string -> ~ occurs "cap"%string -> occurs "box"%string ->
      teamField t = Some Boxes)
  /\ (~ occurs "glass"%string -> ~ occurs "cap"%string -> ~ occurs "box"%string ->
      occurs "pump"%string -> teamField t = Some Pumps)
  /\ (~ occurs "glass"%string -> ~ occurs "cap"%string -> ~ occurs "box"%string ->
      ~ occurs "pump"%string ->
      forall db orderType,
        Js.truthy (Some t) = true ->
        filterOrders db orderType (Some t)
        = {| OrderRoutes.code := 400; OrderRoutes.json := RError "Invalid team type" |}).
Proof.
  intros occurs. unfold teamField, teamMapping. simpl.
  assert (forall key, includes (Js.toLowerCase t) key = true <-> occurs key) as Hinc
    by (intros key; apply includes_spec).
  assert (forall key, ~ occurs key -> includes (Js.toLowerCase t) key = false) as Hnot.
  { intros key Hk. destruct (includes (Js.toLowerCase t) key) eqn:E; [|done].
    by apply Hinc in E. }
  split; [|split; [|split; [|split]]].
  - intros Hg. apply Hinc in Hg. by rewrite Hg.
  - intros Hg Hc. apply Hinc in Hc. by rewrite (Hnot _ Hg), Hc.
  - intros Hg Hc Hb. apply Hinc in Hb. by rewrite (Hnot _ Hg), (Hnot _ Hc), Hb.
  - intros Hg Hc Hb Hp. apply Hinc in Hp.
    by rewrite (Hnot _ Hg), (Hnot _ Hc), (Hnot _ Hb), Hp.
  - intros Hg Hc Hb Hp db orderType Ht. unfold filterOrders, teamField, teamMapping.
    rewrite Ht. simpl. by rewrite (Hnot _ Hg), (Hnot _ Hc), (Hnot _ Hb), (Hnot _ Hp).
Qed.

Lemma X7_witness :
  teamField "Box of Glass" = Some Glass /\ teamField "Capsule" = Some Caps.
Proof.
  split.
  - apply (proj1 (X7_team_is_matched_by_substring "Box of Glass")).
    by exists "box of "%string, EmptyString.
  - apply (proj1 (proj2 (X7_team_is_matched_by_substring "Capsule"))).
    + intros Hg. apply includes_spec in Hg. discriminate Hg.
    + by exists EmptyString, "sule"%string.
Defined.

(** ** Creating and deleting orders *)

(** The three outcomes of [createOrder]. *)
Lemma createOrder_cases db body :
  ((createOrder db body).1 = db /\ OrderRoutes.code (createOrder db body).2 = 400)
  \/ ((createOrder db body).1 = db /\ OrderRoutes.code (createOrder db body).2 = 409
      /\ exists number, NewOrder.order_number body = Some number
                        /\ is_Some (db !! number))
  \/ (exists number,
        NewOrder.order_number body = Some number
        /\ Js.truthy (Some number) = true
        /\ hasItems (NewOrder.order_details body) = true
        /\ db !! number = None
        /\ createOrder db body
           = (<[number := new_Order number body]> db,
              {| OrderRoutes.code := 201;
                 OrderRoutes.json := RCreated true "✅ Order Created Successfully"
                                       (new_Order number body) |})).
Proof.
  unfold createOrder.
  destruct (Js.truthy (NewOrder.order_number body)) eqn:Hn; simpl; [|by left].
  destruct (Js.truthy (NewOrder.dispatcher_name body)); simpl; [|by left].
  destruct (Js.truthy (NewOrder.customer_name body)); simpl; [|by left].
  destruct (hasItems (NewOrder.order_details body)) eqn:Hitems; simpl; [|by left].
  destruct (NewOrder.order_number body) as [number|] eqn:Hnum; [|done]. simpl.
  destruct (db !! number) as [o|] eqn:Hdb.
  - right. left. repeat split; try done. exists number. by rewrite Hdb.
  - right. right. exists number. done.
Qed.

Lemma has_length_default items : has_length items = true -> default [] items <> [].
Proof. by destruct items as [[|? ?]|]. Qed.

Lemma hasItems_new_Order number body :
  hasItems (NewOrder.order_details body) = true ->
  exists s, get_section s (order_details (new_Order number body)) <> [].
Proof.
  unfold hasItems, new_Order. destruct (NewOrder.order_details body) as [d|]; [|done]. simpl.
  rewrite !orb_true_iff. intros [[[H|H]|H]|H]; apply has_length_default in H.
  - by exists Glass.
  - by exists Caps.
  - by exists Boxes.
  - by exists Pumps.
Qed.

(** X8. [createOrder] never changes an order that is already stored:
    whatever the request, every stored order is still there, unchanged,
    afterwards. Every answer other than 201 leaves the store as it was,
    and a request for a number that is taken is not answered 201. A 201
    answer stores the new order under a number that was free; the order
    has at least one item, and is Pending unless the request says
    otherwise. *)
Theorem X8_create_never_overwrites db body :
  (forall key order, db !! key = Some order -> (createOrder db body).1 !! key = Some order)
  /\ (OrderRoutes.code (createOrder db body).2 <> 201 -> (createOrder db body).1 = db)
  /\ (forall number, NewOrder.order_number body = Some number -> is_Some (db !! number) ->
        OrderRoutes.code (createOrder db body).2 <> 201)
  /\ (OrderRoutes.code (createOrder db body).2 = 201 ->
      exists number saved,
        NewOrder.order_number body = Some number
        /\ db !! number = None
        /\ (createOrder db body).1 = <[number := saved]> db
        /\ OrderRoutes.json (createOrder db body).2
           = RCreated true "✅ Order Created Successfully" saved
        /\ order_number saved = number
        /\ (exists s, get_section s (order_details saved) <> [])
        /\ (NewOrder.order_status body = None -> order_status saved = Pending)).
Proof.
  destruct (createOrder_cases db body)
    as [[Hdb Hc]|[(Hdb & Hc & number & Hnum & Htaken)|(number & Hnum & Ht & Hitems & Hfree & E)]].
  - rewrite Hdb, Hc. repeat split; try done; intros; done.
  - rewrite Hdb, Hc. repeat split; try done; intros; done.
  - rewrite E. simpl. split; [|split; [|split]].
    + intros key order Hkey. rewrite lookup_insert_ne; [done|]. intros <-. congruence.
    + done.
    + intros number' Hnum' [o Ho]. rewrite Hnum in Hnum'. injection Hnum' as <-. congruence.
    + intros _. exists number, (new_Order number body). repeat split; try done.
      * by apply hasItems_new_Order.
      * intros Hst. unfold new_Order. simpl. by rewrite Hst.
Qed.

Lemma X8_witness :
  exists number saved,
    NewOrder.order_number RouteSamples.two_team_order = Some number
    /\ ControllerSamples.db1 !! number = None
    /\ (createOrder ControllerSamples.db1 RouteSamples.two_team_order).1
       = <[number := saved]> ControllerSamples.db1
    /\ OrderRoutes.json (createOrder ControllerSamples.db1 RouteSamples.two_team_order).2
       = RCreated true "✅ Order Created Successfully" saved
    /\ order_number saved = number
    /\ (exists s, get_section s (order_details saved) <> [])
    /\ (NewOrder.order_status RouteSamples.two_team_order = None -> order_status saved = Pending).
Proof.
  apply (proj2 (proj2 (proj2
           (X8_create_never_overwrites ControllerSamples.db1 RouteSamples.two_team_order)))).
  reflexivity.
Defined.

(** The outcomes of [deleteOrder]. *)
Lemma deleteOrder_present db number order :
  Js.truthy (Some number) = true ->
  db !! number = Some order ->
  deleteOrder db number
  = (delete number db,
     {| OrderRoutes.code := 200;
        OrderRoutes.json := RDeleted true "Order deleted successfully" (order_number order) |}).
Proof. intros Hn Hdb. unfold deleteOrder. by rewrite Hn, Hdb. Qed.

Lemma deleteOrder_absent db number :
  Js.truthy (Some number) = true ->
  db !! number = None ->
  deleteOrder db number
  = (db, {| OrderRoutes.code := 404; OrderRoutes.json := RFailure false "Order not found" |}).
Proof. intros Hn Hdb. unfold deleteOrder. by rewrite Hn, Hdb. Qed.

(** X9. [deleteOrder] removes the order of the number given and nothing
    else: afterwards the store has no order under that number, every
    other order is where it was, and deleting the same number again is
    answered 404 and changes nothing. Deleting a number the store does
    not hold is answered 404 as well. *)
Theorem X9_delete_removes_one_order db number :
  Js.truthy (Some number) = true ->
  (deleteOrder db number).1 !! number = None
  /\ (forall key, key <> number -> (deleteOrder db number).1 !! key = db !! key)
  /\ deleteOrder (deleteOrder db number).1 number
     = ((deleteOrder db number).1,
        {| OrderRoutes.code := 404; OrderRoutes.json := RFailure false "Order not found" |})
  /\ (OrderRoutes.code (deleteOrder db number).2 = 200 <-> is_Some (db !! number))
  /\ (OrderRoutes.code (deleteOrder db number).2 = 404 <-> db !! number = None).
Proof.
  intros Hn.
  assert ((deleteOrder db number).1 !! number = None) as Hgone.
  { destruct (db !! number) as [order|] eqn:Hdb.
    - rewrite (deleteOrder_present _ _ _ Hn Hdb). apply lookup_delete_eq.
    - by rewrite (deleteOrder_absent _ _ Hn Hdb). }
  split; [done|]. split; [|split].
  - intros key Hne. destruct (db !! number) as [order|] eqn:Hdb.
    + rewrite (deleteOrder_present _ _ _ Hn Hdb). by apply lookup_delete_ne.
    + by rewrite (deleteOrder_absent _ _ Hn Hdb).
  - by apply deleteOrder_absent.
  - destruct (db !! number) as [order|] eqn:Hdb.
    + rewrite (deleteOrder_present _ _ _ Hn Hdb). simpl. naive_solver.
    + rewrite (deleteOrder_absent _ _ Hn Hdb). simpl. split; [|done].
      split; [done|]. by intros [? ?].
Qed.

Lemma X9_witness :
  (deleteOrder ControllerSamples.db1 "N1").1 !! "N1"%string = None
  /\ (forall key, key <> "N1"%string ->
        (deleteOrder ControllerSamples.db1 "N1").1 !! key = ControllerSamples.db1 !! key)
  /\ deleteOrder (deleteOrder ControllerSamples.db1 "N1").1 "N1"
     = ((deleteOrder ControllerSamples.db1 "N1").1,
        {| OrderRoutes.code := 404; OrderRoutes.json := RFailure false "Order not found" |})
  /\ (OrderRoutes.code (deleteOrder ControllerSamples.db1 "N1").2 = 200
      <-> is_Some (ControllerSamples.db1 !! "N1"%string))
  /\ (OrderRoutes.code (deleteOrder ControllerSamples.db1 "N1").2 = 404
      <-> ControllerSamples.db1 !! "N1"%string = None).
Proof. apply (X9_delete_removes_one_order ControllerSamples.db1 "N1"). reflexivity. Defined.

(** X10. Creating an order and deleting it again gives the store back:
    after a [createOrder] answered 201, [deleteOrder] on the number of
    the request is answered 200 with that number, and the store is the
    one before the creation. *)
Theorem X10_create_then_delete_restores_the_store db body :
  OrderRoutes.code (createOrder db body).2 = 201 ->
  exists number,
    NewOrder.order_number body = Some number
    /\ deleteOrder (createOrder db body).1 number
       = (db, {| OrderRoutes.code := 200;
                 OrderRoutes.json := RDeleted true "Order deleted successfully" number |}).
Proof.
  intros Hcode.
  destruct (createOrder_cases db body)
    as [[_ Hc]|[(_ & Hc & _)|(number & Hnum & Ht & Hitems & Hfree & E)]];
    [rewrite Hc in Hcode; done | rewrite Hc in Hcode; done |].
  exists number. split; [done|]. rewrite E. simpl.
  rewrite (deleteOrder_present _ number (new_Order number body) Ht)
    by apply lookup_insert_eq.
  by rewrite delete_insert_id.
Qed.

Lemma X10_witness :
  exists number,
    NewOrder.order_number RouteSamples.two_team_order = Some number
    /\ deleteOrder (createOrder ControllerSamples.db1 RouteSamples.two_team_order).1 number
       = (ControllerSamples.db1,
          {| OrderRoutes.code := 200;
             OrderRoutes.json := RDeleted true "Order deleted successfully" number |}).
Proof.
  apply (X10_create_then_delete_restores_the_store ControllerSamples.db1
           RouteSamples.two_team_order).
  reflexivity.
Defined.

(** ** Orders on the live lists *)

Lemma listed_filterOrders db orderType t s l :
  Js.truthy (Some t) = true ->
  teamField t = Some s ->
  In l (listed (filterOrders db orderType (Some t)))
  <-> exists key order,
        db !! key = Some order
        /\ order_status order = orderStatus orderType
        /\ get_section s (order_details order) <> []
        /\ l = project s order.
Proof.
  intros Ht Hs. unfold filterOrders. rewrite Ht, Hs. unfold listed. simpl.
  rewrite in_map_iff. split.
  - intros (order & <- & Hin). apply filter_In in Hin as [Hin Hm].
    apply In_stored in Hin as [key Hkey]. apply matches_spec in Hm as [? ?].
    exists key, order. done.
  - intros (key & order & Hkey & Hst & Hne & ->). exists order. split; [done|].
    apply filter_In. split; [apply In_stored; eauto | by apply matches_spec].
Qed.

Lemma new_Order_section s number body :
  get_section s (order_details (new_Order number body)) = body_section s body.
Proof. done. Qed.

(** X11. A new order is live for exactly the teams it has items for:
    after a [createOrder] answered 201 for a request that gives no
    status, the [liveOrders] list of a team shows the new order, reduced
    to that team's section, if and only if the request has at least one
    item in that section. *)
Theorem X11_new_order_is_live_for_the_teams_with_items db body t s :
  OrderRoutes.code (createOrder db body).2 = 201 ->
  NewOrder.order_status body = None ->
  Js.truthy (Some t) = true ->
  teamField t = Some s ->
  exists number,
    NewOrder.order_number body = Some number
    /\ (In {| listed_number := number; listed_status := Pending;
              listed_section := s; listed_items := body_section s body |}
          (listed (filterOrders (createOrder db body).1 "liveOrders" (Some t)))
        <-> body_section s body <> []).
Proof.
  intros Hcode Hst Ht Hs.
  destruct (createOrder_cases db body)
    as [[_ Hc]|[(_ & Hc & _)|(number & Hnum & _ & Hitems & Hfree & E)]];
    [rewrite Hc in Hcode; done | rewrite Hc in Hcode; done |].
  exists number. split; [done|]. rewrite E. cbn [fst].
  rewrite (listed_filterOrders _ _ _ _ _ Ht Hs). split.
  - intros (key & order & _ & _ & Hne & [= _ _ Hitems']). by rewrite Hitems'.
  - intros Hne. exists number, (new_Order number body).
    split; [apply lookup_insert_eq|].
    split; [unfold new_Order; simpl; by rewrite Hst|].
    split; [by rewrite new_Order_section|].
    unfold project, new_Order. simpl. by rewrite Hst.
Qed.

Lemma X11_witness :
  exists number,
    NewOrder.order_number RouteSamples.two_team_order = Some number
    /\ (In {| listed_number := number; listed_status := Pending;
              listed_section := Caps;
              listed_items := body_section Caps RouteSamples.two_team_order |}
          (listed (filterOrders
                     (createOrder ControllerSamples.db1 RouteSamples.two_team_order).1
                     "liveOrders" (Some "cap"%string)))
        <-> body_section Caps RouteSamples.two_team_order <> []).
Proof.
  apply (X11_new_order_is_live_for_the_teams_with_items ControllerSamples.db1
           RouteSamples.two_team_order "cap" Caps); reflexivity.
Defined.





End ControllerExtras.

(** * Further properties of the connection-keyed server *)

Module SocketExtras.

Import SocketServer SocketEvents.

(** ** What the registry keeps true *)

Lemma consistent_initial : consistent initial.
Proof.
  split.
  - intros k id Hin. destruct k; by apply not_elem_of_empty in Hin.
  - intros k id Hin. destruct k; by apply not_elem_of_empty in Hin.
  - intros r id Hin. by apply not_elem_of_empty in Hin.
Qed.

Lemma consistent_join_member k id st :
  is_Some (connectedUsers st !! id) ->
  consistent st ->
  consistent (join (key_name k) id (add_member k id st)).
Proof.
  intros Hid [Hc Hr Hn]. split.
  - intros k' id'.
    change (teamMembers (join (key_name k) id (add_member k id st)))
      with (teamMembers (add_member k id st)).
    rewrite SocketFacts.elem_of_members_add_member. intros [?|[-> _]]; [by eapply Hc | done].
  - intros k' id'.
    change (teamMembers (join (key_name k) id (add_member k id st)))
      with (teamMembers (add_member k id st)).
    rewrite SocketFacts.elem_of_members_add_member, SocketFacts.room_members_join.
    change (room_members (key_name k') (add_member k id st)) with (room_members (key_name k') st).
    intros [Hin|[-> ->]].
    + destruct (decide _); [apply elem_of_union; right|]; by apply Hr.
    + rewrite decide_True by done. apply elem_of_union. left. by apply elem_of_singleton.
  - intros r id'. rewrite SocketFacts.room_members_join.
    change (room_members r (add_member k id st)) with (room_members r st).
    destruct (decide (key_name k = r)) as [<-|Hne]; [|apply Hn].
    intros _. by exists k.
Qed.

Lemma consistent_join_team name id st :
  is_Some (connectedUsers st !! id) ->
  consistent st ->
  consistent (join_team name id st).1
  /\ connectedUsers (join_team name id st).1 = connectedUsers st.
Proof.
  intros Hid Hst. unfold join_team.
  destruct (teamMembers_get (Js.normalize name)) as [k| |] eqn:E; simpl; [|done|done].
  apply SocketFacts.teamMembers_get_Own in E. rewrite E. split; [|done].
  by apply consistent_join_member.
Qed.

Lemma consistent_addUserToTeams id info st :
  is_Some (connectedUsers st !! id) ->
  consistent st ->
  consistent (addUserToTeams id info st).1.
Proof.
  intros Hid Hst. unfold addUserToTeams.
  set (st1 := if is_privileged (role info)
              then join "dispatchers" id (add_member Dispatchers id st) else st).
  assert (consistent st1 /\ connectedUsers st1 = connectedUsers st) as [H1 C1].
  { subst st1. destruct (is_privileged (role info)); [|done]. split; [|done].
    by apply (consistent_join_member Dispatchers). }
  clearbody st1.
  destruct (match team info with
            | Some t => if Js.truthy (Some t) then join_team t id st1 else (st1, None)
            | None => (st1, None)
            end) as [st2 thrown2] eqn:E2.
  assert (consistent st2 /\ connectedUsers st2 = connectedUsers st) as [H2 C2].
  { rewrite <- C1 in Hid. rewrite <- C1.
    destruct (team info) as [t|]; [destruct (Js.truthy (Some t))|].
    - pose proof (consistent_join_team t id st1 Hid H1) as H. by rewrite E2 in H.
    - by injection E2 as <- <-.
    - by injection E2 as <- <-. }
  destruct thrown2 as [e|]; [done|].
  destruct (teamType info) as [ty|]; [|done].
  destruct (Js.truthy (Some ty) && negb (same_string (Some ty) (team info))); [|done].
  apply consistent_join_team; [by rewrite C2 | done].
Qed.

Lemma consistent_removeUserFromTeams id st :
  consistent st -> consistent (removeUserFromTeams id st).
Proof.
  intros [Hc Hr Hn]. split.
  - intros k id'. rewrite SocketFacts.removeUserFromTeams_members. intros [Hin _].
    change (connectedUsers (removeUserFromTeams id st)) with
      (connectedUsers (fold_left (remove_if_member id) [Glass; Cap; Box; Pump]
                         (remove_if_member id st Dispatchers))).
    assert (forall acc k', connectedUsers (remove_if_member id acc k') = connectedUsers acc) as Hu.
    { intros acc k'. unfold remove_if_member. by case_bool_decide. }
    cbn [fold_left]. rewrite !Hu. by eapply Hc.
  - intros k id'. rewrite SocketFacts.removeUserFromTeams_members. intros [Hin _].
    unfold room_members. rewrite SocketFacts.removeUserFromTeams_rooms. by apply Hr.
  - intros r id'. unfold room_members. rewrite SocketFacts.removeUserFromTeams_rooms. apply Hn.
Qed.

Lemma connectedUsers_removeUserFromTeams id st :
  connectedUsers (removeUserFromTeams id st) = connectedUsers st.
Proof.
  assert (forall acc k', connectedUsers (remove_if_member id acc k') = connectedUsers acc) as Hu.
  { intros acc k'. unfold remove_if_member. by case_bool_decide. }
  unfold removeUserFromTeams. cbn [fold_left]. by rewrite !Hu.
Qed.

Lemma userIdentities_removeUserFromTeams id st :
  userIdentities (removeUserFromTeams id st) = userIdentities st.
Proof.
  assert (forall acc k', userIdentities (remove_if_member id acc k') = userIdentities acc) as Hu.
  { intros acc k'. unfold remove_if_member. by case_bool_decide. }
  unfold removeUserFromTeams. cbn [fold_left]. by rewrite !Hu.
Qed.

Lemma consistent_set_user id info st : consistent st -> consistent (set_user id info st).
Proof.
  intros [Hc Hr Hn]. split; [|done|done].
  intros k id' Hin. unfold set_user. cbn [connectedUsers].
  destruct (decide (id = id')) as [<-|Hne].
  - rewrite lookup_insert_eq. eauto.
  - rewrite lookup_insert_ne by done. by eapply Hc.
Qed.

Lemma consistent_register id now ud st : consistent st -> consistent (register id now ud st).1.
Proof.
  intros Hst. unfold register. apply consistent_addUserToTeams.
  - unfold set_user. cbn [connectedUsers]. rewrite lookup_insert_eq. eauto.
  - by apply consistent_set_user, consistent_removeUserFromTeams.
Qed.

Lemma consistent_connection id now q st : consistent st -> consistent (connection id now q st).1.
Proof.
  intros Hst. unfold connection. destruct (UserData.userId q) as [uid|]; [|done].
  destruct (Js.truthy (Some uid) && Js.truthy (UserData.role q)); [|done].
  apply consistent_addUserToTeams.
  - unfold set_user. cbn [connectedUsers]. rewrite lookup_insert_eq. eauto.
  - by apply consistent_set_user.
Qed.

Lemma room_members_disconnect r id st :
  room_members r (disconnect id st) = room_members r st ∖ {[id]}.
Proof.
  unfold room_members, disconnect. cbn [rooms].
  rewrite SocketFacts.removeUserFromTeams_rooms, lookup_fmap.
  destruct (rooms st !! r); simpl; [done|].
  apply set_eq. intros x. rewrite elem_of_difference. split.
  - intros H. by apply not_elem_of_empty in H.
  - by intros [H _].
Qed.

Lemma members_disconnect k id st :
  members k (teamMembers (disconnect id st)) = members k (teamMembers (removeUserFromTeams id st)).
Proof. done. Qed.

Lemma consistent_disconnect id st : consistent st -> consistent (disconnect id st).
Proof.
  intros [Hc Hr Hn]. split.
  - intros k id'. rewrite members_disconnect, SocketFacts.removeUserFromTeams_members.
    intros [Hin Hne]. unfold disconnect. cbn [connectedUsers].
    rewrite connectedUsers_removeUserFromTeams, lookup_delete_ne by done. by eapply Hc.
  - intros k id'. rewrite members_disconnect, SocketFacts.removeUserFromTeams_members.
    intros [Hin Hne]. rewrite room_members_disconnect.
    apply elem_of_difference. split; [by apply Hr|]. by rewrite elem_of_singleton.
  - intros r id'. rewrite room_members_disconnect. intros [Hin _]%elem_of_difference.
    by eapply Hn.
Qed.

Lemma members_sweep_entry live st id k id' :
  id' ∈ members k (teamMembers (sweep_entry live st id))
  <-> id' ∈ members k (teamMembers st) /\ ~ (id' = id /\ live id = false).
Proof.
  unfold sweep_entry. destruct (live id) eqn:E.
  - intuition congruence.
  - rewrite SocketFacts.removeUserFromTeams_members. cbn [teamMembers]. intuition.
Qed.

Lemma users_sweep_entry live st id id' :
  connectedUsers (sweep_entry live st id) !! id'
  = if decide (id' = id /\ live id = false) then None else connectedUsers st !! id'.
Proof.
  unfold sweep_entry. destruct (live id) eqn:E.
  - rewrite decide_False; [done|]. by intros [_ ?].
  - rewrite connectedUsers_removeUserFromTeams. cbn [connectedUsers].
    destruct (decide (id' = id)) as [->|Hne].
    + rewrite decide_True by done. apply lookup_delete_eq.
    + rewrite decide_False by (by intros [? _]). by apply lookup_delete_ne.
Qed.

Lemma rooms_sweep_entry live st id : rooms (sweep_entry live st id) = rooms st.
Proof.
  unfold sweep_entry. destruct (live id); [done|].
  by rewrite SocketFacts.removeUserFromTeams_rooms.
Qed.

Lemma fold_sweep live (l : list string) : forall st,
  (forall k id',
      id' ∈ members k (teamMembers (fold_left (sweep_entry live) l st))
      <-> id' ∈ members k (teamMembers st) /\ ~ (id' ∈ l /\ live id' = false))
  /\ (forall id',
        connectedUsers (fold_left (sweep_entry live) l st) !! id'
        = if decide (id' ∈ l /\ live id' = false) then None else connectedUsers st !! id')
  /\ rooms (fold_left (sweep_entry live) l st) = rooms st
  /\ userIdentities (fold_left (sweep_entry live) l st) = userIdentities st.
Proof.
  induction l as [|id l IH]; intros st; cbn [fold_left].
  - split; [|split; [|done]].
    + intros k id'. rewrite elem_of_nil. tauto.
    + intros id'. rewrite decide_False; [done|]. rewrite elem_of_nil. tauto.
  - destruct (IH (sweep_entry live st id)) as (M & U & R & I). split; [|split; [|split]].
    + intros k id'. rewrite M, members_sweep_entry, elem_of_cons. intuition congruence.
    + intros id'. rewrite U, users_sweep_entry.
      repeat case_decide; try done; rewrite elem_of_cons in *; intuition congruence.
    + by rewrite R, rooms_sweep_entry.
    + rewrite I. unfold sweep_entry. destruct (live id); [done|].
      by rewrite userIdentities_removeUserFromTeams.
Qed.

Lemma elem_of_connected (st : State) id :
  id ∈ (map_to_list (connectedUsers st)).*1 <-> is_Some (connectedUsers st !! id).
Proof.
  rewrite list_elem_of_fmap. split.
  - intros ([id' info] & -> & Hin). apply elem_of_map_to_list in Hin. eauto.
  - intros [info Hinfo]. exists (id, info). split; [done|]. by apply elem_of_map_to_list.
Qed.

Lemma consistent_sweep live st : consistent st -> consistent (sweep live st).
Proof.
  intros [Hc Hr Hn]. unfold sweep.
  destruct (fold_sweep live (map_to_list (connectedUsers st)).*1 st) as (M & U & R & _).
  split.
  - intros k id'. rewrite M, U. intros [Hin Hnot]. rewrite decide_False by done. by eapply Hc.
  - intros k id'. rewrite M. intros [Hin _]. unfold room_members. rewrite R. by apply Hr.
  - intros r id'. unfold room_members. rewrite R. apply Hn.
Qed.

Lemma consistent_step st e : consistent st -> consistent (step st e).
Proof.
  intros Hst. destruct e; simpl.
  - by apply consistent_connection.
  - by apply consistent_register.
  - by apply consistent_disconnect.
  - by apply consistent_sweep.
Qed.

Lemma consistent_fold events : forall st, consistent st -> consistent (fold_left step events st).
Proof.
  induction events as [|e events IH]; intros st Hst; simpl; [done|].
  by apply IH, consistent_step.
Qed.


(** ** Leaving *)

Lemma userIdentities_join_team name id st :
  userIdentities (join_team name id st).1 = userIdentities st.
Proof. unfold join_team. by destruct (teamMembers_get _). Qed.

Lemma connectedUsers_join_team name id st :
  connectedUsers (join_team name id st).1 = connectedUsers st.
Proof. unfold join_team. by destruct (teamMembers_get _). Qed.

Lemma tables_addUserToTeams id info st :
  userIdentities (addUserToTeams id info st).1 = userIdentities st
  /\ connectedUsers (addUserToTeams id info st).1 = connectedUsers st.
Proof.
  unfold addUserToTeams.
  set (st1 := if is_privileged (role info)
              then join "dispatchers" id (add_member Dispatchers id st) else st).
  assert (userIdentities st1 = userIdentities st /\ connectedUsers st1 = connectedUsers st)
    as [I1 C1] by (subst st1; by destruct (is_privileged _)).
  clearbody st1.
  destruct (match team info with
            | Some t => if Js.truthy (Some t) then join_team t id st1 else (st1, None)
            | None => (st1, None)
            end) as [st2 thrown2] eqn:E2.
  assert (userIdentities st2 = userIdentities st1 /\ connectedUsers st2 = connectedUsers st1)
    as [I2 C2].
  { destruct (team info) as [t|]; [destruct (Js.truthy (Some t))|].
    - pose proof (userIdentities_join_team t id st1) as Hi.
      pose proof (connectedUsers_join_team t id st1) as Hc. by rewrite E2 in Hi, Hc.
    - by injection E2 as <- <-.
    - by injection E2 as <- <-. }
  destruct thrown2 as [e|]; [by rewrite <- I1, <- C1|].
  destruct (teamType info) as [ty|]; [|by rewrite <- I1, <- C1].
  destruct (Js.truthy (Some ty) && negb (same_string (Some ty) (team info)));
    [|by rewrite <- I1, <- C1].
  rewrite userIdentities_join_team, connectedUsers_join_team. by rewrite <- I1, <- C1.
Qed.

(** X14. After [disconnect] nothing of the registry but the identity
    map knows the connection: it is no connected user, it is in no set of
    [teamMembers] and in no room, and every other connection is where it
    was. The map [userIdentities] is left as it was: a user id that the
    connection registered still maps to it. *)
Theorem X14_disconnect_forgets_the_connection_but_not_its_identity id st :
  connectedUsers (disconnect id st) !! id = None
  /\ (forall k, id ∉ members k (teamMembers (disconnect id st)))
  /\ (forall r, id ∉ room_members r (disconnect id st))
  /\ (forall id', id' <> id ->
        connectedUsers (disconnect id st) !! id' = connectedUsers st !! id'
        /\ (forall k, id' ∈ members k (teamMembers (disconnect id st))
                      <-> id' ∈ members k (teamMembers st))
        /\ (forall r, id' ∈ room_members r (disconnect id st) <-> id' ∈ room_members r st))
  /\ userIdentities (disconnect id st) = userIdentities st
  /\ (forall now ud uid,
        UserData.userId ud = Some uid ->
        Js.truthy (Some uid) = true ->
        userIdentities (disconnect id (register id now ud st).1) !! uid = Some id).
Proof.
  split; [|split; [|split; [|split; [|split]]]].
  - unfold disconnect. cbn [connectedUsers]. apply lookup_delete_eq.
  - intros k. rewrite members_disconnect, SocketFacts.removeUserFromTeams_members. tauto.
  - intros r. rewrite room_members_disconnect, elem_of_difference, elem_of_singleton. tauto.
  - intros id' Hne. split; [|split].
    + unfold disconnect. cbn [connectedUsers].
      by rewrite connectedUsers_removeUserFromTeams, lookup_delete_ne.
    + intros k. rewrite members_disconnect, SocketFacts.removeUserFromTeams_members. tauto.
    + intros r. rewrite room_members_disconnect, elem_of_difference, elem_of_singleton. tauto.
  - unfold disconnect. cbn [userIdentities]. apply userIdentities_removeUserFromTeams.
  - intros now ud uid Huid Ht. unfold disconnect. cbn [userIdentities].
    rewrite userIdentities_removeUserFromTeams. unfold register.
    rewrite (proj1 (tables_addUserToTeams _ _ _)). unfold set_user. cbn [userIdentities].
    unfold make_userInfo. cbn [userId]. rewrite Huid. unfold Js.or_else. rewrite Ht.
    apply lookup_insert_eq.
Qed.

(** X15. The sweep evicts exactly the registered connections that are
    no longer live: afterwards the connected users are those that were
    connected and are live, a connection is in a set of [teamMembers] if
    it was and is not a dead connected user, and the rooms and the
    identity map are untouched. In every state the server reaches, the
    sets hold exactly their live members. *)
Theorem X15_sweep_evicts_exactly_the_dead live st :
  (forall id,
      connectedUsers (sweep live st) !! id
      = if live id then connectedUsers st !! id else None)
  /\ (forall k id,
        id ∈ members k (teamMembers (sweep live st))
        <-> id ∈ members k (teamMembers st)
            /\ ~ (is_Some (connectedUsers st !! id) /\ live id = false))
  /\ rooms (sweep live st) = rooms st
  /\ userIdentities (sweep live st) = userIdentities st
  /\ (forall events k id,
        id ∈ members k (teamMembers (sweep live (run events)))
        <-> id ∈ members k (teamMembers (run events)) /\ live id = true).
Proof.
  assert (forall st' k id,
            id ∈ members k (teamMembers (sweep live st'))
            <-> id ∈ members k (teamMembers st')
                /\ ~ (is_Some (connectedUsers st' !! id) /\ live id = false)) as HM.
  { intros st' k id. unfold sweep.
    destruct (fold_sweep live (map_to_list (connectedUsers st')).*1 st') as (M & _).
    by rewrite M, elem_of_connected. }
  unfold sweep.
  destruct (fold_sweep live (map_to_list (connectedUsers st)).*1 st) as (M & U & R & I).
  split; [|split; [|split; [|split]]].
  - intros id. rewrite U. destruct (live id) eqn:E.
    + rewrite decide_False; [done|]. by intros [_ ?].
    + case_decide as H; [done|]. rewrite elem_of_connected in H.
      destruct (connectedUsers st !! id) eqn:El; [|done]. destruct H. eauto.
  - apply HM.
  - done.
  - done.
  - intros events k id. fold (sweep live (run events)). rewrite HM. split.
    + intros [Hin Hnot]. split; [done|].
      destruct (live id) eqn:E; [done|]. destruct Hnot. split; [|done].
      by apply (members_connected _ (consistent_fold events _ consistent_initial) k).
    + intros [Hin Hl]. split; [done|]. intros [_ ?]. congruence.
Qed.

(** ** The other order events *)

Lemma order_update_targets id now d st o :
  Updated.order d = Some o ->
  order_update id now d st
  = (map (fun team =>
            {| sent_to := Room team; sent_event := "order-updated";
               sent_data := OrderUpdated o (connectedUsers st !! id) (Updated.teamType d)
                              (Js.or_else (Updated.timestamp d) now)
                              (teams_of_details (Payload.order_details o)) |})
       (teams_of_details (Payload.order_details o))
     ++ [ {| sent_to := Room "dispatchers"; sent_event := "order-updated";
             sent_data := OrderUpdated o (connectedUsers st !! id) (Updated.teamType d)
                            (Js.or_else (Updated.timestamp d) now)
                            (teams_of_details (Payload.order_details o)) |};
          {| sent_to := Socket id; sent_event := "order-update-confirmed";
             sent_data := UpdateConfirmed (Payload._id o) "delivered" now |} ],
     None).
Proof. intros Ho. unfold order_update. by rewrite Ho. Qed.

(** X16. [order-update] and [create-order] agree on whom to tell only
    while the order has items. For the same order, with no explicit
    groups on [create-order], both address the rooms of the non-empty
    sections, then the dispatchers, then the sender; the sender's team
    type plays no part. For an order without items [order-update]
    addresses the dispatchers and the sender only, where [create-order]
    adds the room unassigned. Without an order [create-order] answers the
    sender with an error event, where [order-update] throws and emits
    nothing. *)
Theorem X16_order_update_against_create_order id now st :
  (forall o d c,
      Updated.order d = Some o ->
      Payload.order c = Some o ->
      no_explicit_groups c ->
      teams_of_details (Payload.order_details o) <> [] ->
      map sent_to (order_update id now d st).1 = map to (create_order id now c st)
      /\ (order_update id now d st).2 = None)
  /\ (forall o d c,
        Updated.order d = Some o ->
        Payload.order c = Some o ->
        no_explicit_groups c ->
        teams_of_details (Payload.order_details o) = [] ->
        map sent_to (order_update id now d st).1 = [Room "dispatchers"; Socket id]
        /\ map to (create_order id now c st)
           = [Room "unassigned"; Room "dispatchers"; Socket id])
  /\ (forall d c,
        Updated.order d = None ->
        Payload.order c = None ->
        order_update id now d st = ([], Some reading_undefined)
        /\ map to (create_order id now c st) = [Socket id]).
Proof.
  assert (forall o d, Updated.order d = Some o ->
            map sent_to (order_update id now d st).1
            = map Room (teams_of_details (Payload.order_details o))
              ++ [Room "dispatchers"; Socket id]) as Hup.
  { intros o d Ho. rewrite (order_update_targets _ _ _ _ _ Ho). cbn [fst].
    by rewrite map_app, map_map. }
  assert (forall o c, Payload.order c = Some o -> no_explicit_groups c ->
            map to (create_order id now c st)
            = map Room (match teams_of_details (Payload.order_details o) with
                        | [] => ["unassigned"%string]
                        | teams => teams
                        end)
              ++ [Room "dispatchers"; Socket id]) as Hcr.
  { intros o c Ho Hnone. rewrite (RouterClaims.create_order_emits _ _ _ _ _ Ho). cbn zeta.
    rewrite map_app, RouterClaims.map_to_order_emit. unfold create_targetTeams.
    rewrite (RouterClaims.explicit_or_derived_none _ _ Hnone).
    destruct (teams_of_details (Payload.order_details o)) eqn:E; [done|].
    by rewrite <- E, RouterClaims.teams_of_details_normalized. }
  split; [|split].
  - intros o d c Hd Hc Hnone Hne. split.
    + rewrite (Hup _ _ Hd), (Hcr _ _ Hc Hnone).
      by destruct (teams_of_details (Payload.order_details o)).
    + by rewrite (order_update_targets _ _ _ _ _ Hd).
  - intros o d c Hd Hc Hnone He. by rewrite (Hup _ _ Hd), (Hcr _ _ Hc Hnone), He.
  - intros d c Hd Hc. unfold order_update, create_order. by rewrite Hd, Hc.
Qed.




(** ** From registration to delivery *)

(** X18. A registration makes the connection a recipient of the orders
    meant for it. After [register] with a team that names no inherited
    property, a connection whose team or team type normalizes to glass,
    cap, box or pump is among the recipients of a [new-order] emission of
    every [create-order], from any sender, for an order that has items in
    that team's section and no explicit groups; and a connection that
    declared itself dispatcher or admin is among the recipients of a
    [new-order] emission of every [create-order] that has an order. *)
Theorem X18_registered_connections_receive_their_orders id now ud st :
  plain_team (UserData.team ud) ->
  (forall k sender now' d o,
      declared ud k ->
      Payload.order d = Some o ->
      no_explicit_groups d ->
      In (key_name k) (teams_of_details (Payload.order_details o)) ->
      exists e,
        In e (create_order sender now' d (register id now ud st).1)
        /\ event e = "new-order"%string
        /\ to e = Room (key_name k)
        /\ id ∈ recipients (register id now ud st).1 e)
  /\ (forall sender now' d o,
        declared ud Dispatchers ->
        Payload.order d = Some o ->
        exists e,
          In e (create_order sender now' d (register id now ud st).1)
          /\ event e = "new-order"%string
          /\ to e = Room "dispatchers"
          /\ id ∈ recipients (register id now ud st).1 e).
Proof.
  intros Hplain.
  destruct (SocketFacts.register_spec id now ud st Hplain) as [_ R].
  assert (forall k, declared ud k ->
            id ∈ room_members (key_name k) (register id now ud st).1) as Hroom.
  { intros k Hk. apply R. right. split; [done|]. by exists k. }
  split.
  - intros k sender now' d o Hk Ho Hnone Hin.
    rewrite (RouterClaims.create_order_emits _ _ _ _ _ Ho). cbn zeta.
    assert (In (key_name k) (map Js.normalize (create_targetTeams (Payload.teamTypes d) o)))
      as Hin'.
    { unfold create_targetTeams. rewrite (RouterClaims.explicit_or_derived_none _ _ Hnone).
      destruct (teams_of_details (Payload.order_details o)) eqn:E; [done|].
      by rewrite <- E, RouterClaims.teams_of_details_normalized, E. }
    eexists. split; [apply in_app_iff; left; apply in_map_iff; eexists; split; [reflexivity|exact Hin']|].
    split; [done|]. split; [done|]. by apply Hroom.
  - intros sender now' d o Hk Ho.
    rewrite (RouterClaims.create_order_emits _ _ _ _ _ Ho). cbn zeta.
    eexists. split; [apply in_app_iff; right; left; reflexivity|].
    split; [done|]. split; [done|]. by apply (Hroom Dispatchers).
Qed.

Lemma X18_witness :
  exists e,
    In e (create_order "s0" "t1" (SocketSamples.event_for SocketSamples.glass_only)
            (register "s1" "t0" (SocketSamples.worker "Glass ") initial).1)
    /\ event e = "new-order"%string
    /\ to e = Room (key_name Glass)
    /\ "s1"%string ∈ recipients (register "s1" "t0" (SocketSamples.worker "Glass ") initial).1 e.
Proof.
  apply (proj1 (X18_registered_connections_receive_their_orders "s1" "t0"
                  (SocketSamples.worker "Glass ") initial
                  (RegistryClaims.plain_team_of_key Glass "Glass " eq_refl))
           Glass "s0"%string "t1"%string (SocketSamples.event_for SocketSamples.glass_only)
           SocketSamples.glass_only).
  - right. left. reflexivity.
  - reflexivity.
  - by left.
  - simpl. by left.
Defined.

(** ** One identity, two connections *)

Lemma register_tables id now ud st :
  connectedUsers (register id now ud st).1
  = <[id := make_userInfo id (Js.or_else (UserData.userId ud) id) now ud]> (connectedUsers st)
  /\ userIdentities (register id now ud st).1
     = <[Js.or_else (UserData.userId ud) id := id]> (userIdentities st).
Proof.
  unfold register. destruct (tables_addUserToTeams id
    (make_userInfo id (Js.or_else (UserData.userId ud) id) now ud)
    (set_user id (make_userInfo id (Js.or_else (UserData.userId ud) id) now ud)
       (removeUserFromTeams id st))) as [-> ->].
  unfold set_user. cbn [connectedUsers userIdentities userId make_userInfo].
  by rewrite connectedUsers_removeUserFromTeams, userIdentities_removeUserFromTeams.
Qed.

(** X19. The user id is no key of the registry: when two connections
    register with the same user id, both stay connected users under that
    id and both are in the sets their identities declare, while
    [userIdentities] maps the user id to the connection that registered
    last. A connection that gives no user id is registered under its own
    socket id. *)
Theorem X19_two_connections_may_share_a_user_id id1 id2 now1 now2 ud1 ud2 uid st :
  id1 <> id2 ->
  UserData.userId ud1 = Some uid ->
  UserData.userId ud2 = Some uid ->
  Js.truthy (Some uid) = true ->
  plain_team (UserData.team ud1) ->
  plain_team (UserData.team ud2) ->
  let st' := (register id2 now2 ud2 (register id1 now1 ud1 st).1).1 in
  userIdentities st' !! uid = Some id2
  /\ (userId <$> connectedUsers st' !! id1) = Some uid
  /\ (userId <$> connectedUsers st' !! id2) = Some uid
  /\ (forall k, id1 ∈ members k (teamMembers st') <-> declared ud1 k)
  /\ (forall k, id2 ∈ members k (teamMembers st') <-> declared ud2 k)
  /\ (forall id now ud st0,
        Js.truthy (UserData.userId ud) = false ->
        (userId <$> connectedUsers (register id now ud st0).1 !! id) = Some id).
Proof.
  intros Hne Hu1 Hu2 Ht Hp1 Hp2 st'.
  assert (Js.or_else (Some uid) id1 = uid /\ Js.or_else (Some uid) id2 = uid) as [Ho1 Ho2]
    by (unfold Js.or_else; by rewrite Ht).
  destruct (register_tables id2 now2 ud2 (register id1 now1 ud1 st).1) as [C2 I2].
  destruct (register_tables id1 now1 ud1 st) as [C1 I1].
  destruct (SocketFacts.register_spec id2 now2 ud2 (register id1 now1 ud1 st).1 Hp2) as [M2 _].
  destruct (SocketFacts.register_spec id1 now1 ud1 st Hp1) as [M1 _].
  subst st'. rewrite C2, I2, C1, Hu1, Hu2, Ho1, Ho2.
  split; [apply lookup_insert_eq|]. split; [|split; [|split; [|split]]].
  - rewrite lookup_insert_ne by done. by rewrite lookup_insert_eq.
  - by rewrite lookup_insert_eq.
  - intros k. rewrite M2, M1. intuition congruence.
  - intros k. rewrite M2. intuition congruence.
  - intros id now ud st0 Hf. destruct (register_tables id now ud st0) as [-> _].
    rewrite lookup_insert_eq. cbn. unfold Js.or_else.
    destruct (UserData.userId ud); [by rewrite Hf | done].
Qed.

Lemma X19_witness :
  let st' := (register "s2" "t1" (SocketSamples.worker "cap")
                (register "s1" "t0" (SocketSamples.worker "glass") initial).1).1 in
  userIdentities st' !! "u1"%string = Some "s2"%string
  /\ (userId <$> connectedUsers st' !! "s1"%string) = Some "u1"%string
  /\ (userId <$> connectedUsers st' !! "s2"%string) = Some "u1"%string
  /\ (forall k, "s1"%string ∈ members k (teamMembers st')
                <-> declared (SocketSamples.worker "glass") k)
  /\ (forall k, "s2"%string ∈ members k (teamMembers st')
                <-> declared (SocketSamples.worker "cap") k)
  /\ (forall id now ud st0,
        Js.truthy (UserData.userId ud) = false ->
        (userId <$> connectedUsers (register id now ud st0).1 !! id) = Some id).
Proof.
  apply (X19_two_connections_may_share_a_user_id "s1" "s2" "t0" "t1"
           (SocketSamples.worker "glass") (SocketSamples.worker "cap") "u1" initial);
    try reflexivity; try done.
  - by apply (RegistryClaims.plain_team_of_key Glass).
  - by apply (RegistryClaims.plain_team_of_key Cap).
Defined.

End SocketExtras.

(** * Properties of the merge step of [updateOrder] *)

Module MergeExtras.

Import OrderMerge.

Section Merge.

Context {Item : Type} (field : Item -> string -> option string).

Lemma processSection_spec key (newItems merged : option (list Item)) :
  processSection Item field key newItems merged
  = match List.filter (is_valid Item field key) (default [] newItems) with
    | [] => merged
    | validItems => Some validItems
    end.
Proof. by destruct newItems as [[|first others]|]. Qed.

Lemma get_merged key (existing new : Details Item) :
  get key (mergedOrderDetails Item field existing new)
  = processSection Item field key (get key new) (get key existing).
Proof. by destruct key. Qed.

(** X20. The merge of [updateOrder] replaces a section or keeps it,
    never anything in between: the merged section is the list of the
    valid items of the request, in their order, when there is at least
    one, and the existing section otherwise. So a request cannot empty a
    section, a section that is replaced holds the items of the request
    and no others, merging the same request twice changes nothing more,
    and if the stored items are valid so are the merged ones. *)
Theorem X20_merge_replaces_or_keeps_each_section key (existing new : Details Item) :
  let merged := mergedOrderDetails Item field existing new in
  (valid_items Item field key new = [] -> get key merged = get key existing)
  /\ (valid_items Item field key new <> [] ->
      get key merged = Some (valid_items Item field key new))
  /\ (forall items, get key existing = Some items -> items <> [] ->
        exists items', get key merged = Some items' /\ items' <> [])
  /\ mergedOrderDetails Item field merged new = merged
  /\ ((forall items item, get key existing = Some items -> In item items ->
         is_valid Item field key item = true) ->
      forall items item, get key merged = Some items -> In item items ->
        is_valid Item field key item = true).
Proof.
  intros merged. subst merged.
  assert (forall k, get k (mergedOrderDetails Item field existing new)
            = match valid_items Item field k new with
              | [] => get k existing
              | validItems => Some validItems
              end) as Hget.
  { intros k. rewrite get_merged, processSection_spec. done. }
  split; [|split; [|split; [|split]]].
  - intros Hnone. by rewrite Hget, Hnone.
  - intros Hsome. rewrite Hget. by destruct (valid_items Item field key new).
  - intros items Hex Hne. rewrite Hget.
    destruct (valid_items Item field key new) eqn:E; eauto.
  - assert (forall k n (m : option (list Item)),
              processSection Item field k n (processSection Item field k n m)
              = processSection Item field k n m) as Hidem.
    { intros k n m. rewrite !processSection_spec.
      by destruct (List.filter (is_valid Item field k) (default [] n)). }
    unfold mergedOrderDetails. cbn [caps glass boxes pumps]. by rewrite !Hidem.
  - intros Hvalid items item. rewrite Hget.
    destruct (valid_items Item field key new) eqn:E.
    + apply Hvalid.
    + intros [= <-] Hin. rewrite <- E in Hin. unfold valid_items in Hin.
      by apply filter_In in Hin as [_ ?].
Qed.

End Merge.

Lemma X20_witness :
  get KCaps
    (mergedOrderDetails (gmap string string) sample_field
       {| caps := Some [ {[ "cap_name"%string := "flip"%string; "neck_size"%string := "24"%string ]} ];
          glass := Some [ named "glass_name" "amber" ];
          boxes := Some []; pumps := Some [] |}
       {| caps := Some [ {[ "cap_name"%string := "N/A"%string; "neck_size"%string := "-"%string ]} ];
          glass := Some [ named "glass_name" "N/A"; named "glass_name" "clear" ];
          boxes := None; pumps := None |})
  = Some [ {[ "cap_name"%string := "flip"%string; "neck_size"%string := "24"%string ]} ].
Proof.
  refine (proj1 (X20_merge_replaces_or_keeps_each_section sample_field KCaps
    {| caps := Some [ {[ "cap_name"%string := "flip"%string; "neck_size"%string := "24"%string ]} ];
       glass := Some [ named "glass_name" "amber" ];
       boxes := Some []; pumps := Some [] |}
    {| caps := Some [ {[ "cap_name"%string := "N/A"%string; "neck_size"%string := "-"%string ]} ];
       glass := Some [ named "glass_name" "N/A"; named "glass_name" "clear" ];
       boxes := None; pumps := None |}) _).
  vm_compute. reflexivity.
Defined.

End MergeExtras.

(** * Properties of the events of the user-keyed server *)

Module UserKeyedExtras.

Import SocketServer.
Import UserKeyedServer.
Import UserKeyedEvents.

Lemma roomSize_spec team st : roomSize team st = size (room_members team st).
Proof.
  unfold roomSize, room_members. destruct (rooms st !! team); [done|].
  symmetry. apply size_empty.
Qed.

Lemma roomSize_zero team st s : roomSize team st = 0 -> s ∉ room_members team st.
Proof.
  rewrite roomSize_spec. intros H%size_empty_inv Hs.
  apply H in Hs. by apply not_elem_of_empty in Hs.
Qed.

Lemma roomSize_member team st s : s ∈ room_members team st -> 0 < roomSize team st.
Proof.
  intros Hs. destruct (roomSize team st) eqn:E; [|lia].
  by apply roomSize_zero with (s := s) in E.
Qed.

Lemma deliveries_app name s st l1 l2 :
  deliveries name s st (l1 ++ l2) = deliveries name s st l1 + deliveries name s st l2.
Proof. unfold deliveries. by rewrite filter_app, length_app. Qed.

Lemma deliveries_cons name s st e l :
  deliveries name s st (e :: l)
  = (if decide (event e = name /\ s ∈ recipients st e) then 1 else 0)
    + deliveries name s st l.
Proof. unfold deliveries. rewrite filter_cons. by case_decide. Qed.

Lemma deliveries_nil name s st : deliveries name s st [] = 0.
Proof. done. Qed.

Lemma deliveries_other name s st l :
  (forall e, e ∈ l -> event e <> name) -> deliveries name s st l = 0.
Proof.
  induction l as [|e l IH]; intros H; [done|].
  rewrite deliveries_cons, IH.
  - case_decide as Hd; [|done]. destruct Hd as [Hd _]. by apply H in Hd; [|left].
  - intros e' He'. apply H. by right.
Qed.

Lemma derived_teams_NoDup details : NoDup (teams_of_details details).
Proof.
  destruct details as [d|]; [|constructor]. unfold teams_of_details.
  destruct (non_empty (Payload.glass d)), (non_empty (Payload.caps d)),
    (non_empty (Payload.boxes d)), (non_empty (Payload.pumps d));
    apply (bool_decide_unpack _); vm_compute; exact I.
Qed.

Lemma remove_dups_NoDup (l : list string) : NoDup l -> remove_dups l = l.
Proof.
  induction 1 as [|x l Hx _ IH]; [done|].
  cbn [remove_dups]. destruct (decide_rel elem_of x l); [done|]. by rewrite IH.
Qed.

Lemma teams_of_details_rooms details team :
  team ∈ teams_of_details details -> In team teamRooms.
Proof.
  destruct details as [d|]; [|by intros ?%elem_of_nil]. unfold teams_of_details.
  rewrite !elem_of_app.
  destruct (non_empty (Payload.glass d)), (non_empty (Payload.caps d)),
    (non_empty (Payload.boxes d)), (non_empty (Payload.pumps d));
    rewrite ?elem_of_cons, ?elem_of_nil; unfold teamRooms; simpl; intuition.
Qed.

Lemma normalize_teamRooms team : In team teamRooms -> Js.normalize team = team.
Proof. unfold teamRooms. simpl. intuition; subst; reflexivity. Qed.

Lemma create_targetTeams_derived teamTypes o :
  teamTypes = None \/ teamTypes = Some [] ->
  teams_of_details (Payload.order_details o) <> [] ->
  map Js.normalize (create_targetTeams teamTypes o) = teams_of_details (Payload.order_details o).
Proof.
  intros Hno Hne.
  assert (create_targetTeams teamTypes o = teams_of_details (Payload.order_details o)) as ->.
  { unfold create_targetTeams.
    destruct Hno as [->| ->]; rewrite remove_dups_NoDup by apply derived_teams_NoDup;
      by destruct (teams_of_details (Payload.order_details o)). }
  assert (forall l : list string, (forall t, t ∈ l -> Js.normalize t = t) ->
            map Js.normalize l = l) as Hmap.
  { induction l as [|t l IH]; intros H; [done|]. cbn [map].
    rewrite H by left. rewrite IH; [done|]. intros t' Ht'. apply H. by right. }
  apply Hmap. intros t Ht. by apply normalize_teamRooms, teams_of_details_rooms with (details := Payload.order_details o).
Qed.

(** The emissions of [create-order] to the team rooms: a connection gets
    one for every listed name whose room it is in. *)
Lemma deliveries_guarded s st payload teams :
  deliveries "new-order" s st
    (flat_map (fun team =>
                 if bool_decide (0 < roomSize team st)
                 then [ {| to := Room team; event := "new-order"; data := payload |} ]
                 else []) teams)
  = length (filter (fun team => s ∈ room_members team st) teams).
Proof.
  induction teams as [|team teams IH]; [done|].
  cbn [flat_map]. rewrite deliveries_app, IH, filter_cons.
  case_bool_decide as Hsize.
  - rewrite deliveries_cons, deliveries_nil. cbn [event recipients to].
    case_decide as Hd; case_decide as Hs; cbn [length]; try lia.
    + by destruct Hd.
    + by destruct Hd.
  - rewrite deliveries_nil. rewrite decide_False; [done|].
    intros Hs. by apply roomSize_member in Hs.
Qed.

Lemma deliveries_create_order sender user clock d o st s :
  Payload.order d = Some o ->
  deliveries "new-order" s st (create_order sender user clock d st)
  = length (filter (fun team => s ∈ room_members team st)
              (map Js.normalize (create_targetTeams (Payload.teamTypes d) o)))
    + (if decide (s ∈ room_members "dispatchers" st) then 1 else 0).
Proof.
  intros Ho. unfold create_order. rewrite Ho.
  rewrite deliveries_app, deliveries_guarded, !deliveries_cons, deliveries_nil.
  cbn [event recipients to].
  rewrite (decide_False (P := "order-create-confirmed"%string = "new-order"%string /\ _))
    by (by intros [? _]).
  case_decide as Hd; case_decide as Hs; try lia.
  - by destruct Hd.
  - by destruct Hd.
Qed.

(** X21. [create-order] with an order, in any state of the rooms. A
    connection receives [new-order] once for every occurrence, in the
    normalized target list, of a room it is in, and once more if it is in
    [dispatchers]: skipping the rooms without members loses no delivery,
    and a connection in several target rooms gets several copies. No team
    room without members is emitted to. Whoever received it, the sender
    gets exactly one emission, the confirmation with the status
    [delivered] and every target name. *)
Theorem X21_new_order_is_delivered_once_per_room sender user clock d o st :
  Payload.order d = Some o ->
  let normalizedTeams := map Js.normalize (create_targetTeams (Payload.teamTypes d) o) in
  let emits := create_order sender user clock d st in
  (forall s, deliveries "new-order" s st emits
     = length (filter (fun team => s ∈ room_members team st) normalizedTeams)
       + (if decide (s ∈ room_members "dispatchers" st) then 1 else 0))
  /\ (forall e, e ∈ emits -> event e = "new-order"%string -> recipients st e = ∅ ->
        to e = Room "dispatchers")
  /\ filter (fun e => to e = Socket sender) emits
     = [ {| to := Socket sender; event := "order-create-confirmed";
            data := CreateConfirmed (Payload._id o) (Payload.order_number o)
                      "delivered" normalizedTeams (clock 1) |} ].
Proof.
  intros Ho normalizedTeams emits. split; [|split].
  - intros s. by apply deliveries_create_order.
  - subst emits. unfold create_order. rewrite Ho. fold normalizedTeams.
    intros e [He|He]%elem_of_app _ Hnone.
    + apply list_elem_of_In, in_flat_map in He as (team & _ & He).
      case_bool_decide as Hsize; [|done].
      destruct He as [<-|[]]. cbn [recipients to] in Hnone.
      rewrite roomSize_spec, Hnone, size_empty in Hsize. lia.
    + apply elem_of_cons in He as [->|He]; [done|].
      apply list_elem_of_singleton in He as ->. cbn [recipients to] in Hnone.
      exfalso. eapply (not_elem_of_empty (C := gset string)). rewrite <- Hnone.
      by apply elem_of_singleton.
  - subst emits. unfold create_order. rewrite Ho. fold normalizedTeams.
    rewrite filter_app.
    assert (filter (fun e => to e = Socket sender)
              (flat_map (fun team =>
                 if bool_decide (0 < roomSize team st)
                 then [ {| to := Room team; event := "new-order";
                           data := NewOrder o user (Js.or_else (Payload.timestamp d) (clock 0))
                                     normalizedTeams |} ]
                 else []) normalizedTeams) = []) as ->.
    { generalize normalizedTeams at 2. intros l.
      induction l as [|team l IH]; [done|].
      cbn [flat_map]. rewrite filter_app, IH. case_bool_decide; [|done].
      rewrite filter_cons. by rewrite decide_False. }
    rewrite app_nil_l, filter_cons, decide_False by done.
    rewrite filter_cons, decide_True by done. done.
Qed.


Lemma X21_witness :
  deliveries "new-order" "s1"
    (register "s1" (SocketSamples.keyed_user "admin" "Glass ") initial).1
    (create_order "s9" None (fun _ => "2025-01-01T00:00:00.000Z"%string)
       (SocketSamples.event_for SocketSamples.glass_only)
       (register "s1" (SocketSamples.keyed_user "admin" "Glass ") initial).1)
  = 2.
Proof.
  destruct (X21_new_order_is_delivered_once_per_room "s9" None
              (fun _ => "2025-01-01T00:00:00.000Z"%string)
              (SocketSamples.event_for SocketSamples.glass_only)
              SocketSamples.glass_only
              (register "s1" (SocketSamples.keyed_user "admin" "Glass ") initial).1
              eq_refl) as (Hcount & _ & _).
  rewrite Hcount. vm_compute. reflexivity.
Defined.

Lemma rooms_register_team id info t st :
  rooms (register_team id info t st).1 = rooms (join (Js.normalize t) id st).
Proof.
  unfold register_team. destruct (teams (join (Js.normalize t) id st) !! Js.normalize t); [done|].
  by destruct (Js.is_inherited (Js.normalize t)).
Qed.

Lemma dispatchers_register_team id info t st :
  dispatchers (register_team id info t st).1 = dispatchers st.
Proof.
  unfold register_team. destruct (teams (join (Js.normalize t) id st) !! Js.normalize t); [done|].
  by destruct (Js.is_inherited (Js.normalize t)).
Qed.

Lemma register_team_entry id info t st :
  (register_team id info t st).2 = None ->
  team_users (Js.normalize t) (register_team id info t st).1 !! userId info = Some info.
Proof.
  unfold register_team, team_users.
  destruct (teams (join (Js.normalize t) id st) !! Js.normalize t).
  - intros _. cbn [fst teams]. rewrite lookup_insert_eq. simpl. apply lookup_insert_eq.
  - destruct (Js.is_inherited (Js.normalize t)); [done|].
    intros _. cbn [fst teams]. rewrite lookup_insert_eq. simpl. apply lookup_insert_eq.
Qed.

(** An admin is put in [dispatchers] and in the four team rooms, whatever
    comes of its team. *)
Lemma register_admin_member id ud st r :
  UserData.role ud = Some "admin"%string ->
  In r ("dispatchers"%string :: teamRooms) ->
  id ∈ room_members r (register id ud st).1.
Proof.
  intros Hrole Hr. unfold register. rewrite bool_decide_eq_true_2 by done.
  set (info := {| socketId := id; userId := UserData.userId ud; role := UserData.role ud;
                  team := UserData.team ud; connected := true |}).
  assert (id ∈ room_members r (register_admin id info (join "all-teams" id st))) as Hin.
  { apply UserKeyedFacts.register_admin_rooms. by right. }
  assert (forall t, id ∈ room_members r (register_team id info t
                      (register_admin id info (join "all-teams" id st))).1) as Hteam.
  { intros t. unfold room_members. rewrite rooms_register_team.
    apply UserKeyedFacts.elem_of_user_room_join. by left. }
  destruct (UserData.team ud) as [t|]; [|done].
  destruct (Js.truthy (Some t)); [apply Hteam | done].
Qed.

Lemma filter_all {A} (P : A -> Prop) `{forall x, Decision (P x)} (l : list A) :
  (forall x, x ∈ l -> P x) -> filter P l = l.
Proof.
  induction l as [|x l IH]; intros Hall; [done|].
  rewrite filter_cons, decide_True by (apply Hall; left).
  rewrite IH; [done|]. intros y Hy. apply Hall. by right.
Qed.

(** X22. An admin receives every new order more than once. Its
    registration puts the connection in [dispatchers] and in the four team
    rooms; an order whose target teams are derived from its sections is
    emitted to each of those rooms and to [dispatchers], so the admin gets
    one copy for every section with items and one more. *)
Theorem X22_an_admin_receives_a_copy_per_team id ud st sender user clock d o :
  UserData.role ud = Some "admin"%string ->
  Payload.order d = Some o ->
  no_explicit_groups d ->
  teams_of_details (Payload.order_details o) <> [] ->
  deliveries "new-order" id (register id ud st).1
    (create_order sender user clock d (register id ud st).1)
  = S (length (teams_of_details (Payload.order_details o))).
Proof.
  intros Hrole Ho Hno Hne.
  rewrite (deliveries_create_order _ _ _ _ o) by done.
  rewrite create_targetTeams_derived by done.
  rewrite filter_all.
  - rewrite decide_True; [lia|]. apply register_admin_member; [done|]. by left.
  - intros team Hteam. apply register_admin_member; [done|].
    right. by apply teams_of_details_rooms with (details := Payload.order_details o).
Qed.

Lemma X22_witness :
  deliveries "new-order" "s1"
    (register "s1" (SocketSamples.keyed_user "admin" "office") initial).1
    (create_order "s9" None (fun _ => "2025-01-01T00:00:00.000Z"%string)
       (SocketSamples.event_for SocketSamples.caps_only)
       (register "s1" (SocketSamples.keyed_user "admin" "office") initial).1)
  = 2.
Proof.
  apply (X22_an_admin_receives_a_copy_per_team "s1"
           (SocketSamples.keyed_user "admin" "office") initial "s9" None
           (fun _ => "2025-01-01T00:00:00.000Z"%string)
           (SocketSamples.event_for SocketSamples.caps_only) SocketSamples.caps_only).
  - reflexivity.
  - reflexivity.
  - left. reflexivity.
  - vm_compute. discriminate.
Defined.

Lemma not_in_leave_all id r st dispatchers' teams' :
  id ∉ room_members r {| dispatchers := dispatchers'; teams := teams';
                         rooms := leave_all id (rooms st) |}.
Proof.
  unfold room_members, leave_all. cbn [rooms]. rewrite lookup_fmap.
  destruct (rooms st !! r) as [sockets|]; simpl.
  - rewrite elem_of_difference, elem_of_singleton. tauto.
  - apply not_elem_of_empty.
Qed.

Lemma others_in_leave_all id s r st dispatchers' teams' :
  s <> id ->
  s ∈ room_members r {| dispatchers := dispatchers'; teams := teams';
                        rooms := leave_all id (rooms st) |}
  <-> s ∈ room_members r st.
Proof.
  intros Hne. unfold room_members, leave_all. cbn [rooms]. rewrite lookup_fmap.
  destruct (rooms st !! r) as [sockets|]; simpl.
  - rewrite elem_of_difference, elem_of_singleton. tauto.
  - done.
Qed.

Lemma register_admin_entries id ud t st :
  UserData.role ud = Some "admin"%string ->
  UserData.team ud = Some t ->
  Js.truthy (Some t) = true ->
  (register id ud st).2 = None ->
  exists info,
    socketId info = id
    /\ dispatchers (register id ud st).1 !! UserData.userId ud = Some info
    /\ team_users (Js.normalize t) (register id ud st).1 !! UserData.userId ud = Some info.
Proof.
  intros Hrole Hteam Htruthy. unfold register.
  rewrite bool_decide_eq_true_2 by done. rewrite Hteam, Htruthy.
  set (info := {| socketId := id; userId := UserData.userId ud; role := UserData.role ud;
                  team := Some t; connected := true |}).
  intros Hok. exists info. split; [done|]. split.
  - rewrite dispatchers_register_team. unfold register_admin. cbn [fold_left teamRooms].
    change (dispatchers _) with (<[userId info := info]> (dispatchers (join "all-teams" id st))).
    apply lookup_insert_eq.
  - by apply (register_team_entry id info).
Qed.

(** X23. The handler of [disconnect] stops at the first entry it deletes.
    An admin who registered with a team has an entry in the dispatchers
    and one in its team table; when its connection closes, the connection
    is in no room any more, and the entry in the team table is still
    there, naming the closed connection. *)
Theorem X23_disconnect_leaves_the_team_entry_of_an_admin id ud t st :
  UserData.role ud = Some "admin"%string ->
  UserData.team ud = Some t ->
  Js.truthy (Some t) = true ->
  (register id ud st).2 = None ->
  (exists st', disconnect id (register id ud st).1 st')
  /\ forall st', disconnect id (register id ud st).1 st' ->
       (forall r, id ∉ room_members r st')
       /\ exists info,
            team_users (Js.normalize t) st' !! UserData.userId ud = Some info
            /\ socketId info = id.
Proof.
  intros Hrole Hteam Htruthy Hok.
  destruct (register_admin_entries id ud t st Hrole Hteam Htruthy Hok)
    as (info & Hid & Hdisp & Hentry).
  split.
  - eexists. by eapply disconnect_dispatcher.
  - intros st' Hd. inversion Hd as [uid info' Hl Hs | team users uid info' Hnone | Hnone]; subst st'.
    + split; [intros r; apply not_in_leave_all|]. exists info. by split.
    + by apply Hnone in Hdisp.
    + by apply Hnone in Hdisp.
Qed.

Lemma X23_witness :
  exists info,
    team_users "glass"
      {| dispatchers := delete (Some "u1"%string)
                          (dispatchers (register "s1" (SocketSamples.keyed_user "admin" "Glass ") initial).1);
         teams := teams (register "s1" (SocketSamples.keyed_user "admin" "Glass ") initial).1;
         rooms := leave_all "s1"
                    (rooms (register "s1" (SocketSamples.keyed_user "admin" "Glass ") initial).1) |}
      !! Some "u1"%string = Some info
    /\ socketId info = "s1"%string.
Proof.
  destruct (X23_disconnect_leaves_the_team_entry_of_an_admin "s1"
              (SocketSamples.keyed_user "admin" "Glass ") "Glass " initial
              eq_refl eq_refl eq_refl eq_refl) as [_ Hall].
  refine (proj2 (Hall _ (disconnect_dispatcher "s1" _ (Some "u1"%string)
                           {| socketId := "s1"; userId := Some "u1"%string;
                              role := Some "admin"%string; team := Some "Glass "%string;
                              connected := true |} _ _))).
  - vm_compute. reflexivity.
  - reflexivity.
Defined.

(** X24. The handler of [disconnect] touches nothing of the other
    connections: their entries in the dispatchers and in the team tables
    and their rooms are the same before and after. *)
Theorem X24_disconnect_keeps_the_other_connections id st st' :
  disconnect id st st' ->
  (forall uid info, socketId info <> id ->
     (dispatchers st' !! uid = Some info <-> dispatchers st !! uid = Some info)
     /\ forall team, team_users team st' !! uid = Some info
                     <-> team_users team st !! uid = Some info)
  /\ (forall s r, s <> id -> s ∈ room_members r st' <-> s ∈ room_members r st).
Proof.
  intros Hd.
  inversion Hd as [uid0 info0 Hl Hs | team0 users0 uid0 info0 Hnone Ht Hu Hs | Hnone Hnone'];
    subst st'.
  - split; [|intros s r Hne; by apply others_in_leave_all].
    intros uid info Hne. split; [|done]. cbn [dispatchers].
    destruct (decide (uid0 = uid)) as [<-|Hother].
    + rewrite lookup_delete_eq. split; [done|]. rewrite Hl. intros [= <-]. done.
    + by rewrite lookup_delete_ne.
  - split; [|intros s r Hne; by apply others_in_leave_all].
    intros uid info Hne. split; [done|]. intros team. unfold team_users. cbn [teams].
    destruct (decide (team0 = team)) as [<-|Hother].
    + rewrite lookup_insert_eq, Ht. simpl.
      destruct (decide (uid0 = uid)) as [<-|Hother].
      * rewrite lookup_delete_eq. split; [done|]. rewrite Hu. intros [= <-]. done.
      * by rewrite lookup_delete_ne.
    + by rewrite lookup_insert_ne.
  - split; [|intros s r Hne; by apply others_in_leave_all].
    intros uid info Hne. done.
Qed.

Lemma X24_witness :
  "s2"%string ∈ room_members "caps"
    {| dispatchers := delete (Some "u1"%string)
                        (dispatchers (register "s2" (SocketSamples.keyed_user "worker" "caps")
                                        (register "s1" (SocketSamples.keyed_user "admin" "glass") initial).1).1);
       teams := teams (register "s2" (SocketSamples.keyed_user "worker" "caps")
                         (register "s1" (SocketSamples.keyed_user "admin" "glass") initial).1).1;
       rooms := leave_all "s1"
                  (rooms (register "s2" (SocketSamples.keyed_user "worker" "caps")
                            (register "s1" (SocketSamples.keyed_user "admin" "glass") initial).1).1) |}
  <-> "s2"%string ∈ room_members "caps"
        (register "s2" (SocketSamples.keyed_user "worker" "caps")
           (register "s1" (SocketSamples.keyed_user "admin" "glass") initial).1).1.
Proof.
  refine (proj2 (X24_disconnect_keeps_the_other_connections "s1" _ _
                   (disconnect_dispatcher "s1" _ (Some "u1"%string)
                      {| socketId := "s1"; userId := Some "u1"%string;
                         role := Some "admin"%string; team := Some "glass"%string;
                         connected := true |} _ _)) "s2"%string "caps"%string _).
  - vm_compute. reflexivity.
  - reflexivity.
  - discriminate.
Defined.


Lemma deliveries_member name s st e l :
  e ∈ l -> event e = name -> s ∈ recipients st e -> 1 <= deliveries name s st l.
Proof.
  intros He Hn Hs. unfold deliveries.
  assert (e ∈ filter (fun e => event e = name /\ s ∈ recipients st e) l) as Hin.
  { by apply list_elem_of_filter. }
  destruct (filter _ l); [by apply elem_of_nil in Hin | cbn [length]; lia].
Qed.

(** X25. What a member of a team room who is not in [dispatchers] gets
    to know. When the event names no teams, a new order reaches it if its
    room is that of a section with items; the deletion of the same order
    does not reach it, for [delete-order] derives nothing from the order;
    and no progress update ever reaches it, for [order-update] is emitted
    to [dispatchers] alone. *)
Theorem X25_teams_hear_of_new_orders_not_of_their_end s st sender user clock :
  s ∉ room_members "dispatchers" st ->
  (forall d o team,
     Payload.order d = Some o -> no_explicit_groups d ->
     team ∈ teams_of_details (Payload.order_details o) ->
     s ∈ room_members team st ->
     1 <= deliveries "new-order" s st (create_order sender user clock d st))
  /\ (forall d, no_explicit_groups d ->
        deliveries "order-deleted" s st (delete_order sender user clock d) = 0)
  /\ (forall d, deliveries "order-updated" s st (order_update sender user clock d).1 = 0).
Proof.
  intros Hs. split; [|split].
  - intros d o team Ho Hno Hteam Hin.
    rewrite (deliveries_create_order _ _ _ _ o) by done.
    rewrite create_targetTeams_derived; [|done|by intros E; rewrite E in Hteam; apply elem_of_nil in Hteam].
    assert (team ∈ filter (fun team => s ∈ room_members team st)
                     (teams_of_details (Payload.order_details o))) as Hf.
    { by apply list_elem_of_filter. }
    destruct (filter _ (teams_of_details _)); [by apply elem_of_nil in Hf | cbn [length]; lia].
  - intros d Hno. unfold delete_order.
    assert (deliveries "order-deleted" s st [invalid_order sender "order-delete-error"] = 0)
      as Herr.
    { rewrite deliveries_cons, deliveries_nil. cbn [event invalid_order].
      rewrite decide_False; [done|]. by intros [? _]. }
    destruct (Payload.order d) as [o|]; [|apply Herr].
    destruct (Js.truthy (Payload._id o)); [|apply Herr].
    assert (default [] (Payload.teamTypes d) = []) as ->.
    { by destruct Hno as [-> | ->]. }
    cbn [imap app length]. rewrite !deliveries_cons, deliveries_nil.
    cbn [event recipients to].
    rewrite decide_False by (by intros [_ ?]).
    rewrite decide_False by (by intros [? _]). done.
  - intros d. unfold order_update.
    destruct (SocketEvents.Updated.order d) as [o|]; [|done].
    cbn [fst]. rewrite !deliveries_cons, deliveries_nil. cbn [event recipients to].
    rewrite decide_False by (by intros [_ ?]).
    rewrite decide_False by (by intros [? _]). done.
Qed.

Lemma X25_witness :
  1 <= deliveries "new-order" "s2"
         (register "s2" (SocketSamples.keyed_user "worker" "Caps") initial).1
         (create_order "s9" None (fun _ => "2025-01-01T00:00:00.000Z"%string)
            (SocketSamples.event_for SocketSamples.caps_only)
            (register "s2" (SocketSamples.keyed_user "worker" "Caps") initial).1).
Proof.
  refine (proj1 (X25_teams_hear_of_new_orders_not_of_their_end "s2"
                   (register "s2" (SocketSamples.keyed_user "worker" "Caps") initial).1
                   "s9" None (fun _ => "2025-01-01T00:00:00.000Z"%string) _)
            (SocketSamples.event_for SocketSamples.caps_only) SocketSamples.caps_only
            "caps"%string eq_refl (or_introl eq_refl) _ _).
  - apply (bool_decide_unpack _). vm_compute. exact I.
  - apply (bool_decide_unpack _). vm_compute. exact I.
  - apply (bool_decide_unpack _). vm_compute. exact I.
Defined.

(** X26. [edit-order] in the two servers, for an event that carries an
    order. When teams are listed, both emit the order to the rooms of the
    listed names, as written; the connection-keyed server emits it to
    [dispatchers] as well, the user-keyed server does not. When no list
    comes, the connection-keyed server derives the teams from the order
    and still emits to [dispatchers]; the user-keyed server throws before
    it has emitted anything. Neither confirms to the sender. *)
Theorem X26_edit_order_in_the_two_servers d o :
  SocketEvents.Edited.order d = Some o ->
  (forall t ts, SocketEvents.Edited.teamTypes d = Some (t :: ts) ->
     map to (edit_order d).1 = map Room (t :: ts)
     /\ (edit_order d).2 = None
     /\ map SocketEvents.sent_to (SocketEvents.edit_order d).1
        = map to (edit_order d).1 ++ [Room "dispatchers"])
  /\ (SocketEvents.Edited.teamTypes d = None ->
      edit_order d = ([], Some reading_forEach)
      /\ (SocketEvents.edit_order d).2 = None
      /\ map SocketEvents.sent_to (SocketEvents.edit_order d).1
         = map Room (SocketServer.teams_of_details (Payload.order_details o))
           ++ [Room "dispatchers"])
  /\ (forall id e, e ∈ (edit_order d).1 -> to e <> Socket id).
Proof.
  intros Ho. unfold edit_order, SocketEvents.edit_order. rewrite Ho.
  assert (forall (f : string -> Sent) l, (forall x, to (f x) = Room x) -> map to (map f l) = map Room l)
    as Hmap.
  { intros f l Hf. induction l as [|x l IH]; [done|]. cbn [map]. by rewrite Hf, IH. }
  assert (forall (f : string -> SocketEvents.Sent) l,
            (forall x, SocketEvents.sent_to (f x) = Room x) ->
            map SocketEvents.sent_to (map f l) = map Room l) as Hmap'.
  { intros f l Hf. induction l as [|x l IH]; [done|]. cbn [map]. by rewrite Hf, IH. }
  split; [|split].
  - intros t ts Hts. rewrite Hts. cbn [fst snd explicit_or_derived].
    rewrite Hmap by done. split; [done|]. split; [done|].
    rewrite map_app, Hmap' by done. done.
  - intros Hts. rewrite Hts. cbn [fst snd explicit_or_derived]. split; [done|]. split; [done|].
    rewrite map_app, Hmap' by done. done.
  - intros id e. destruct (SocketEvents.Edited.teamTypes d) as [l|]; cbn [fst].
    + intros (team & -> & _)%list_elem_of_fmap. done.
    + by intros ?%elem_of_nil.
Qed.

Lemma X26_witness :
  map to (edit_order {| SocketEvents.Edited.order := Some SocketSamples.glass_only;
                        SocketEvents.Edited.teamTypes := Some ["Glass "%string] |}).1
  = map Room ["Glass "%string].
Proof.
  destruct (X26_edit_order_in_the_two_servers
              {| SocketEvents.Edited.order := Some SocketSamples.glass_only;
                 SocketEvents.Edited.teamTypes := Some ["Glass "%string] |}
              SocketSamples.glass_only eq_refl) as (Hlisted & _ & _).
  apply (Hlisted "Glass "%string [] eq_refl).
Defined.

End UserKeyedExtras.
